(** * remote_execution.ts and extension.ts: the wire codec, the node
      registry, the discovery connection, the command connection, the
      session facade and the commands of the extension, embedded from the
      TypeScript source.

    The program is a TypeScript port of Unreal Engine's [remote_execution.py],
    with the editor extension that drives it.  Each class of the source is a
    module of the same name here, each method a function of the same name on
    the object's fields.

    The program runs on one JavaScript thread: a method body runs to
    completion before any socket or timer callback fires.  Methods are
    therefore functions on explicit states, callbacks are separate
    transitions, and the one unbounded loop of the source carries fuel.  An
    exception is a result of its own kind, next to the state the throwing
    call leaves behind.

    What belongs to the platform and not to the repository (the JSON
    library, the conversion of strings to numbers) is an interface the
    definitions are parametric in; the wall clock and the heap of objects
    known by reference make up an explicit world.  A socket is what was
    sent on it.  JavaScript numbers are restricted to the integers and
    strings stand for their UTF-8 bytes.

    A received value that is converted to a string or compared with [==]
    can make the conversion throw; that is part of the outcomes.
    [console.log] output is left out.  Of the conversions made for a log
    line only, one can throw where it is reached, that of a node's data in
    the sweep of the registry: the sweep is embedded for nodes whose data
    convert.  The registry is the map of its own keys; the prototype of the
    registry object, which an assignment to the key [__proto__] replaces, is
    not embedded.  The statements say where they depend on either. *)

From Stdlib Require Import ZArith String Ascii List Bool Lia.
From Stdlib Require Import DecimalString DecimalFacts DecimalPos DecimalZ.
From stdpp Require Import base option gmap strings list fin_maps.

Local Set Warnings "-register-all".
Local Open Scope Z_scope.
Local Open Scope string_scope.

(** ** JavaScript values *)

Module JS.

(** The values [JSON.parse] can produce, plus [undefined].  An object is
    its list of own properties in enumeration order. *)
Inductive jsval : Type :=
| JUndefined
| JNull
| JBool (b : bool)
| JNum (n : Z)
| JStr (s : string)
| JArr (elems : list jsval)
| JObj (props : list (string * jsval)).

(** What [throw] carries in this program: the two platform errors, and
    [new Error(message)]. *)
Inductive exn : Type :=
| SyntaxError
| TypeError
| Error (message : string).

(** Completion of a statement or call: a value, or a thrown exception. *)
Inductive completion (A : Type) : Type :=
| Normal (a : A)
| Throw (e : exn).
Arguments Normal {A} a.
Arguments Throw {A} e.

Definition bind {A B : Type} (c : completion A) (k : A -> completion B)
  : completion B :=
  match c with
  | Normal a => k a
  | Throw e => Throw e
  end.

Notation "'let*' x ':=' c 'in' k" := (bind c (fun x => k))
  (at level 10, x name, c at level 100, k at level 200).

(** Number::toString on an integer. *)
Definition Z_to_string (n : Z) : string :=
  NilZero.string_of_int (Z.to_int n).

(** ToBoolean. *)
Definition truthy (v : jsval) : bool :=
  match v with
  | JUndefined | JNull => false
  | JBool b => b
  | JNum n => negb (Z.eqb n 0)
  | JStr s => negb (String.eqb s "")
  | JArr _ | JObj _ => true
  end.

(** [Array.prototype.join] on the texts of the elements, converted from
    left to right: the first conversion that throws ends the call. *)
Fixpoint join (texts : list (completion string)) : completion string :=
  match texts with
  | [] => Normal ""
  | [text] => text
  | text :: rest =>
      let* head := text in
      let* tail := join rest in
      Normal (head ++ "," ++ tail)
  end.

(** ToString, which a template literal and a property key apply to a
    value.  An array is joined with commas, [null] and [undefined] elements
    printing as nothing.  A plain object is converted by the method
    [toString] it inherits and prints as [[object Object]], unless it has a
    property [toString] of its own: in a value [JSON.parse] made that is no
    function, [Object.prototype.valueOf] returns no primitive either, and
    the conversion throws [TypeError].  ToPrimitive, which [==] and [!=]
    apply to an object, asks [valueOf] before [toString] and ends the same
    way. *)
Fixpoint ToString (v : jsval) : completion string :=
  match v with
  | JUndefined => Normal "undefined"
  | JNull => Normal "null"
  | JBool true => Normal "true"
  | JBool false => Normal "false"
  | JNum n => Normal (Z_to_string n)
  | JStr s => Normal s
  | JArr elems =>
      join (map (fun x => match x with
                          | JUndefined | JNull => Normal ""
                          | _ => ToString x
                          end) elems)
  | JObj props =>
      if bool_decide ("toString" ∈ props.*1) then Throw TypeError
      else Normal "[object Object]"
  end.

(** [o[key]] for a string literal [key] that is no built-in property of
    the primitive wrappers, of arrays or of [Object.prototype] (all the
    keys this program reads are such).  Reading a property of [null] or
    [undefined] throws. *)
Fixpoint own_property (props : list (string * jsval)) (key : string) : jsval :=
  match props with
  | [] => JUndefined
  | (k, v) :: rest => if String.eqb k key then v else own_property rest key
  end.

Definition get (o : jsval) (key : string) : completion jsval :=
  match o with
  | JUndefined | JNull => Throw TypeError
  | JObj props => Normal (own_property props key)
  | JBool _ | JNum _ | JStr _ | JArr _ => Normal JUndefined
  end.

Definition keys (o : jsval) : list string :=
  match o with
  | JObj props => map fst props
  | _ => []
  end.

End JS.
Export JS.

(** Induction on values, with the induction hypothesis for every element
    of an array and every property of an object. *)
Section jsval_induction.
Variable P : jsval -> Prop.
Hypothesis Hundefined : P JUndefined.
Hypothesis Hnull : P JNull.
Hypothesis Hbool : forall b, P (JBool b).
Hypothesis Hnum : forall n, P (JNum n).
Hypothesis Hstr : forall s, P (JStr s).
Hypothesis Harr : forall elems, Forall P elems -> P (JArr elems).
Hypothesis Hobj : forall props, Forall (fun kv => P kv.2) props -> P (JObj props).

Fixpoint jsval_nested_ind (v : jsval) : P v :=
  match v with
  | JUndefined => Hundefined
  | JNull => Hnull
  | JBool b => Hbool b
  | JNum n => Hnum n
  | JStr s => Hstr s
  | JArr elems =>
      Harr elems
        ((fix all (l : list jsval) : Forall P l :=
            match l with
            | [] => Forall_nil_2 P
            | x :: rest => Forall_cons_2 P x rest (jsval_nested_ind x) (all rest)
            end) elems)
  | JObj props =>
      Hobj props
        ((fix all (l : list (string * jsval)) : Forall (fun kv => P kv.2) l :=
            match l with
            | [] => Forall_nil_2 _
            | kv :: rest =>
                Forall_cons_2 (fun kv => P kv.2) kv rest
                  (jsval_nested_ind kv.2) (all rest)
            end) props)
  end.
End jsval_induction.

(** The values that JSON text can carry and that print to text that reads
    back as themselves: no [undefined], no key twice in one object. *)
Inductive json_value : jsval -> Prop :=
| jv_null : json_value JNull
| jv_bool (b : bool) : json_value (JBool b)
| jv_num (n : Z) : json_value (JNum n)
| jv_str (s : string) : json_value (JStr s)
| jv_arr (elems : list jsval) :
    Forall json_value elems -> json_value (JArr elems)
| jv_obj (props : list (string * jsval)) :
    NoDup props.*1 -> Forall (fun kv => json_value kv.2) props ->
    json_value (JObj props).

(** ** The platform *)

(** [JSON.parse] answers [None] where it throws [SyntaxError];
    [StringToNumber] answers [None] for [NaN] and for every number that is
    not an integer. *)
Class Runtime : Type := {
  JSON_parse : string -> option jsval;
  JSON_stringify : jsval -> string;
  StringToNumber : string -> option Z;
}.

Section LooseEquality.
Context `{Runtime}.

(** [v == n] for a number [n] (IsLooselyEqual): a boolean is converted to
    a number, a string by StringToNumber, an object by ToPrimitive, which
    for arrays and plain objects gives what ToString gives, or throws as
    it does. *)
Definition loose_eq_num (v : jsval) (n : Z) : completion bool :=
  match v with
  | JUndefined | JNull => Normal false
  | JBool b => Normal (Z.eqb (if b then 1 else 0) n)
  | JNum k => Normal (Z.eqb k n)
  | JStr s => Normal (bool_decide (StringToNumber s = Some n))
  | JArr _ | JObj _ =>
      let* text := ToString v in
      Normal (bool_decide (StringToNumber text = Some n))
  end.

(** [v == s] for a string [s]. *)
Definition loose_eq_str (v : jsval) (s : string) : completion bool :=
  match v with
  | JUndefined | JNull => Normal false
  | JBool b => Normal (bool_decide (StringToNumber s = Some (if b then 1 else 0)))
  | JNum k => Normal (bool_decide (StringToNumber s = Some k))
  | JStr t => Normal (String.eqb t s)
  | JArr _ | JObj _ =>
      let* text := ToString v in
      Normal (String.eqb text s)
  end.

End LooseEquality.

(** ** Protocol constants *)

Definition _PROTOCOL_VERSION : Z := 1.
Definition _PROTOCOL_MAGIC : string := "ue_py".
Definition _TYPE_PING : string := "ping".
Definition _TYPE_PONG : string := "pong".
Definition _TYPE_OPEN_CONNECTION : string := "open_connection".
Definition _TYPE_CLOSE_CONNECTION : string := "close_connection".
Definition _TYPE_COMMAND : string := "command".
Definition _TYPE_COMMAND_RESULT : string := "command_result".

Definition _NODE_PING_SECONDS : Z := 1000.
Definition _NODE_TIMEOUT_SECONDS : Z := 5000.

Definition DEFAULT_MULTICAST_TTL : Z := 0.
Definition DEFAULT_MULTICAST_GROUP_ENDPOINT : string * Z := ("239.0.0.1", 6766).
Definition DEFAULT_MULTICAST_BIND_ADDRESS : string := "0.0.0.0".
Definition DEFAULT_COMMAND_ENDPOINT : string * Z := ("127.0.0.1", 6776).

(** What the source's [throw new Error(...)] statements throw.  The
    first two messages quote the field name.  Where the message is a
    template over a received value, the value is converted first, and what
    the conversion throws is thrown in place of the error. *)
Definition dquote : string := String (ascii_of_nat 34) "".

Definition version_is_incorrect (got : jsval) : exn :=
  match ToString got with
  | Normal text =>
      Error (dquote ++ "version" ++ dquote ++ " is incorrect (got " ++ text
             ++ ", expected " ++ Z_to_string _PROTOCOL_VERSION ++ ")!")
  | Throw e => e
  end.

Definition magic_is_incorrect (got : jsval) : exn :=
  match ToString got with
  | Normal text =>
      Error (dquote ++ "magic" ++ dquote ++ " is incorrect (got " ++ dquote
             ++ text ++ dquote ++ ", expected " ++ dquote
             ++ _PROTOCOL_MAGIC ++ dquote ++ ")!")
  | Throw e => e
  end.

Definition failed_to_attempt_connection : exn :=
  Error "Remote party failed to attempt the command socket connection!".

Definition failed_to_send_valid_response : exn :=
  Error "Remote party failed to send a valid response!".

Definition remote_command_failed (result : jsval) : exn :=
  match ToString result with
  | Normal text => Error ("Remote Python Command failed! " ++ text ++ ".")
  | Throw e => e
  end.

Definition MODE_EXEC_FILE : string := "ExecuteFile".
Definition MODE_EXEC_STATEMENT : string := "ExecuteStatement".
Definition MODE_EVAL_STATEMENT : string := "EvaluateStatement".

Module RemoteExecutionConfig.
Record t : Type := {
  multicast_ttl : Z;
  multicast_group_endpoint : string * Z;
  multicast_bind_address : string;
  command_endpoint : string * Z;
}.

Definition new : t := {|
  multicast_ttl := DEFAULT_MULTICAST_TTL;
  multicast_group_endpoint := DEFAULT_MULTICAST_GROUP_ENDPOINT;
  multicast_bind_address := DEFAULT_MULTICAST_BIND_ADDRESS;
  command_endpoint := DEFAULT_COMMAND_ENDPOINT;
|}.
End RemoteExecutionConfig.

(** ** class _RemoteExecutionMessage *)

Module _RemoteExecutionMessage.

Record t : Type := {
  type_ : jsval;
  source : jsval;
  dest : jsval;
  data : jsval;
}.

(** A parameter with default [null] takes it when the argument is
    [undefined]. *)
Definition default_null (arg : jsval) : jsval :=
  match arg with
  | JUndefined => JNull
  | _ => arg
  end.

Definition new (type_ source dest data : jsval) : t := {|
  type_ := type_;
  source := source;
  dest := default_null dest;
  data := default_null data;
|}.

Section Methods.
Context `{Runtime}.

(** [this.source != node_id && (!this.dest || this.dest == node_id)],
    the operands evaluated from left to right as far as the answer needs
    them. *)
Definition passes_receive_filter (this : t) (node_id : string) : completion bool :=
  let* from_self := loose_eq_str (source this) node_id in
  if from_self then Normal false
  else if negb (truthy (dest this)) then Normal true
  else loose_eq_str (dest this) node_id.

(** The object literal [json_obj] of [to_json], after the two
    conditional assignments. *)
Definition to_json_obj (this : t) : jsval :=
  JObj ([("version", JNum _PROTOCOL_VERSION);
         ("magic", JStr _PROTOCOL_MAGIC);
         ("type", type_ this);
         ("source", source this)]
        ++ (if truthy (dest this) then [("dest", dest this)] else [])
        ++ (if truthy (data this) then [("data", data this)] else [])).

Definition to_json (this : t) : string :=
  JSON_stringify (to_json_obj this).

(** The [try] block of [from_json].  Once the version test has read a
    property of [json_obj] without throwing, no later read throws, so
    the four assignments happen together or not at all. *)
Definition from_json_try (json_str : string) : completion t :=
  match JSON_parse json_str with
  | None => Throw SyntaxError
  | Some json_obj =>
      let* version := get json_obj "version" in
      let* same_version := loose_eq_num version _PROTOCOL_VERSION in
      if negb same_version
      then Throw (version_is_incorrect version)
      else
      let* magic := get json_obj "magic" in
      let* same_magic := loose_eq_str magic _PROTOCOL_MAGIC in
      if negb same_magic
      then Throw (magic_is_incorrect magic)
      else
      let* ty := get json_obj "type" in
      let* src := get json_obj "source" in
      let* dst := get json_obj "dest" in
      let* dat := get json_obj "data" in
      Normal {| type_ := ty; source := src; dest := dst; data := dat |}
  end.

(** [from_json]: the returned boolean, the receiver after the call, and
    the exception the [catch] clause logged, if any. *)
Definition from_json (this : t) (json_str : string) : bool * t * option exn :=
  match from_json_try json_str with
  | Normal this' => (true, this', None)
  | Throw error => (true, this, Some error)
  end.

(** Strings stand for both the text and its UTF-8 bytes. *)
Definition to_json_bytes (this : t) : string := to_json this.

Definition from_json_bytes (this : t) (json_bytes : string)
  : bool * t * option exn :=
  from_json this json_bytes.

End Methods.

End _RemoteExecutionMessage.


(** ** The world outside the objects: the wall clock and the object heap *)

(** Records handed across the registry's interface are JavaScript objects,
    known by reference.  A heap cell holds the own properties of one such
    object; what sits inside a property is a value tree. *)
Definition loc : Type := nat.

Inductive primitive : Type :=
| PUndefined
| PNull
| PBool (b : bool)
| PNum (n : Z)
| PStr (s : string).

Inductive value : Type :=
| VPrim (p : primitive)
| VRef (l : loc).

Record world : Type := {
  wall_clock : nat -> Z;
  clock_reads : nat;
  heap : gmap loc (list (string * jsval));
  next_loc : loc;
}.

(** [new Date().getTime()]: the next reading of the wall clock. *)
Definition Date_getTime (w : world) : Z * world :=
  (wall_clock w (clock_reads w),
   {| wall_clock := wall_clock w;
      clock_reads := S (clock_reads w);
      heap := heap w;
      next_loc := next_loc w |}).

(** A timestamp argument is a number or [null]. *)
Definition _time_now (now : option Z) (w : world) : Z * world :=
  match now with
  | Some n => if Z.eqb n 0 then Date_getTime w else (n, w)
  | None => Date_getTime w
  end.

Definition alloc (props : list (string * jsval)) (w : world) : loc * world :=
  (next_loc w,
   {| wall_clock := wall_clock w;
      clock_reads := clock_reads w;
      heap := <[next_loc w := props]> (heap w);
      next_loc := S (next_loc w) |}).

Definition read_object (l : loc) (w : world) : list (string * jsval) :=
  default [] (heap w !! l).

(** [o[key] = v] on own properties: an existing key keeps its place. *)
Fixpoint set_property (props : list (string * jsval)) (key : string) (v : jsval)
  : list (string * jsval) :=
  match props with
  | [] => [(key, v)]
  | (k, x) :: rest =>
      if String.eqb k key then (k, v) :: rest
      else (k, x) :: set_property rest key v
  end.

Definition write_property (l : loc) (key : string) (v : jsval) (w : world) : world :=
  {| wall_clock := wall_clock w;
     clock_reads := clock_reads w;
     heap := <[l := set_property (read_object l w) key v]> (heap w);
     next_loc := next_loc w |}.

(** [new Object(x)]: an object is returned as it is, [null] and
    [undefined] give a fresh empty object, another primitive a fresh
    wrapper, of which only the properties set later are kept. *)
Definition new_Object (x : value) (w : world) : loc * world :=
  match x with
  | VRef l => (l, w)
  | VPrim _ => alloc [] w
  end.

(** The properties of an array: its elements under their indices. *)
Fixpoint indexed (from : nat) (elems : list jsval) : list (string * jsval) :=
  match elems with
  | [] => []
  | x :: rest => (Z_to_string (Z.of_nat from), x) :: indexed (S from) rest
  end.

(** A value [JSON.parse] made, as the registry comes to hold it: an object
    or an array is one new object of the heap (no one else has a reference
    to it), a primitive is itself. *)
Definition parsed_value (v : jsval) (w : world) : value * world :=
  match v with
  | JUndefined => (VPrim PUndefined, w)
  | JNull => (VPrim PNull, w)
  | JBool b => (VPrim (PBool b), w)
  | JNum n => (VPrim (PNum n), w)
  | JStr s => (VPrim (PStr s), w)
  | JArr elems => let '(l, w) := alloc (indexed 0 elems) w in (VRef l, w)
  | JObj props => let '(l, w) := alloc props w in (VRef l, w)
  end.

(** ** class _RemoteExecutionNode *)

Module _RemoteExecutionNode.

Record t : Type := {
  data : value;
  _last_pong : Z;
}.

Definition new (data : value) (now : option Z) (w : world) : t * world :=
  let '(stamp, w) := _time_now now w in
  ({| data := data; _last_pong := stamp |}, w).

Definition should_timeout (this : t) (now : option Z) (w : world) : bool * world :=
  let '(stamp, w) := _time_now now w in
  (Z.ltb (_last_pong this + _NODE_TIMEOUT_SECONDS) stamp, w).

End _RemoteExecutionNode.

(** ** class _RemoteExecutionBroadcastNodes *)

Module _RemoteExecutionBroadcastNodes.

(** The object [_remote_nodes], used as a map from node id to node. *)
Record t : Type := {
  _remote_nodes : gmap string _RemoteExecutionNode.t;
}.

Definition new : t := {| _remote_nodes := ∅ |}.

(** One turn of the [for ... in] loop of the getter. *)
Definition remote_nodes_step (acc : list loc * world)
  (entry : string * _RemoteExecutionNode.t) : list loc * world :=
  let '(remote_nodes_list, w) := acc in
  let '(node_id, node) := entry in
  let '(remote_node_data, w) := new_Object (_RemoteExecutionNode.data node) w in
  let w := write_property remote_node_data "node_id" (JStr node_id) w in
  ((remote_nodes_list ++ [remote_node_data])%list, w).

Definition remote_nodes (this : t) (w : world) : list loc * world :=
  foldl remote_nodes_step ([], w) (map_to_list (_remote_nodes this)).

(** [update_remote_node].  The method [hasOwnProperty] is read off the
    registry object itself: once a node named [hasOwnProperty] is stored,
    what is read is that node, and calling it throws [TypeError].  An
    assignment to the key [__proto__] stores no key: it makes the new node
    the prototype of the registry object.  Prototypes are no part of the
    registry as it is embedded here, so that what the two loops over the
    registry do after such an assignment is not described. *)
Definition update_remote_node (this : t) (node_id : string) (node_data : value)
  (now : option Z) (w : world) : completion unit * t * world :=
  let '(_now, w) := _time_now now w in
  if bool_decide (is_Some (_remote_nodes this !! "hasOwnProperty"))
  then (Throw TypeError, this, w)
  else
    let '(node, w) := _RemoteExecutionNode.new node_data (Some _now) w in
    if String.eqb node_id "__proto__"
    then (Normal tt, this, w)
    else (Normal tt, {| _remote_nodes := <[node_id := node]> (_remote_nodes this) |}, w).

(** One turn of the loop of [timeout_remote_nodes].  Only the key being
    visited is ever deleted, so the node read back is the one enumerated.
    The loop is embedded for nodes whose data prints ([prints] below):
    before the [delete], the log line converts the data of the node to a
    string, and a conversion that throws ends the loop with that node and
    the nodes not yet visited kept. *)
Definition timeout_step (_now : Z)
  (acc : gmap string _RemoteExecutionNode.t * world)
  (entry : string * _RemoteExecutionNode.t)
  : gmap string _RemoteExecutionNode.t * world :=
  let '(nodes, w) := acc in
  let '(node_id, node) := entry in
  let '(expired, w) := _RemoteExecutionNode.should_timeout node (Some _now) w in
  (if expired then delete node_id nodes else nodes, w).

Definition timeout_remote_nodes (this : t) (now : option Z) (w : world)
  : t * world :=
  let '(_now, w) := _time_now now w in
  let '(nodes, w) :=
    foldl (timeout_step _now) (_remote_nodes this, w)
          (map_to_list (_remote_nodes this)) in
  ({| _remote_nodes := nodes |}, w).

End _RemoteExecutionBroadcastNodes.


(** ** class _RemoteExecutionBroadcastConnection *)

Module _RemoteExecutionBroadcastConnection.

(** A datagram handed to [socket.send]: the text, the port, the address. *)
Record datagram : Type := {
  dgram_data : string;
  dgram_port : Z;
  dgram_address : string;
}.

(** The UDP socket, seen through what was sent on it. *)
Record udp_socket : Type := {
  sent : list datagram;
}.

Record t : Type := {
  _config : RemoteExecutionConfig.t;
  _node_id : string;
  _nodes : option _RemoteExecutionBroadcastNodes.t;
  _running : bool;
  _last_ping : Z;
  _broadcast_socket : option udp_socket;
}.

Definition new (config : RemoteExecutionConfig.t) (node_id : string) : t := {|
  _config := config;
  _node_id := node_id;
  _nodes := None;
  _running := false;
  _broadcast_socket := None;
  _last_ping := 0;
|}.

(** [open], with [_init_broadcast_socket] creating the socket; binding and
    the interval timer are callbacks. *)
Definition open (this : t) : t := {|
  _config := _config this;
  _node_id := _node_id this;
  _nodes := Some _RemoteExecutionBroadcastNodes.new;
  _running := true;
  _broadcast_socket := Some {| sent := [] |};
  _last_ping := 0;
|}.

Definition close (this : t) : t := {|
  _config := _config this;
  _node_id := _node_id this;
  _nodes := None;
  _running := false;
  _broadcast_socket := None;
  _last_ping := _last_ping this;
|}.

Section Methods.
Context `{Runtime}.

Definition _broadcast_message (this : t) (message : _RemoteExecutionMessage.t)
  : completion unit * t :=
  let data := _RemoteExecutionMessage.to_json message in
  match _broadcast_socket this with
  | None => (Throw TypeError, this)
  | Some socket =>
      (Normal tt,
       {| _config := _config this;
          _node_id := _node_id this;
          _nodes := _nodes this;
          _running := _running this;
          _last_ping := _last_ping this;
          _broadcast_socket :=
            Some {| sent :=
              sent socket ++
              [{| dgram_data := data;
                  dgram_port :=
                    snd (RemoteExecutionConfig.multicast_group_endpoint (_config this));
                  dgram_address :=
                    fst (RemoteExecutionConfig.multicast_group_endpoint (_config this))
               |}] |} |})
  end.

Definition broadcast_open_connection (this : t) (remote_node_id : string)
  : completion unit * t :=
  _broadcast_message this
    (_RemoteExecutionMessage.new
       (JStr _TYPE_OPEN_CONNECTION)
       (JStr (_node_id this))
       (JStr remote_node_id)
       (JObj [("command_ip",
               JStr (fst (RemoteExecutionConfig.command_endpoint (_config this))));
              ("command_port",
               JNum (snd (RemoteExecutionConfig.command_endpoint (_config this))))])).

Definition broadcast_close_connection (this : t) (remote_node_id : string)
  : completion unit * t :=
  _broadcast_message this
    (_RemoteExecutionMessage.new
       (JStr _TYPE_CLOSE_CONNECTION)
       (JStr (_node_id this))
       (JStr remote_node_id)
       JUndefined).

Definition set_last_ping (this : t) (last_ping : Z) : t := {|
  _config := _config this;
  _node_id := _node_id this;
  _nodes := _nodes this;
  _running := _running this;
  _last_ping := last_ping;
  _broadcast_socket := _broadcast_socket this;
|}.

Definition set_nodes (this : t) (nodes : option _RemoteExecutionBroadcastNodes.t)
  : t := {|
  _config := _config this;
  _node_id := _node_id this;
  _nodes := nodes;
  _running := _running this;
  _last_ping := _last_ping this;
  _broadcast_socket := _broadcast_socket this;
|}.

Definition _broadcast_ping (this : t) (now : option Z) (w : world)
  : completion unit * t * world :=
  let '(_now, w) := _time_now now w in
  if Z.eqb (_last_ping this) 0 || Z.ltb (_last_ping this + _NODE_PING_SECONDS) _now
  then
    let this := set_last_ping this _now in
    let '(r, this) :=
      _broadcast_message this
        (_RemoteExecutionMessage.new
           (JStr _TYPE_PING) (JStr (_node_id this)) JUndefined JUndefined) in
    (r, this, w)
  else (Normal tt, this, w).

(** The payload is the object the parser made.  [message.source] is used
    as a property key: [update_remote_node] converts it once it has read
    the clock, and a conversion that throws ends the call there. *)
Definition _handle_pong_message (this : t) (message : _RemoteExecutionMessage.t)
  (w : world) : completion unit * t * world :=
  match _nodes this with
  | None => (Throw TypeError, this, w)
  | Some nodes =>
      match ToString (_RemoteExecutionMessage.source message) with
      | Throw e => (Throw e, this, (_time_now None w).2)
      | Normal node_id =>
          let '(node_data, w) :=
            parsed_value (_RemoteExecutionMessage.data message) w in
          let '(r, nodes, w) :=
            _RemoteExecutionBroadcastNodes.update_remote_node nodes
              node_id node_data None w in
          (r, set_nodes this (Some nodes), w)
      end
  end.

(** The log line for a type that is no pong prints a value the comparison
    before it has converted already. *)
Definition _handle_message (this : t) (message : _RemoteExecutionMessage.t)
  (w : world) : completion unit * t * world :=
  match _RemoteExecutionMessage.passes_receive_filter message (_node_id this) with
  | Throw e => (Throw e, this, w)
  | Normal false => (Normal tt, this, w)
  | Normal true =>
      match loose_eq_str (_RemoteExecutionMessage.type_ message) _TYPE_PONG with
      | Throw e => (Throw e, this, w)
      | Normal true => _handle_pong_message this message w
      | Normal false => (Normal tt, this, w)
      end
  end.

Definition _handle_data (this : t) (data : string) (w : world)
  : completion unit * t * world :=
  let message := _RemoteExecutionMessage.new JNull JNull JUndefined JUndefined in
  let '(parsed, message, _) := _RemoteExecutionMessage.from_json_bytes message data in
  if parsed then _handle_message this message w else (Normal tt, this, w).

(** The callback of the interval timer set when the socket listens. *)
Definition on_interval (this : t) (w : world) : completion unit * t * world :=
  let '(now, w) := _time_now None w in
  match _broadcast_ping this (Some now) w with
  | (Throw e, this, w) => (Throw e, this, w)
  | (Normal _, this, w) =>
      match _nodes this with
      | None => (Throw TypeError, this, w)
      | Some nodes =>
          let '(nodes, w) :=
            _RemoteExecutionBroadcastNodes.timeout_remote_nodes nodes (Some now) w in
          (Normal tt, set_nodes this (Some nodes), w)
      end
  end.

(** The getter [remote_nodes]. *)
Definition remote_nodes (this : t) (w : world) : list loc * world :=
  match _nodes this with
  | Some nodes => _RemoteExecutionBroadcastNodes.remote_nodes nodes w
  | None => ([], w)
  end.

End Methods.

End _RemoteExecutionBroadcastConnection.

(** A method called on a reference that may be [null]. *)
Definition call_on {A S : Type} (receiver : option S)
  (method : S -> completion A * S) : completion A * option S :=
  match receiver with
  | None => (Throw TypeError, None)
  | Some this => let '(r, this) := method this in (r, Some this)
  end.

(** ** class _RemoteExecutionCommandConnection *)

Module _RemoteExecutionCommandConnection.

(** The listening server made by [net.createServer()] and [listen]. *)
Record server : Type := {
  listen_port : Z;
  listen_host : string;
  listen_backlog : Z;
}.

(** An accepted socket, seen through what was written to it. *)
Record socket : Type := {
  written : list string;
}.

Record t : Type := {
  _config : RemoteExecutionConfig.t;
  _node_id : string;
  _remote_node_id : string;
  _command_listen_socket : option server;
  _command_channel_socket : option socket;
  _nodes : option _RemoteExecutionBroadcastNodes.t;
  _result : option _RemoteExecutionMessage.t;
}.

Definition new (config : RemoteExecutionConfig.t) (node_id remote_node_id : string)
  : t := {|
  _config := config;
  _node_id := node_id;
  _remote_node_id := remote_node_id;
  _command_listen_socket := None;
  _command_channel_socket := None;
  _nodes := None;
  _result := None;
|}.

(** How a call that contains the waiting loop ends: it returns, it throws,
    or the loop is still turning when the fuel is spent. *)
Inductive run (A : Type) : Type :=
| Returns (a : A)
| Throws (e : exn)
| Spins.
Arguments Returns {A} a.
Arguments Throws {A} e.
Arguments Spins {A}.

Definition set_nodes (this : t) (nodes : option _RemoteExecutionBroadcastNodes.t)
  : t := {|
  _config := _config this;
  _node_id := _node_id this;
  _remote_node_id := _remote_node_id this;
  _command_listen_socket := _command_listen_socket this;
  _command_channel_socket := _command_channel_socket this;
  _nodes := nodes;
  _result := _result this;
|}.

Definition set_command_listen_socket (this : t) (listener : option server) : t := {|
  _config := _config this;
  _node_id := _node_id this;
  _remote_node_id := _remote_node_id this;
  _command_listen_socket := listener;
  _command_channel_socket := _command_channel_socket this;
  _nodes := _nodes this;
  _result := _result this;
|}.

Definition set_command_channel_socket (this : t) (channel : option socket) : t := {|
  _config := _config this;
  _node_id := _node_id this;
  _remote_node_id := _remote_node_id this;
  _command_listen_socket := _command_listen_socket this;
  _command_channel_socket := channel;
  _nodes := _nodes this;
  _result := _result this;
|}.

Definition set_result (this : t) (result : option _RemoteExecutionMessage.t) : t := {|
  _config := _config this;
  _node_id := _node_id this;
  _remote_node_id := _remote_node_id this;
  _command_listen_socket := _command_listen_socket this;
  _command_channel_socket := _command_channel_socket this;
  _nodes := _nodes this;
  _result := result;
|}.

Section Methods.
Context `{Runtime}.

Definition _init_command_listen_socket (this : t) : t :=
  let host := fst (RemoteExecutionConfig.command_endpoint (_config this)) in
  let port := snd (RemoteExecutionConfig.command_endpoint (_config this)) in
  set_command_listen_socket this
    (Some {| listen_port := port; listen_host := host; listen_backlog := 1 |}).

(** The [for] loop of [_try_accept], [remaining] turns before [i] reaches
    6; past the loop stands the [throw]. *)
Fixpoint _try_accept_loop (remaining : nat) (this : t)
  (broadcast_connection : option _RemoteExecutionBroadcastConnection.t)
  : completion unit * option _RemoteExecutionBroadcastConnection.t :=
  match remaining with
  | O => (Throw failed_to_attempt_connection, broadcast_connection)
  | S remaining =>
      match call_on broadcast_connection
              (fun bc => _RemoteExecutionBroadcastConnection.broadcast_open_connection
                           bc (_remote_node_id this)) with
      | (Throw e, broadcast_connection) => (Throw e, broadcast_connection)
      | (Normal _, broadcast_connection) =>
          if bool_decide (is_Some (_command_listen_socket this))
          then (Normal tt, broadcast_connection)
          else _try_accept_loop remaining this broadcast_connection
      end
  end.

Definition _try_accept (this : t)
  (broadcast_connection : option _RemoteExecutionBroadcastConnection.t)
  : completion unit * option _RemoteExecutionBroadcastConnection.t :=
  _try_accept_loop 6 this broadcast_connection.

Definition open (this : t)
  (broadcast_connection : option _RemoteExecutionBroadcastConnection.t)
  : completion unit * t * option _RemoteExecutionBroadcastConnection.t :=
  let this := set_nodes this (Some _RemoteExecutionBroadcastNodes.new) in
  let this := _init_command_listen_socket this in
  let '(r, broadcast_connection) := _try_accept this broadcast_connection in
  (r, this, broadcast_connection).

Definition close (this : t)
  (broadcast_connection : option _RemoteExecutionBroadcastConnection.t)
  : completion unit * t * option _RemoteExecutionBroadcastConnection.t :=
  match call_on broadcast_connection
          (fun bc => _RemoteExecutionBroadcastConnection.broadcast_close_connection
                       bc (_remote_node_id this)) with
  | (Throw e, broadcast_connection) => (Throw e, this, broadcast_connection)
  | (Normal _, broadcast_connection) =>
      let this := set_command_channel_socket this None in
      let this := set_command_listen_socket this None in
      (Normal tt, this, broadcast_connection)
  end.

Definition _send_message (this : t) (message : _RemoteExecutionMessage.t)
  : completion unit * t :=
  match _command_channel_socket this with
  | None => (Throw TypeError, this)
  | Some channel =>
      (Normal tt,
       set_command_channel_socket this
         (Some {| written :=
                    written channel ++ [_RemoteExecutionMessage.to_json message] |}))
  end.

(** [data] is [None] for a [null] or [undefined] argument; a [Buffer],
    even an empty one, is truthy.  The three tests are joined by [&&]: one
    that throws ends the call. *)
Definition _receive_message (this : t) (data : option string)
  (expected_type : string) : completion _RemoteExecutionMessage.t :=
  match data with
  | Some data =>
      let message := _RemoteExecutionMessage.new JNull JNull JUndefined JUndefined in
      let '(parsed, message, _) :=
        _RemoteExecutionMessage.from_json_bytes message data in
      if parsed
      then
        let* passes :=
          _RemoteExecutionMessage.passes_receive_filter message (_node_id this) in
        if passes
        then
          let* expected :=
            loose_eq_str (_RemoteExecutionMessage.type_ message) expected_type in
          if expected then Normal message else Throw failed_to_send_valid_response
        else Throw failed_to_send_valid_response
      else Throw failed_to_send_valid_response
  | None => Throw failed_to_send_valid_response
  end.

(** The listener's ["connection"] callback. *)
Definition on_connection (this : t) (accepted : socket) : t :=
  set_command_channel_socket this (Some accepted).

(** The accepted socket's ["data"] callback: the message
    [_receive_message] returns is dropped, an exception leaves the callback. *)
Definition on_data (this : t) (data : string) : completion unit * t :=
  match _receive_message this (Some data) _TYPE_COMMAND_RESULT with
  | Normal _ => (Normal tt, this)
  | Throw e => (Throw e, this)
  end.

(** The [while (true)] loop of [run_command].  No callback runs while the
    loop turns, so a turn that finds no result leaves the object as it was. *)
Fixpoint wait_for_result (fuel : nat) (this : t)
  : run _RemoteExecutionMessage.t * t :=
  match fuel with
  | O => (Spins, this)
  | S fuel =>
      match _result this with
      | Some result => (Returns result, set_result this None)
      | None => wait_for_result fuel this
      end
  end.

Definition run_command (fuel : nat) (this : t)
  (command : string) (unattended : bool) (exec_mode : string)
  : run jsval * t :=
  match _send_message this
          (_RemoteExecutionMessage.new
             (JStr _TYPE_COMMAND)
             (JStr (_node_id this))
             (JStr (_remote_node_id this))
             (JObj [("command", JStr command);
                    ("unattended", JBool unattended);
                    ("exec_mode", JStr exec_mode)])) with
  | (Throw e, this) => (Throws e, this)
  | (Normal _, this) =>
      match wait_for_result fuel this with
      | (Returns result, this) => (Returns (_RemoteExecutionMessage.data result), this)
      | (Throws e, this) => (Throws e, this)
      | (Spins, this) => (Spins, this)
      end
  end.

End Methods.

End _RemoteExecutionCommandConnection.

(** ** class RemoteExecution *)

Module RemoteExecution.

Record t : Type := {
  _config : RemoteExecutionConfig.t;
  _broadcast_connection : option _RemoteExecutionBroadcastConnection.t;
  _command_connection : option _RemoteExecutionCommandConnection.t;
  _node_id : string;
}.

(** [uuid] is the identifier [uuid()] drew for this session. *)
Definition new (config : RemoteExecutionConfig.t) (uuid : string) : t := {|
  _config := config;
  _command_connection := None;
  _node_id := uuid;
  _broadcast_connection := None;
|}.

Definition set_connections (this : t)
  (broadcast_connection : option _RemoteExecutionBroadcastConnection.t)
  (command_connection : option _RemoteExecutionCommandConnection.t) : t := {|
  _config := _config this;
  _command_connection := command_connection;
  _node_id := _node_id this;
  _broadcast_connection := broadcast_connection;
|}.

Definition has_command_connection (this : t) : bool :=
  bool_decide (is_Some (_command_connection this)).

Definition start (this : t) : t :=
  set_connections this
    (Some (_RemoteExecutionBroadcastConnection.open
             (_RemoteExecutionBroadcastConnection.new (_config this) (_node_id this))))
    (_command_connection this).

(** The getter [remote_nodes]. *)
Definition remote_nodes (this : t) (w : world) : list loc * world :=
  match _broadcast_connection this with
  | Some broadcast_connection =>
      _RemoteExecutionBroadcastConnection.remote_nodes broadcast_connection w
  | None => ([], w)
  end.

Section Methods.
Context `{Runtime}.

Definition open_command_connection (this : t) (remote_node_id : string)
  : completion unit * t :=
  let connection :=
    _RemoteExecutionCommandConnection.new (_config this) (_node_id this) remote_node_id in
  let '(r, connection, broadcast_connection) :=
    _RemoteExecutionCommandConnection.open connection (_broadcast_connection this) in
  (r, set_connections this broadcast_connection (Some connection)).

Definition close_command_connection (this : t) : completion unit * t :=
  match _command_connection this with
  | Some connection =>
      match _RemoteExecutionCommandConnection.close
              connection (_broadcast_connection this) with
      | (Throw e, connection, broadcast_connection) =>
          (Throw e, set_connections this broadcast_connection (Some connection))
      | (Normal _, _, broadcast_connection) =>
          (Normal tt, set_connections this broadcast_connection None)
      end
  | None => (Normal tt, this)
  end.

Definition stop (this : t) : completion unit * t :=
  match close_command_connection this with
  | (Throw e, this) => (Throw e, this)
  | (Normal _, this) =>
      (Normal tt,
       set_connections this
         (match _broadcast_connection this with
          | Some _ => None
          | None => _broadcast_connection this
          end)
         (_command_connection this))
  end.

(** What [run_command] does with the [data] the command connection
    returned: the test of [raise_on_failure], the [throw], the [return]. *)
Definition run_command_check (raise_on_failure : bool) (data : jsval)
  : completion jsval :=
  if raise_on_failure
  then
    let* success := get data "success" in
    if negb (truthy success)
    then let* result := get data "result" in
         Throw (remote_command_failed result)
    else Normal data
  else Normal data.

Definition run_command (fuel : nat) (this : t)
  (command : string) (unattended : bool) (exec_mode : string)
  (raise_on_failure : bool)
  : _RemoteExecutionCommandConnection.run jsval * t :=
  match _command_connection this with
  | None => (_RemoteExecutionCommandConnection.Throws TypeError, this)
  | Some connection =>
      match _RemoteExecutionCommandConnection.run_command
              fuel connection command unattended exec_mode with
      | (_RemoteExecutionCommandConnection.Returns data, connection) =>
          let this := set_connections this (_broadcast_connection this) (Some connection) in
          match run_command_check raise_on_failure data with
          | Throw e => (_RemoteExecutionCommandConnection.Throws e, this)
          | Normal data => (_RemoteExecutionCommandConnection.Returns data, this)
          end
      | (_RemoteExecutionCommandConnection.Throws e, connection) =>
          (_RemoteExecutionCommandConnection.Throws e,
           set_connections this (_broadcast_connection this) (Some connection))
      | (_RemoteExecutionCommandConnection.Spins, connection) =>
          (_RemoteExecutionCommandConnection.Spins,
           set_connections this (_broadcast_connection this) (Some connection))
      end
  end.

End Methods.

End RemoteExecution.

(** ** extension.ts

    The extension keeps one session for its two commands.  What belongs
    to the editor ([vscode.window], the active text editor, promises and
    timers) is seen through what the code asks of it: a command runs up to
    the promise it returns, a timer or promise callback is a function of
    its own. *)

Module Extension.

(** The active text editor, as [getText] consults it: whether the
    selection is empty, the answer of [editor.document.getText(selection)]
    and the answer of [editor.document.getText()]. *)
Record editor : Type := {
  selection_isEmpty : bool;
  selection_text : string;
  document_text : string;
}.

(** An item of the list handed to [showQuickPick]. *)
Record quick_pick_item : Type := {
  label : jsval;
  description : jsval;
  detail : jsval;
  id : jsval;
}.

(** What [activate] sets up and its callbacks share: the session, the
    messages [showInformationMessage] has shown, and the number of searches
    for nodes ([get_nodes]) started, each with its interval and its
    time-out. *)
Record t : Type := {
  remote_exec : RemoteExecution.t;
  information_messages : list string;
  node_searches : nat;
}.

(** [uuid] is the identifier the session draws for itself. *)
Definition activate (uuid : string) : t := {|
  remote_exec :=
    RemoteExecution.start (RemoteExecution.new RemoteExecutionConfig.new uuid);
  information_messages := [];
  node_searches := 0;
|}.

Definition showInformationMessage (this : t) (message : string) : t := {|
  remote_exec := remote_exec this;
  information_messages := information_messages this ++ [message];
  node_searches := node_searches this;
|}.

Definition set_remote_exec (this : t) (session : RemoteExecution.t) : t := {|
  remote_exec := session;
  information_messages := information_messages this;
  node_searches := node_searches this;
|}.

(** [get_nodes] up to the promise it returns: the interval and the
    time-out are set. *)
Definition get_nodes (this : t) : t := {|
  remote_exec := remote_exec this;
  information_messages := information_messages this;
  node_searches := S (node_searches this);
|}.

(** The interval callback of [get_nodes]: the list the promise is resolved
    with, if there is a node; the getter is read for the test and read
    again for the answer. *)
Definition node_checker (session : RemoteExecution.t) (w : world)
  : option (list loc) * world :=
  let '(nodes, w) := RemoteExecution.remote_nodes session w in
  if Nat.ltb 0 (length nodes)
  then let '(nodes, w) := RemoteExecution.remote_nodes session w in (Some nodes, w)
  else (None, w).

(** The list built for [showQuickPick] once the promise is resolved. *)
Definition nodes_list (session : RemoteExecution.t) (w : world)
  : list quick_pick_item * world :=
  let '(nodes, w) := RemoteExecution.remote_nodes session w in
  (map (fun x =>
          {| label := own_property (read_object x w) "machine";
             description := own_property (read_object x w) "engine_version";
             detail := own_property (read_object x w) "project_root";
             id := own_property (read_object x w) "node_id" |})
       nodes,
   w).

(** Without an active editor, reading [editor.selection] throws. *)
Definition getText (activeTextEditor : option editor) : completion string :=
  match activeTextEditor with
  | None => Throw TypeError
  | Some editor =>
      if negb (Bool.eqb (selection_isEmpty editor) true)
      then Normal (selection_text editor)
      else Normal (document_text editor)
  end.

Section Commands.
Context `{Runtime}.

(** [connecting_to_ue] up to the promise it returns.  An exception of
    [close_command_connection] ends the body and rejects that promise. *)
Definition connecting_to_ue (this : t) : completion unit * t :=
  if RemoteExecution.has_command_connection (remote_exec this)
  then
    match RemoteExecution.close_command_connection (remote_exec this) with
    | (Throw e, session) => (Throw e, set_remote_exec this session)
    | (Normal _, session) => (Normal tt, get_nodes (set_remote_exec this session))
    end
  else (Normal tt, get_nodes this).

(** The command [vscode-to-unreal.send2ue].  [connecting_to_ue] is not
    awaited: what it throws stays in its promise. *)
Definition send2ue (fuel : nat) (this : t) (activeTextEditor : option editor)
  : _RemoteExecutionCommandConnection.run unit * t :=
  let this := showInformationMessage this "Sending code to Unreal Engine" in
  let this :=
    if negb (RemoteExecution.has_command_connection (remote_exec this))
    then (connecting_to_ue this).2
    else this in
  if RemoteExecution.has_command_connection (remote_exec this)
  then
    match getText activeTextEditor with
    | Throw e => (_RemoteExecutionCommandConnection.Throws e, this)
    | Normal text =>
        match RemoteExecution.run_command fuel (remote_exec this)
                text true "ExecuteFile" false with
        | (_RemoteExecutionCommandConnection.Returns _, session) =>
            (_RemoteExecutionCommandConnection.Returns tt, set_remote_exec this session)
        | (_RemoteExecutionCommandConnection.Throws e, session) =>
            (_RemoteExecutionCommandConnection.Throws e, set_remote_exec this session)
        | (_RemoteExecutionCommandConnection.Spins, session) =>
            (_RemoteExecutionCommandConnection.Spins, set_remote_exec this session)
        end
    end
  else
    (_RemoteExecutionCommandConnection.Returns tt,
     showInformationMessage this "You need to connect to a UE node first").

(** The command [vscode-to-unreal.connect2ue]. *)
Definition connect2ue (this : t) : t := (connecting_to_ue this).2.

End Commands.

End Extension.


(** ** A reference platform

    A JSON printer and parser for the integer fragment of JSON, used to
    run the codec on literal wire texts.  The printer follows
    [JSON.stringify] (no white space, [undefined] properties dropped,
    [undefined] array elements printed as [null]); the parser follows
    [JSON.parse], except that a number with a fraction or an exponent and a
    [\u] escape above 007f are refused, being outside the model, and keys
    that look like array indices are not moved to the front. *)

Module Reference.

Definition hex_digit (n : N) : ascii :=
  ascii_of_N (if N.ltb n 10 then 48 + n else 87 + n)%N.

(** QuoteJSONString, character by character. *)
Definition escape_char (c : ascii) : string :=
  match N_of_ascii c with
  | 34%N => String (ascii_of_N 92) (String (ascii_of_N 34) "")
  | 92%N => String (ascii_of_N 92) (String (ascii_of_N 92) "")
  | 8%N => String (ascii_of_N 92) "b"
  | 9%N => String (ascii_of_N 92) "t"
  | 10%N => String (ascii_of_N 92) "n"
  | 12%N => String (ascii_of_N 92) "f"
  | 13%N => String (ascii_of_N 92) "r"
  | n =>
      if N.ltb n 32
      then String (ascii_of_N 92)
             (String "u" (String "0" (String "0"
                (String (hex_digit (N.div n 16))
                   (String (hex_digit (N.modulo n 16)) "")))))
      else String c ""
  end.

Fixpoint escape (s : string) : string :=
  match s with
  | EmptyString => ""
  | String c rest => escape_char c ++ escape rest
  end.

Definition quote (s : string) : string := dquote ++ escape s ++ dquote.

Fixpoint join_commas (parts : list string) : string :=
  match parts with
  | [] => ""
  | [p] => p
  | p :: rest => p ++ "," ++ join_commas rest
  end.

Fixpoint stringify (v : jsval) : string :=
  match v with
  | JUndefined | JNull => "null"
  | JBool true => "true"
  | JBool false => "false"
  | JNum n => Z_to_string n
  | JStr s => quote s
  | JArr elems =>
      "[" ++ join_commas
               ((fix each (l : list jsval) : list string :=
                   match l with
                   | [] => []
                   | x :: rest => stringify x :: each rest
                   end) elems) ++ "]"
  | JObj props =>
      "{" ++ join_commas
               ((fix each (l : list (string * jsval)) : list string :=
                   match l with
                   | [] => []
                   | (_, JUndefined) :: rest => each rest
                   | (k, x) :: rest => (quote k ++ ":" ++ stringify x) :: each rest
                   end) props) ++ "}"
  end.

Definition is_space (c : ascii) : bool :=
  match N_of_ascii c with
  | 32%N | 9%N | 10%N | 13%N => true
  | _ => false
  end.

Fixpoint skip_spaces (s : string) : string :=
  match s with
  | String c rest => if is_space c then skip_spaces rest else s
  | EmptyString => s
  end.

(** A decimal digit, as the constructor of [Decimal.uint] it stands for. *)
Definition digit (c : ascii) : option (Decimal.uint -> Decimal.uint) :=
  match N_of_ascii c with
  | 48%N => Some Decimal.D0
  | 49%N => Some Decimal.D1
  | 50%N => Some Decimal.D2
  | 51%N => Some Decimal.D3
  | 52%N => Some Decimal.D4
  | 53%N => Some Decimal.D5
  | 54%N => Some Decimal.D6
  | 55%N => Some Decimal.D7
  | 56%N => Some Decimal.D8
  | 57%N => Some Decimal.D9
  | _ => None
  end.

Definition hex_value (c : ascii) : option N :=
  let n := N_of_ascii c in
  if (N.leb 48 n && N.leb n 57)%bool then Some (n - 48)%N
  else if (N.leb 97 n && N.leb n 102)%bool then Some (n - 87)%N
  else if (N.leb 65 n && N.leb n 70)%bool then Some (n - 55)%N
  else None.

(** The longest run of digits at the head of the text. *)
Fixpoint parse_digits (s : string) : Decimal.uint * string :=
  match s with
  | String c rest =>
      match digit c with
      | Some d => let '(ds, rest) := parse_digits rest in (d ds, rest)
      | None => (Decimal.Nil, s)
      end
  | EmptyString => (Decimal.Nil, s)
  end.

(** What follows the integer part must not turn it into a fraction or an
    exponent. *)
Definition ends_integer (s : string) : bool :=
  match s with
  | String c _ =>
      match N_of_ascii c with
      | 46%N | 69%N | 101%N => false
      | _ => true
      end
  | EmptyString => true
  end.

(** An integer part: [0], or digits that do not start with [0]. *)
Definition parse_natural (s : string) : option (Z * string) :=
  let '(ds, rest) := parse_digits s in
  match ds with
  | Decimal.Nil => None
  | Decimal.D0 Decimal.Nil => if ends_integer rest then Some (0, rest) else None
  | Decimal.D0 _ => None
  | _ => if ends_integer rest then Some (Z.of_uint ds, rest) else None
  end.

Definition parse_number (s : string) : option (jsval * string) :=
  match s with
  | String c rest =>
      if N.eqb (N_of_ascii c) 45
      then match parse_natural rest with
           | Some (n, rest) => Some (JNum (- n), rest)
           | None => None
           end
      else match parse_natural s with
           | Some (n, rest) => Some (JNum n, rest)
           | None => None
           end
  | EmptyString => None
  end.

(** The characters of a string literal, after the opening quote. *)
Fixpoint parse_chars (s : string) : option (string * string) :=
  match s with
  | EmptyString => None
  | String c rest =>
      match N_of_ascii c with
      | 34%N => Some ("", rest)
      | 92%N =>
          match rest with
          | String e rest =>
              let plain (c : N) :=
                match parse_chars rest with
                | Some (text, rest) => Some (String (ascii_of_N c) text, rest)
                | None => None
                end in
              match N_of_ascii e with
              | 34%N => plain 34%N
              | 92%N => plain 92%N
              | 47%N => plain 47%N
              | 98%N => plain 8%N
              | 102%N => plain 12%N
              | 110%N => plain 10%N
              | 114%N => plain 13%N
              | 116%N => plain 9%N
              | 117%N =>
                  match rest with
                  | String h1 (String h2 (String h3 (String h4 rest))) =>
                      match hex_value h1, hex_value h2, hex_value h3, hex_value h4 with
                      | Some 0%N, Some 0%N, Some a, Some b =>
                          if N.ltb (16 * a + b) 128
                          then match parse_chars rest with
                               | Some (text, rest) =>
                                   Some (String (ascii_of_N (16 * a + b)) text, rest)
                               | None => None
                               end
                          else None
                      | _, _, _, _ => None
                      end
                  | _ => None
                  end
              | _ => None
              end
          | EmptyString => None
          end
      | n =>
          if N.ltb n 32 then None
          else match parse_chars rest with
               | Some (text, rest) => Some (String c text, rest)
               | None => None
               end
      end
  end.

Fixpoint strip_prefix (word s : string) : option string :=
  match word with
  | EmptyString => Some s
  | String c word =>
      match s with
      | String c' s => if Ascii.eqb c c' then strip_prefix word s else None
      | EmptyString => None
      end
  end.

Definition expect (word : string) (v : jsval) (s : string) : option (jsval * string) :=
  match strip_prefix word s with
  | Some rest => Some (v, rest)
  | None => None
  end.

(** Recursive descent; every call spends one unit of fuel.  [parse_elements]
    and [parse_members] start after a value is due. *)
Fixpoint parse_value (fuel : nat) (s : string) : option (jsval * string) :=
  match fuel with
  | O => None
  | S fuel =>
      match skip_spaces s with
      | EmptyString => None
      | String c rest as s =>
          match N_of_ascii c with
          | 110%N => expect "null" JNull s
          | 116%N => expect "true" (JBool true) s
          | 102%N => expect "false" (JBool false) s
          | 34%N =>
              match parse_chars rest with
              | Some (text, rest) => Some (JStr text, rest)
              | None => None
              end
          | 91%N =>
              match skip_spaces rest with
              | String c' rest' as inner =>
                  if N.eqb (N_of_ascii c') 93 then Some (JArr [], rest')
                  else match parse_elements fuel inner with
                       | Some (elems, rest) => Some (JArr elems, rest)
                       | None => None
                       end
              | EmptyString => None
              end
          | 123%N =>
              match skip_spaces rest with
              | String c' rest' as inner =>
                  if N.eqb (N_of_ascii c') 125 then Some (JObj [], rest')
                  else match parse_members fuel [] inner with
                       | Some (props, rest) => Some (JObj props, rest)
                       | None => None
                       end
              | EmptyString => None
              end
          | _ => parse_number s
          end
      end
  end
with parse_elements (fuel : nat) (s : string) : option (list jsval * string) :=
  match fuel with
  | O => None
  | S fuel =>
      match parse_value fuel s with
      | Some (v, rest) =>
          match skip_spaces rest with
          | String c rest =>
              match N_of_ascii c with
              | 93%N => Some ([v], rest)
              | 44%N =>
                  match parse_elements fuel rest with
                  | Some (vs, rest) => Some (v :: vs, rest)
                  | None => None
                  end
              | _ => None
              end
          | EmptyString => None
          end
      | None => None
      end
  end
with parse_members (fuel : nat) (props : list (string * jsval)) (s : string)
  : option (list (string * jsval) * string) :=
  match fuel with
  | O => None
  | S fuel =>
      match skip_spaces s with
      | String q rest =>
          if N.eqb (N_of_ascii q) 34
          then
            match parse_chars rest with
            | Some (key, rest) =>
                match skip_spaces rest with
                | String colon rest =>
                    if N.eqb (N_of_ascii colon) 58
                    then
                      match parse_value fuel rest with
                      | Some (v, rest) =>
                          let props := set_property props key v in
                          match skip_spaces rest with
                          | String c rest =>
                              match N_of_ascii c with
                              | 125%N => Some (props, rest)
                              | 44%N => parse_members fuel props rest
                              | _ => None
                              end
                          | EmptyString => None
                          end
                      | None => None
                      end
                    else None
                | EmptyString => None
                end
            | None => None
            end
          else None
      | EmptyString => None
      end
  end.

Definition parse (s : string) : option jsval :=
  match parse_value (S (String.length s)) s with
  | Some (v, rest) =>
      match skip_spaces rest with
      | EmptyString => Some v
      | String _ _ => None
      end
  | None => None
  end.

(** StringToNumber, on the decimal integer literals: white space around,
    an optional sign, digits.  The empty and the all-blank string are 0. *)
Definition string_to_number (s : string) : option Z :=
  match skip_spaces s with
  | EmptyString => Some 0
  | String c rest as s =>
      let signed (negative : bool) (s : string) :=
        let '(ds, rest) := parse_digits s in
        match ds, skip_spaces rest with
        | Decimal.Nil, _ => None
        | _, EmptyString => Some (if negative then - Z.of_uint ds else Z.of_uint ds)
        | _, String _ _ => None
        end in
      match N_of_ascii c with
      | 45%N => signed true rest
      | 43%N => signed false rest
      | _ => signed false s
      end
  end.

#[export] Instance runtime : Runtime := {|
  JSON_parse := parse;
  JSON_stringify := stringify;
  StringToNumber := string_to_number;
|}.

(** Wire texts are written with ['] for the double quote. *)
Fixpoint wire (s : string) : string :=
  match s with
  | EmptyString => ""
  | String c rest =>
      String (if N.eqb (N_of_ascii c) 39 then ascii_of_N 34 else c) (wire rest)
  end.

End Reference.

(** The measures and shapes the proof that the reference parser reads back
    the reference printer's text goes by. *)

Module Printed.
Import Reference.

(** Fuel that suffices to parse the text of a value. *)
Fixpoint weight (v : jsval) : nat :=
  match v with
  | JArr elems =>
      S ((fix sum (l : list jsval) : nat :=
            match l with
            | [] => 0
            | x :: rest => S (weight x + sum rest)
            end) elems)
  | JObj props =>
      S ((fix sum (l : list (string * jsval)) : nat :=
            match l with
            | [] => 0
            | (_, x) :: rest => S (weight x + sum rest)
            end) props)
  | _ => 1
  end%nat.

Definition weights (l : list jsval) : nat :=
  foldr (fun x n => S (weight x + n)) 0%nat l.

Definition member (kv : string * jsval) : string :=
  quote kv.1 ++ ":" ++ stringify kv.2.

(** What may follow a printed value: nothing, or a character that ends a
    number. *)
Definition delimited (rest : string) : Prop :=
  match rest with
  | EmptyString => True
  | String c _ => digit c = None /\ ends_integer rest = true
  end.

(** The first character of a printed value is no white space and closes
    neither an array nor an object. *)
Definition value_head (s : string) : Prop :=
  exists (c : ascii) (s' : string),
    s = String c s'
    /\ is_space c = false
    /\ N.eqb (N_of_ascii c) 93 = false
    /\ N.eqb (N_of_ascii c) 125 = false.

(** What the induction gives for a value: it reads back from its text on
    enough fuel, whatever follows. *)
Definition reads_back (v : jsval) : Prop :=
  json_value v ->
  forall (fuel : nat) (rest : string),
    (weight v <= fuel)%nat -> delimited rest ->
    parse_value fuel (stringify v ++ rest) = Some (v, rest).

End Printed.


(** ** Vocabulary of the statements *)

(** No destination, no payload: what the guards [if (this.dest)] and
    [if (this.data)] and the filter's [!this.dest] take for absent, namely
    [null], [undefined] and, for a string, the empty one. *)
Definition absent (v : jsval) : Prop := truthy v = false.

(** The declared type of [source] and [dest]: a string, or nothing. *)
Definition node_id_or_none (v : jsval) : Prop :=
  match v with
  | JUndefined | JNull | JStr _ => True
  | _ => False
  end.


(** ** The scenarios of the specification, as data *)

Module Scenario.

(** The receiver [new _RemoteExecutionMessage(null, null)] that the two
    receiving paths decode into. *)
Definition blank : _RemoteExecutionMessage.t :=
  _RemoteExecutionMessage.new JNull JNull JUndefined JUndefined.

Definition ping_from_abc : _RemoteExecutionMessage.t :=
  _RemoteExecutionMessage.new (JStr _TYPE_PING) (JStr "abc") JUndefined JUndefined.

Definition result_payload (success : bool) (result : string) : jsval :=
  JObj [("success", JBool success); ("result", JStr result)].

(** The result message of scenarios D and E, from node [n1] to [local]. *)
Definition command_result (success : bool) (result : string)
  : _RemoteExecutionMessage.t :=
  _RemoteExecutionMessage.new
    (JStr _TYPE_COMMAND_RESULT) (JStr "n1") (JStr "local")
    (result_payload success result).

Definition not_json : string := "not json".

Definition version_two : string :=
  Reference.wire "{'version':2,'magic':'ue_py','type':'pong','source':'n1'}".

Definition wrong_magic : string :=
  Reference.wire "{'version':1,'magic':'ue_js','type':'pong','source':'n1'}".

(** An envelope that carries its payload under the key [payload]. *)
Definition payload_keyed : string :=
  Reference.wire
    "{'version':1,'magic':'ue_py','type':'command_result','source':'n1','dest':'local','payload':{'success':true,'result':'1'}}".

(** The same envelope with the payload under the key [data]. *)
Definition data_keyed : string :=
  Reference.wire
    "{'version':1,'magic':'ue_py','type':'command_result','source':'n1','dest':'local','data':{'success':true,'result':'1'}}".

End Scenario.


(** A node that has not been heard of for longer than the timeout. *)
Definition timed_out (now : Z) (node : _RemoteExecutionNode.t) : Prop :=
  _RemoteExecutionNode._last_pong node + _NODE_TIMEOUT_SECONDS < now.

#[global] Instance timed_out_dec now node : Decision (timed_out now node).
Proof. unfold timed_out. apply _. Defined.

(** The loop of [timeout_remote_nodes] at a pinned time: the world is left
    alone, the map loses keys. *)
Definition drop_timed_out (now : Z) (nodes : gmap string _RemoteExecutionNode.t)
  (entry : string * _RemoteExecutionNode.t) : gmap string _RemoteExecutionNode.t :=
  if bool_decide (timed_out now entry.2) then delete entry.1 nodes else nodes.

Module World.

(** A world whose clock shows milliseconds since 1970, as [getTime] does,
    the same at each reading, with an empty heap. *)
Definition initial : world := {|
  wall_clock := fun _ => 1700000000000;
  clock_reads := 0%nat;
  heap := ∅;
  next_loc := 0%nat;
|}.

End World.


Module Registry.

(** Node [n1] with the attributes of scenario B, its data object at the
    first free location of the heap. *)
Definition machine_WS1 : list (string * jsval) := [("machine", JStr "WS1")].

Definition with_n1 (now : option Z)
  : _RemoteExecutionBroadcastNodes.t * loc * world :=
  let '(l, w) := alloc machine_WS1 World.initial in
  let '(_, registry, w) :=
    _RemoteExecutionBroadcastNodes.update_remote_node
      _RemoteExecutionBroadcastNodes.new "n1" (VRef l) now w in
  (registry, l, w).


End Registry.


(** ** The life of a command connection

    What can happen to a command connection between two calls of
    [run_command]: it is opened, its listener accepts a socket, the accepted
    socket delivers data, it is closed.  Callbacks run only between method
    calls, never inside one. *)

Module Channel.

Inductive event : Type :=
| Opened (broadcast_connection : option _RemoteExecutionBroadcastConnection.t)
| Accepted (accepted : _RemoteExecutionCommandConnection.socket)
| Received (data : string)
| Closed (broadcast_connection : option _RemoteExecutionBroadcastConnection.t).

Section Steps.
Context `{Runtime}.

Definition step (this : _RemoteExecutionCommandConnection.t) (e : event)
  : _RemoteExecutionCommandConnection.t :=
  match e with
  | Opened broadcast_connection =>
      (_RemoteExecutionCommandConnection.open this broadcast_connection).1.2
  | Accepted accepted => _RemoteExecutionCommandConnection.on_connection this accepted
  | Received data => (_RemoteExecutionCommandConnection.on_data this data).2
  | Closed broadcast_connection =>
      (_RemoteExecutionCommandConnection.close this broadcast_connection).1.2
  end.

(** The connection made by the constructor, after the given events. *)
Definition after (config : RemoteExecutionConfig.t) (node_id remote_node_id : string)
  (events : list event) : _RemoteExecutionCommandConnection.t :=
  foldl step (_RemoteExecutionCommandConnection.new config node_id remote_node_id)
        events.

End Steps.

(** The discovery connection of a started session with local id [local]. *)
Definition discovery : _RemoteExecutionBroadcastConnection.t :=
  _RemoteExecutionBroadcastConnection.open
    (_RemoteExecutionBroadcastConnection.new RemoteExecutionConfig.new "local").

Definition mock_socket : _RemoteExecutionCommandConnection.socket :=
  {| _RemoteExecutionCommandConnection.written := [] |}.

(** The result frame of scenarios D and E as the specification writes
    it, and as the codec of this program would write it. *)
Definition result_frame_of_the_spec (success : string) : string :=
  Reference.wire
    ("{'type':'command_result','source':'n1','dest':'local','payload':{'success':"
     ++ success ++ ",'result':'1'}}").

Definition result_frame (success : bool) : string :=
  @_RemoteExecutionMessage.to_json Reference.runtime
    (Scenario.command_result success "1").

(** Scenarios D and E up to the call: the connection to [n1] is opened,
    the mocked socket is accepted, the result frame arrives. *)
Definition scenario (frame : string) : list event :=
  [Opened (Some discovery); Accepted mock_socket; Received frame].

End Channel.


(** The node id a record returned by the getter carries, read in the
    given world. *)
Definition record_node_id (w : world) (record : loc) : jsval :=
  own_property (read_object record w) "node_id".

(** The records of a snapshot that are for the given node. *)
Definition is_record_for (node_id : string) (w : world) (record : loc) : bool :=
  match record_node_id w record with
  | JStr s => String.eqb s node_id
  | _ => false
  end.

Definition records_for (node_id : string) (w : world) (records : list loc)
  : list loc :=
  List.filter (is_record_for node_id w) records.

(** Every node has a data object of its own: data objects are allocated,
    and no two nodes hold the same one.  The registry of a discovery
    connection is so, each pong bringing the object [JSON.parse] made for
    it ([discovery_own_data]). *)
Definition own_data (nodes : gmap string _RemoteExecutionNode.t) (w : world)
  : Prop :=
  (forall k node l,
      nodes !! k = Some node -> _RemoteExecutionNode.data node = VRef l ->
      (l < next_loc w)%nat)
  /\ (forall k1 k2 node1 node2 l,
        nodes !! k1 = Some node1 -> nodes !! k2 = Some node2 ->
        _RemoteExecutionNode.data node1 = VRef l ->
        _RemoteExecutionNode.data node2 = VRef l ->
        k1 = k2).


(** A platform whose [JSON.parse] reads back what its [JSON.stringify]
    printed, for the values JSON can carry. *)
Definition JSON_reads_back `{Runtime} : Prop :=
  forall v : jsval, json_value v -> JSON_parse (JSON_stringify v) = Some v.

(** The message types of the protocol. *)
Definition message_types : list string :=
  [_TYPE_PING; _TYPE_PONG; _TYPE_OPEN_CONNECTION; _TYPE_CLOSE_CONNECTION;
   _TYPE_COMMAND; _TYPE_COMMAND_RESULT].

(** A well-formed message: one of the protocol's types, a source that is
    not empty, a destination that is a string or nothing, a payload that is
    an object JSON can carry or nothing. *)
Definition well_formed (m : _RemoteExecutionMessage.t) : Prop :=
  (exists type_, _RemoteExecutionMessage.type_ m = JStr type_ /\ In type_ message_types)
  /\ (exists source, _RemoteExecutionMessage.source m = JStr source /\ source <> "")
  /\ node_id_or_none (_RemoteExecutionMessage.dest m)
  /\ (_RemoteExecutionMessage.data m = JNull
      \/ _RemoteExecutionMessage.data m = JUndefined
      \/ exists props, _RemoteExecutionMessage.data m = JObj props
                       /\ json_value (JObj props)).


(** ** The life of a discovery connection

    What happens to an open discovery connection: a datagram arrives, the
    interval timer fires, the holder of the session reads the list of
    nodes. *)

Module Discovery.

Inductive event : Type :=
| Datagram (data : string)
| Tick
| Snapshot.

Section Steps.
Context `{Runtime}.

Definition step (state : _RemoteExecutionBroadcastConnection.t * world) (e : event)
  : _RemoteExecutionBroadcastConnection.t * world :=
  let '(this, w) := state in
  match e with
  | Datagram data =>
      let '(_, this, w) := _RemoteExecutionBroadcastConnection._handle_data this data w in
      (this, w)
  | Tick =>
      let '(_, this, w) := _RemoteExecutionBroadcastConnection.on_interval this w in
      (this, w)
  | Snapshot => (this, (_RemoteExecutionBroadcastConnection.remote_nodes this w).2)
  end.

(** The connection [open] made, after the given events. *)
Definition after (config : RemoteExecutionConfig.t) (node_id : string) (w : world)
  (events : list event) : _RemoteExecutionBroadcastConnection.t * world :=
  foldl step
    (_RemoteExecutionBroadcastConnection.open
       (_RemoteExecutionBroadcastConnection.new config node_id), w)
    events.

End Steps.

(** A pong of node [n1] with the attributes of scenario B. *)
Definition pong_of_n1 : string :=
  Reference.wire
    "{'version':1,'magic':'ue_py','type':'pong','source':'n1','data':{'machine':'WS1'}}".

End Discovery.


(** The registry of a discovery connection, if it has one, gives every
    node a data object of its own. *)
Definition holds_own_data (state : _RemoteExecutionBroadcastConnection.t * world)
  : Prop :=
  match _RemoteExecutionBroadcastConnection._nodes state.1 with
  | Some nodes =>
      own_data (_RemoteExecutionBroadcastNodes._remote_nodes nodes) state.2
  | None => True
  end.

(** A world in which six seconds pass between the first reading of the
    clock and the second. *)
Definition six_seconds_later : world := {|
  wall_clock := fun reads =>
    match reads with
    | O => 1700000000000
    | S _ => 1700000006000
    end;
  clock_reads := 0%nat;
  heap := ∅;
  next_loc := 0%nat;
|}.


(** ** Vocabulary of the further properties *)

(** The attributes a node's record starts from: the properties of the
    node's data object, or none for a node that has no object. *)
Definition attributes (w : world) (node : _RemoteExecutionNode.t)
  : list (string * jsval) :=
  match _RemoteExecutionNode.data node with
  | VRef l => read_object l w
  | VPrim _ => []
  end.

(** Properties that print.  The log line of the sweep converts the data of
    a node it is about to remove to a string: a plain object throws there
    if it has a property [toString] of its own, an array if one of its
    elements does not convert.  A heap cell does not tell which of the two
    it holds; this condition is enough for both. *)
Definition prints (props : list (string * jsval)) : Prop :=
  ("toString" ∉ props.*1)
  /\ Forall (fun kv => exists text, ToString kv.2 = Normal text) props.

(** A node whose data prints: the sweep can remove it. *)
Definition node_prints (w : world) (node : _RemoteExecutionNode.t) : Prop :=
  prints (attributes w node).

(** A datagram the registry is embedded for: what it is decoded to does
    not come from a node named [__proto__], and carries a payload that
    prints once it is the data of a node. *)
Definition ordinary_datagram `{Runtime} (data : string) : Prop :=
  let message :=
    (_RemoteExecutionMessage.from_json_bytes Scenario.blank data).1.2 in
  ToString (_RemoteExecutionMessage.source message) <> Normal "__proto__"
  /\ match _RemoteExecutionMessage.data message with
     | JObj props => prints props
     | JArr elems => prints (indexed 0 elems)
     | _ => True
     end.

(** The messages the program sends. *)
Definition ping_of (node_id : string) : _RemoteExecutionMessage.t :=
  _RemoteExecutionMessage.new (JStr _TYPE_PING) (JStr node_id) JUndefined JUndefined.

Definition open_connection_to (config : RemoteExecutionConfig.t)
  (node_id remote_node_id : string) : _RemoteExecutionMessage.t :=
  _RemoteExecutionMessage.new
    (JStr _TYPE_OPEN_CONNECTION) (JStr node_id) (JStr remote_node_id)
    (JObj [("command_ip", JStr (fst (RemoteExecutionConfig.command_endpoint config)));
           ("command_port", JNum (snd (RemoteExecutionConfig.command_endpoint config)))]).

Definition close_connection_to (node_id remote_node_id : string)
  : _RemoteExecutionMessage.t :=
  _RemoteExecutionMessage.new
    (JStr _TYPE_CLOSE_CONNECTION) (JStr node_id) (JStr remote_node_id) JUndefined.

Definition command_to (node_id remote_node_id command : string) (unattended : bool)
  (exec_mode : string) : _RemoteExecutionMessage.t :=
  _RemoteExecutionMessage.new
    (JStr _TYPE_COMMAND) (JStr node_id) (JStr remote_node_id)
    (JObj [("command", JStr command);
           ("unattended", JBool unattended);
           ("exec_mode", JStr exec_mode)]).

(** The datagram [_broadcast_message] hands to the socket for a message. *)
Definition datagram_of `{Runtime} (config : RemoteExecutionConfig.t)
  (message : _RemoteExecutionMessage.t)
  : _RemoteExecutionBroadcastConnection.datagram :=
  {| _RemoteExecutionBroadcastConnection.dgram_data :=
       _RemoteExecutionMessage.to_json message;
     _RemoteExecutionBroadcastConnection.dgram_port :=
       snd (RemoteExecutionConfig.multicast_group_endpoint config);
     _RemoteExecutionBroadcastConnection.dgram_address :=
       fst (RemoteExecutionConfig.multicast_group_endpoint config) |}.

(** A discovery connection after one more datagram has gone out on its
    socket. *)
Definition having_sent (this : _RemoteExecutionBroadcastConnection.t)
  (d : _RemoteExecutionBroadcastConnection.datagram)
  : _RemoteExecutionBroadcastConnection.t :=
  {| _RemoteExecutionBroadcastConnection._config :=
       _RemoteExecutionBroadcastConnection._config this;
     _RemoteExecutionBroadcastConnection._node_id :=
       _RemoteExecutionBroadcastConnection._node_id this;
     _RemoteExecutionBroadcastConnection._nodes :=
       _RemoteExecutionBroadcastConnection._nodes this;
     _RemoteExecutionBroadcastConnection._running :=
       _RemoteExecutionBroadcastConnection._running this;
     _RemoteExecutionBroadcastConnection._last_ping :=
       _RemoteExecutionBroadcastConnection._last_ping this;
     _RemoteExecutionBroadcastConnection._broadcast_socket :=
       (fun socket =>
          {| _RemoteExecutionBroadcastConnection.sent :=
               _RemoteExecutionBroadcastConnection.sent socket ++ [d] |})
       <$> _RemoteExecutionBroadcastConnection._broadcast_socket this |}.

(** The discovery connection a command connection was given, if any, after
    it has sent the message made for it. *)
Definition announcing `{Runtime}
  (broadcast_connection : option _RemoteExecutionBroadcastConnection.t)
  (message : _RemoteExecutionBroadcastConnection.t -> _RemoteExecutionMessage.t)
  : option _RemoteExecutionBroadcastConnection.t :=
  (fun connection =>
     having_sent connection
       (datagram_of (_RemoteExecutionBroadcastConnection._config connection)
          (message connection)))
  <$> broadcast_connection.

(** A ping is due: none has been sent, or the last one is older than the
    ping period. *)
Definition ping_due (last_ping now : Z) : Prop :=
  last_ping = 0 \/ last_ping + _NODE_PING_SECONDS < now.

#[global] Instance ping_due_dec last_ping now : Decision (ping_due last_ping now).
Proof. unfold ping_due. apply _. Defined.

(** The command connection [open] leaves behind: listening, nothing
    accepted. *)
Definition listening_for (config : RemoteExecutionConfig.t)
  (node_id remote_node_id : string) : _RemoteExecutionCommandConnection.t :=
  _RemoteExecutionCommandConnection._init_command_listen_socket
    (_RemoteExecutionCommandConnection.set_nodes
       (_RemoteExecutionCommandConnection.new config node_id remote_node_id)
       (Some _RemoteExecutionBroadcastNodes.new)).


(** ** The life of a session

    What can happen to a session: its holder starts and stops it, opens and
    closes a command connection and reads the list of nodes; the discovery
    socket delivers a datagram, the interval timer fires; the listener
    accepts a socket, the accepted socket delivers data.  A callback of a
    connection the session does not have does not happen.  A call of
    [run_command] is no event: it throws and leaves the session as it was,
    or it does not come back. *)

Module Session.

Inductive event : Type :=
| Start
| Stop
| Open (remote_node_id : string)
| Close
| Datagram (data : string)
| Tick
| Accepted (accepted : _RemoteExecutionCommandConnection.socket)
| Received (data : string)
| Snapshot.

Section Steps.
Context `{Runtime}.

Definition step (state : RemoteExecution.t * world) (e : event)
  : RemoteExecution.t * world :=
  let '(this, w) := state in
  match e with
  | Start => (RemoteExecution.start this, w)
  | Stop => ((RemoteExecution.stop this).2, w)
  | Open remote_node_id =>
      ((RemoteExecution.open_command_connection this remote_node_id).2, w)
  | Close => ((RemoteExecution.close_command_connection this).2, w)
  | Datagram data =>
      match RemoteExecution._broadcast_connection this with
      | Some broadcast_connection =>
          let '(_, broadcast_connection, w) :=
            _RemoteExecutionBroadcastConnection._handle_data broadcast_connection data w in
          (RemoteExecution.set_connections this (Some broadcast_connection)
             (RemoteExecution._command_connection this), w)
      | None => (this, w)
      end
  | Tick =>
      match RemoteExecution._broadcast_connection this with
      | Some broadcast_connection =>
          let '(_, broadcast_connection, w) :=
            _RemoteExecutionBroadcastConnection.on_interval broadcast_connection w in
          (RemoteExecution.set_connections this (Some broadcast_connection)
             (RemoteExecution._command_connection this), w)
      | None => (this, w)
      end
  | Accepted accepted =>
      (RemoteExecution.set_connections this (RemoteExecution._broadcast_connection this)
         ((fun connection =>
             _RemoteExecutionCommandConnection.on_connection connection accepted)
          <$> RemoteExecution._command_connection this), w)
  | Received data =>
      (RemoteExecution.set_connections this (RemoteExecution._broadcast_connection this)
         ((fun connection =>
             (_RemoteExecutionCommandConnection.on_data connection data).2)
          <$> RemoteExecution._command_connection this), w)
  | Snapshot => (this, (RemoteExecution.remote_nodes this w).2)
  end.

(** The session the constructor made, after the given events. *)
Definition after (config : RemoteExecutionConfig.t) (uuid : string) (w : world)
  (events : list event) : RemoteExecution.t * world :=
  foldl step (RemoteExecution.new config uuid, w) events.

End Steps.

(** The nodes a session knows of. *)
Definition registry (this : RemoteExecution.t)
  : gmap string _RemoteExecutionNode.t :=
  match RemoteExecution._broadcast_connection this
        ≫= _RemoteExecutionBroadcastConnection._nodes with
  | Some nodes => _RemoteExecutionBroadcastNodes._remote_nodes nodes
  | None => ∅
  end.

End Session.


(** An event the registry is embedded for. *)
Definition ordinary `{Runtime} (e : Session.event) : Prop :=
  match e with
  | Session.Datagram data => ordinary_datagram data
  | _ => True
  end.

(** An item of the quick pick that carries the given node id. *)
Definition has_id (node_id : string) (item : Extension.quick_pick_item) : bool :=
  match Extension.id item with
  | JStr s => String.eqb s node_id
  | _ => false
  end.


(** ** Sample data *)

Module Sample.

(** An envelope whose version is a boolean and whose magic is an array,
    with neither type nor source. *)
Definition loosely_typed : string :=
  Reference.wire "{'version':true,'magic':['ue_py']}".

Definition udp : _RemoteExecutionBroadcastConnection.udp_socket :=
  {| _RemoteExecutionBroadcastConnection.sent := [] |}.

(** The pong of node [n1], decoded. *)
Definition pong_of_n1 : _RemoteExecutionMessage.t :=
  {| _RemoteExecutionMessage.type_ := JStr _TYPE_PONG;
     _RemoteExecutionMessage.source := JStr "n1";
     _RemoteExecutionMessage.dest := JUndefined;
     _RemoteExecutionMessage.data := JObj Registry.machine_WS1 |}.

(** The command connection of [local] to [n1], with the mocked socket
    accepted. *)
Definition connected : _RemoteExecutionCommandConnection.t :=
  _RemoteExecutionCommandConnection.on_connection
    (listening_for RemoteExecutionConfig.new "local" "n1") Channel.mock_socket.

(** The extension with that command connection. *)
Definition sending : Extension.t :=
  {| Extension.remote_exec :=
       {| RemoteExecution._config := RemoteExecutionConfig.new;
          RemoteExecution._broadcast_connection := Some Channel.discovery;
          RemoteExecution._command_connection := Some connected;
          RemoteExecution._node_id := "local" |};
     Extension.information_messages := [];
     Extension.node_searches := 0 |}.

(** An editor with a selection. *)
Definition selecting : Extension.editor :=
  {| Extension.selection_isEmpty := false;
     Extension.selection_text := "print(1)";
     Extension.document_text := "import unreal" |}.

End Sample.


(** * Properties *)

(** ** The reference platform reads back what it prints *)

Section ReferenceReadsBack.
Import Reference Printed.

Lemma append_cons (c : ascii) (s t : string) : String c s ++ t = String c (s ++ t).
Proof. reflexivity. Qed.

Lemma append_empty (t : string) : "" ++ t = t.
Proof. reflexivity. Qed.

Lemma append_assoc (s t u : string) : (s ++ t) ++ u = s ++ (t ++ u).
Proof.
  induction s as [| c s IH]; [reflexivity |].
  rewrite !append_cons, IH. reflexivity.
Qed.

Lemma length_append (s t : string) :
  String.length (s ++ t) = (String.length s + String.length t)%nat.
Proof.
  induction s as [| c s IH]; [reflexivity |].
  rewrite append_cons. cbn [String.length]. rewrite IH. reflexivity.
Qed.

(** One character of a string literal read back. *)
Lemma parse_chars_escape_char (c : ascii) (tail : string) :
  parse_chars (escape_char c ++ tail)
  = match parse_chars tail with
    | Some (text, rest) => Some (String c text, rest)
    | None => None
    end.
Proof.
  destruct c as [[|] [|] [|] [|] [|] [|] [|] [|]]; reflexivity.
Qed.

Lemma parse_chars_escape (s rest : string) :
  parse_chars (escape s ++ dquote ++ rest) = Some (s, rest).
Proof.
  induction s as [| c s IH]; [reflexivity |].
  cbn [escape]. rewrite append_assoc, parse_chars_escape_char, IH. reflexivity.
Qed.

(** *** Numbers *)

Lemma delimited_ends_integer (rest : string) : delimited rest -> ends_integer rest = true.
Proof. destruct rest; [reflexivity | intros [_ Hends]; exact Hends]. Qed.

Lemma parse_digits_delimited (rest : string) :
  delimited rest -> parse_digits rest = (Decimal.Nil, rest).
Proof.
  destruct rest as [| c rest]; [reflexivity |]. intros [Hdigit _].
  cbn [parse_digits]. rewrite Hdigit. reflexivity.
Qed.

Lemma parse_digits_printed (d : Decimal.uint) (rest : string) :
  delimited rest ->
  parse_digits (NilEmpty.string_of_uint d ++ rest) = (d, rest).
Proof.
  intros Hrest.
  induction d as [| d IH | d IH | d IH | d IH | d IH | d IH | d IH | d IH | d IH | d IH];
    cbn [NilEmpty.string_of_uint];
    [rewrite append_empty; apply parse_digits_delimited; exact Hrest | ..];
    rewrite append_cons; cbn [parse_digits]; cbv [digit]; cbn; rewrite IH; reflexivity.
Qed.

Lemma to_uint_normal (p : positive) : Decimal.unorm (Pos.to_uint p) = Pos.to_uint p.
Proof.
  rewrite <- (DecimalPos.Unsigned.to_of (Pos.to_uint p)).
  rewrite DecimalPos.Unsigned.of_to. reflexivity.
Qed.

Lemma to_uint_head (p : positive) :
  match Pos.to_uint p with
  | Decimal.Nil | Decimal.D0 _ => False
  | _ => True
  end.
Proof.
  pose proof (to_uint_normal p) as Hnormal.
  pose proof (DecimalPos.Unsigned.to_uint_nonzero p) as Hnonzero.
  destruct (Pos.to_uint p) as [| d | d | d | d | d | d | d | d | d | d] eqn:Hd;
    try exact I.
  - exact (DecimalPos.Unsigned.to_uint_nonnil p Hd).
  - rewrite unorm_D0 in Hnormal.
    destruct d as [| d | d | d | d | d | d | d | d | d | d];
      [apply Hnonzero; reflexivity | ..];
      match goal with
      | H : Decimal.unorm ?u = _ |- _ =>
          assert (Hlen : (Decimal.nb_digits (Decimal.unorm u) <= Decimal.nb_digits u)%nat)
            by (apply nb_digits_unorm; discriminate);
          rewrite H in Hlen; cbn in Hlen; lia
      end.
Qed.

Lemma parse_natural_printed (p : positive) (rest : string) :
  delimited rest ->
  parse_natural (NilEmpty.string_of_uint (Pos.to_uint p) ++ rest)
  = Some (Zpos p, rest).
Proof.
  intros Hrest. unfold parse_natural.
  rewrite parse_digits_printed by exact Hrest.
  rewrite (delimited_ends_integer rest Hrest).
  pose proof (to_uint_head p) as Hhead.
  assert (Hvalue : Z.of_uint (Pos.to_uint p) = Zpos p).
  { unfold Z.of_uint. rewrite DecimalPos.Unsigned.of_to. reflexivity. }
  destruct (Pos.to_uint p); try contradiction; rewrite Hvalue; reflexivity.
Qed.

Lemma printed_uint_head (p : positive) :
  exists (c : ascii) (s : string),
    NilEmpty.string_of_uint (Pos.to_uint p) = String c s
    /\ N.eqb (N_of_ascii c) 45 = false
    /\ is_space c = false
    /\ (forall f rest, parse_value (S f) (String c s ++ rest) = parse_number (String c s ++ rest)).
Proof.
  pose proof (to_uint_head p) as Hhead.
  destruct (Pos.to_uint p); try contradiction; cbn [NilEmpty.string_of_uint];
    eexists _, _; (split; [reflexivity |]); repeat split.
Qed.

Lemma parse_number_printed (n : Z) (rest : string) :
  delimited rest ->
  parse_number (Z_to_string n ++ rest) = Some (JNum n, rest).
Proof.
  intros Hrest. unfold Z_to_string. destruct n as [| p | p]; cbn [Z.to_int].
  - change (NilZero.string_of_int (Decimal.Pos Decimal.zero)) with "0".
    rewrite append_cons, append_empty. unfold parse_number.
    change (N.eqb (N_of_ascii "0") 45) with false. cbv iota.
    unfold parse_natural. cbn [parse_digits].
    change (digit "0") with (Some Decimal.D0). cbv iota.
    rewrite parse_digits_delimited by exact Hrest.
    rewrite (delimited_ends_integer rest Hrest). reflexivity.
  - cbn [NilZero.string_of_int]. unfold NilZero.string_of_uint.
    pose proof (parse_natural_printed p rest Hrest) as Hnatural.
    destruct (printed_uint_head p) as (c & s & Hprinted & Hminus & _ & _).
    pose proof (to_uint_head p) as Hhead.
    destruct (Pos.to_uint p) eqn:Hd; try contradiction;
      rewrite Hprinted in *; rewrite append_cons in *; unfold parse_number;
      rewrite Hminus, Hnatural; reflexivity.
  - cbn [NilZero.string_of_int]. unfold NilZero.string_of_uint.
    pose proof (parse_natural_printed p rest Hrest) as Hnatural.
    pose proof (to_uint_head p) as Hhead.
    destruct (Pos.to_uint p) eqn:Hd; try contradiction;
      rewrite append_cons; unfold parse_number;
      change (N.eqb (N_of_ascii "-") 45) with true; cbv iota;
      rewrite Hnatural; reflexivity.
Qed.

(** *** Values *)

Lemma weight_arr (elems : list jsval) : weight (JArr elems) = S (weights elems).
Proof. reflexivity. Qed.

Lemma weight_obj (props : list (string * jsval)) :
  weight (JObj props) = S (weights props.*2).
Proof.
  cbn [weight]. f_equal. induction props as [| [k x] props IH]; [reflexivity |].
  cbn [weights foldr fmap list_fmap snd] in *. rewrite IH. reflexivity.
Qed.

Lemma stringify_arr (elems : list jsval) :
  stringify (JArr elems) = "[" ++ join_commas (map stringify elems) ++ "]".
Proof. reflexivity. Qed.

Lemma stringify_obj (props : list (string * jsval)) :
  Forall (fun kv => json_value kv.2) props ->
  stringify (JObj props) = "{" ++ join_commas (map member props) ++ "}".
Proof.
  intros Hjson. cbn [stringify].
  match goal with
  | |- context [join_commas (?each props)] =>
      assert (Heach : each props = map member props)
  end.
  { induction Hjson as [| [k x] props Hx _ IH]; [reflexivity |].
    cbn [map]. rewrite <- IH. unfold member. cbn [fst snd] in *.
    destruct x; try reflexivity. inversion Hx. }
  rewrite Heach. reflexivity.
Qed.

Lemma printed_number_head (n : Z) :
  value_head (Z_to_string n)
  /\ forall f rest,
       parse_value (S f) (Z_to_string n ++ rest) = parse_number (Z_to_string n ++ rest).
Proof.
  unfold Z_to_string. destruct n as [| p | p]; cbn [Z.to_int].
  - split; [eexists _, _; repeat split |]. reflexivity.
  - cbn [NilZero.string_of_int]. unfold NilZero.string_of_uint.
    pose proof (to_uint_head p) as Hhead.
    destruct (Pos.to_uint p); try contradiction; cbn [NilEmpty.string_of_uint];
      (split; [eexists _, _; repeat split | reflexivity]).
  - cbn [NilZero.string_of_int]. split; [eexists _, _; repeat split | reflexivity].
Qed.

Lemma stringify_head (v : jsval) : value_head (stringify v).
Proof.
  destruct v as [| | [|] | n | s | elems | props];
    try (eexists _, _; repeat split; fail).
  apply printed_number_head.
Qed.

Lemma skip_spaces_head (s rest : string) :
  value_head s -> skip_spaces (s ++ rest) = s ++ rest.
Proof.
  intros (c & s' & -> & Hspace & _). rewrite append_cons. cbn [skip_spaces].
  rewrite Hspace. reflexivity.
Qed.

Lemma delimited_comma (s : string) : delimited ("," ++ s).
Proof. split; reflexivity. Qed.

Lemma delimited_bracket (s : string) : delimited ("]" ++ s).
Proof. split; reflexivity. Qed.

Lemma delimited_brace (s : string) : delimited ("}" ++ s).
Proof. split; reflexivity. Qed.

Ltac strings := rewrite ?append_assoc, ?append_cons, ?append_empty.

Lemma join_commas_more (a b : string) (l : list string) :
  join_commas (a :: b :: l) = a ++ "," ++ join_commas (b :: l).
Proof. reflexivity. Qed.

Lemma parse_elements_printed (elems : list jsval) :
  Forall reads_back elems -> Forall json_value elems ->
  forall (x : jsval) (fuel : nat) (rest : string),
    reads_back x -> json_value x ->
    (weights (x :: elems) <= fuel)%nat ->
    parse_elements fuel (join_commas (map stringify (x :: elems)) ++ "]" ++ rest)
    = Some (x :: elems, rest).
Proof.
  intros Hread. induction Hread as [| y elems Hy Hread IH];
    intros Hjson x fuel rest Hx Hjx Hfuel;
    cbn [weights foldr] in Hfuel;
    (destruct fuel as [| fuel]; [lia |]).
  - cbn [map join_commas parse_elements].
    rewrite (Hx Hjx fuel ("]" ++ rest)) by (try apply delimited_bracket; lia).
    reflexivity.
  - apply Forall_cons in Hjson as [Hjy Hjson].
    cbn [map]. rewrite join_commas_more. cbn [parse_elements]. strings.
    rewrite (Hx Hjx fuel (String "," _)) by (try apply (delimited_comma ""); lia).
    cbn [skip_spaces]. change (is_space ",") with false. cbv iota.
    change (N_of_ascii ",") with 44%N. cbv iota.
    specialize (IH Hjson y fuel rest Hy Hjy).
    cbn [map] in IH. revert IH. strings. intros IH.
    rewrite IH by (cbn [weights foldr]; lia).
    reflexivity.
Qed.

Lemma set_property_fresh (acc : list (string * jsval)) (k : string) (v : jsval) :
  k ∉ acc.*1 -> set_property acc k v = (acc ++ [(k, v)])%list.
Proof.
  induction acc as [| [k' x] acc IH]; intros Hfresh; [reflexivity |].
  cbn [set_property app]. cbn [fmap list_fmap fst] in Hfresh.
  apply not_elem_of_cons in Hfresh as [Hne Hfresh].
  destruct (String.eqb_spec k' k) as [-> | _]; [contradiction |].
  rewrite IH by exact Hfresh. reflexivity.
Qed.

Lemma member_text (k : string) (x : jsval) (tail : string) :
  member (k, x) ++ tail
  = String (ascii_of_nat 34) (escape k ++ dquote ++ String ":" (stringify x ++ tail)).
Proof.
  unfold member, quote. cbn [fst snd]. unfold dquote at 1. strings. reflexivity.
Qed.

Lemma parse_member (fuel : nat) (acc : list (string * jsval)) (k : string)
  (x : jsval) (tail : string) :
  reads_back x -> json_value x -> (weight x <= fuel)%nat ->
  k ∉ acc.*1 -> delimited tail ->
  parse_members (S fuel) acc (member (k, x) ++ tail)
  = match skip_spaces tail with
    | String c rest =>
        match N_of_ascii c with
        | 125%N => Some ((acc ++ [(k, x)])%list, rest)
        | 44%N => parse_members fuel (acc ++ [(k, x)])%list rest
        | _ => None
        end
    | EmptyString => None
    end.
Proof.
  intros Hx Hjx Hfuel Hfresh Htail.
  rewrite member_text. cbn [parse_members skip_spaces].
  change (is_space (ascii_of_nat 34)) with false. cbv iota.
  change (N.eqb (N_of_ascii (ascii_of_nat 34)) 34) with true. cbv iota.
  rewrite parse_chars_escape. cbn [skip_spaces].
  change (is_space ":") with false. cbv iota.
  change (N.eqb (N_of_ascii ":") 58) with true. cbv iota.
  rewrite (Hx Hjx fuel tail Hfuel Htail).
  rewrite set_property_fresh by exact Hfresh. reflexivity.
Qed.

Lemma parse_members_printed (props : list (string * jsval)) :
  Forall (fun kv => reads_back kv.2) props ->
  Forall (fun kv => json_value kv.2) props ->
  forall (kv : string * jsval) (acc : list (string * jsval)) (fuel : nat)
         (rest : string),
    reads_back kv.2 -> json_value kv.2 ->
    NoDup ((acc ++ kv :: props)%list).*1 ->
    (weights (kv :: props).*2 <= fuel)%nat ->
    parse_members fuel acc (join_commas (map member (kv :: props)) ++ "}" ++ rest)
    = Some ((acc ++ kv :: props)%list, rest).
Proof.
  intros Hread. induction Hread as [| kv' props Hy Hread IH];
    intros Hjson [k x] acc fuel rest Hx Hjx Hkeys Hfuel;
    cbn [weights foldr fmap list_fmap snd] in Hfuel;
    (destruct fuel as [| fuel]; [lia |]);
    assert (Hfresh : k ∉ acc.*1)
      by (rewrite fmap_app in Hkeys; apply NoDup_app in Hkeys as (_ & Hdisjoint & _);
          intros Hin; apply (Hdisjoint k Hin); cbn; left).
  - cbn [map join_commas].
    rewrite (parse_member fuel acc k x ("}" ++ rest) Hx Hjx)
      by (try apply delimited_brace; try exact Hfresh; lia).
    reflexivity.
  - apply Forall_cons in Hjson as [Hjy Hjson].
    cbn [map]. rewrite join_commas_more. rewrite append_assoc.
    rewrite (parse_member fuel acc k x _ Hx Hjx)
      by (try apply (delimited_comma _); try exact Hfresh; lia).
    strings. cbn [skip_spaces]. change (is_space ",") with false. cbv iota.
    change (N_of_ascii ",") with 44%N. cbv iota.
    specialize (IH Hjson kv' (acc ++ [(k, x)])%list fuel rest Hy Hjy).
    cbn [map] in IH. revert IH. strings. rewrite <- !app_assoc. cbn [app].
    intros IH. apply IH; [exact Hkeys |].
    cbn [weights foldr fmap list_fmap snd]. lia.
Qed.

Lemma value_head_append (s t : string) : value_head s -> value_head (s ++ t).
Proof.
  intros (c & s' & -> & Hfacts). exists c, (s' ++ t). split; [reflexivity | exact Hfacts].
Qed.

Lemma value_head_join (a : string) (l : list string) :
  value_head a -> value_head (join_commas (a :: l)).
Proof.
  intros Ha. destruct l as [| b l]; [exact Ha |].
  rewrite join_commas_more. apply value_head_append. exact Ha.
Qed.

Lemma member_head (kv : string * jsval) : value_head (member kv).
Proof.
  destruct kv as [k x].
  exists (ascii_of_nat 34), (escape k ++ dquote ++ String ":" (stringify x)).
  split; [| repeat split].
  unfold member, quote. cbn [fst snd]. unfold dquote at 1. strings. reflexivity.
Qed.

(** After an opening bracket or brace, a text that starts a value is handed
    on as it is. *)
Lemma enter_array (fuel : nat) (inner : string) :
  value_head inner ->
  parse_value (S fuel) (String "[" inner)
  = match parse_elements fuel inner with
    | Some (elems, rest) => Some (JArr elems, rest)
    | None => None
    end.
Proof.
  intros (c & s' & -> & Hspace & Hbracket & _).
  cbn [parse_value skip_spaces]. change (is_space "[") with false. cbv iota.
  change (N_of_ascii "[") with 91%N. cbv iota.
  cbn [skip_spaces]. rewrite Hspace, Hbracket. reflexivity.
Qed.

Lemma enter_object (fuel : nat) (inner : string) :
  value_head inner ->
  parse_value (S fuel) (String "{" inner)
  = match parse_members fuel [] inner with
    | Some (props, rest) => Some (JObj props, rest)
    | None => None
    end.
Proof.
  intros (c & s' & -> & Hspace & _ & Hbrace).
  cbn [parse_value skip_spaces]. change (is_space "{") with false. cbv iota.
  change (N_of_ascii "{") with 123%N. cbv iota.
  cbn [skip_spaces]. rewrite Hspace, Hbrace. reflexivity.
Qed.

Theorem parse_value_printed (v : jsval) : reads_back v.
Proof.
  induction v as [| | b | n | s | elems IH | props IH] using jsval_nested_ind;
    intros Hjson fuel rest Hfuel Hrest;
    (destruct fuel as [| fuel]; [cbn in Hfuel; lia |]).
  - inversion Hjson.
  - reflexivity.
  - destruct b; reflexivity.
  - cbn [stringify]. rewrite (proj2 (printed_number_head n)).
    apply parse_number_printed. exact Hrest.
  - cbn [stringify]. unfold quote, dquote at 1. strings.
    cbn [parse_value skip_spaces].
    change (is_space (ascii_of_nat 34)) with false. cbv iota.
    change (N_of_ascii (ascii_of_nat 34)) with 34%N. cbv iota.
    rewrite parse_chars_escape. reflexivity.
  - inversion Hjson as [| | | | elems' Hall |]; subst elems'.
    rewrite weight_arr in Hfuel. rewrite stringify_arr. strings.
    destruct elems as [| x elems].
    + reflexivity.
    + apply Forall_cons in IH as [Hx IH]. apply Forall_cons in Hall as [Hjx Hall].
      rewrite enter_array
        by (apply value_head_append, value_head_join, stringify_head).
      change (String "]" rest) with ("]" ++ rest).
      rewrite (parse_elements_printed elems IH Hall x fuel rest Hx Hjx) by lia.
      reflexivity.
  - inversion Hjson as [| | | | | props' Hkeys Hall]; subst props'.
    rewrite weight_obj in Hfuel. rewrite stringify_obj by exact Hall. strings.
    destruct props as [| kv props].
    + reflexivity.
    + apply Forall_cons in IH as [Hx IH]. apply Forall_cons in Hall as [Hjx Hall].
      rewrite enter_object
        by (apply value_head_append, value_head_join, member_head).
      change (String "}" rest) with ("}" ++ rest).
      rewrite (parse_members_printed props IH Hall kv [] fuel rest Hx Hjx)
        by (try exact Hkeys; lia).
      reflexivity.
Qed.

(** *** Enough fuel *)

Lemma append_empty_r (s : string) : s ++ "" = s.
Proof. induction s as [| c s IH]; [reflexivity |]. rewrite append_cons, IH. reflexivity. Qed.

Lemma value_head_length (s : string) : value_head s -> (1 <= String.length s)%nat.
Proof. intros (c & s' & -> & _). cbn [String.length]. lia. Qed.

Lemma weights_le_length (elems : list jsval) :
  Forall (fun x => weight x <= String.length (stringify x))%nat elems ->
  (weights elems <= S (String.length (join_commas (map stringify elems))))%nat.
Proof.
  induction 1 as [| x elems Hx Hall IH]; [cbn; lia |].
  change (weights (x :: elems)) with (S (weight x + weights elems)).
  destruct elems as [| y elems].
  - cbn [weights foldr map join_commas]. lia.
  - cbn [map] in *. rewrite join_commas_more, !length_append.
    change (String.length ",") with 1%nat. lia.
Qed.

Lemma member_weights_le_length (props : list (string * jsval)) :
  Forall (fun kv => weight kv.2 <= String.length (stringify kv.2))%nat props ->
  (weights props.*2 <= S (String.length (join_commas (map member props))))%nat.
Proof.
  induction 1 as [| [k x] props Hx Hall IH]; [cbn; lia |].
  change (weights ((k, x) :: props).*2) with (S (weight x + weights props.*2)).
  assert (Hmember : (weight x <= String.length (member (k, x)))%nat).
  { unfold member. cbn [fst snd] in *. rewrite !length_append. lia. }
  destruct props as [| kv props].
  - cbn [weights foldr map join_commas fmap list_fmap]. lia.
  - cbn [map] in *. rewrite join_commas_more, !length_append.
    change (String.length ",") with 1%nat. lia.
Qed.

Lemma weight_le_length (v : jsval) :
  json_value v -> (weight v <= String.length (stringify v))%nat.
Proof.
  induction v as [| | b | n | s | elems IH | props IH] using jsval_nested_ind;
    intros Hjson.
  - inversion Hjson.
  - cbn. lia.
  - destruct b; cbn; lia.
  - cbn [weight stringify]. apply value_head_length, printed_number_head.
  - cbn [weight]. apply value_head_length, (stringify_head (JStr s)).
  - inversion Hjson as [| | | | elems' Hall |]; subst elems'.
    rewrite weight_arr, stringify_arr, !length_append.
    change (String.length "[") with 1%nat. change (String.length "]") with 1%nat.
    assert (Hle : (weights elems
                   <= S (String.length (join_commas (map stringify elems))))%nat).
    { apply weights_le_length. rewrite Forall_forall in *. auto. }
    lia.
  - inversion Hjson as [| | | | | props' Hkeys Hall]; subst props'.
    rewrite weight_obj, stringify_obj by exact Hall. rewrite !length_append.
    change (String.length "{") with 1%nat. change (String.length "}") with 1%nat.
    assert (Hle : (weights props.*2
                   <= S (String.length (join_commas (map member props))))%nat).
    { apply member_weights_le_length. rewrite Forall_forall in *. auto. }
    lia.
Qed.

(** The reference platform reads back every JSON value it prints. *)
Theorem parse_stringify (v : jsval) :
  json_value v -> parse (stringify v) = Some v.
Proof.
  intros Hjson. unfold parse.
  rewrite <- (append_empty_r (stringify v)) at 2.
  rewrite (parse_value_printed v Hjson _ "")
    by (try exact I; pose proof (weight_le_length v Hjson); lia).
  reflexivity.
Qed.

End ReferenceReadsBack.


(** ** The codec *)

Section CodecFacts.
Context `{Runtime}.
Import _RemoteExecutionMessage.

Lemma absent_node_id v :
  node_id_or_none v -> absent v <-> v = JUndefined \/ v = JNull \/ v = JStr "".
Proof.
  unfold absent.
  destruct v as [| | b | n | s | l | p]; simpl; intros Hty; try contradiction.
  - split; auto.
  - split; auto.
  - destruct s; simpl; split; auto; try discriminate.
    intros [Hx | [Hx | Hx]]; discriminate.
Qed.

Lemma loose_eq_str_node_id v (s : string) :
  node_id_or_none v ->
  exists same, loose_eq_str v s = Normal same /\ (same = true <-> v = JStr s).
Proof.
  destruct v as [| | b | n | t | l | p]; simpl; try tauto; intros _;
    try (exists false; split; [reflexivity | split; discriminate]).
  exists (String.eqb t s). split; [reflexivity |].
  rewrite String.eqb_eq. split; [congruence | intros [= ->]; reflexivity].
Qed.

Lemma join_cons (text text' : completion string) (texts : list (completion string)) :
  join (text :: text' :: texts)
  = let* head := text in
    let* tail := join (text' :: texts) in
    Normal (head ++ "," ++ tail).
Proof. reflexivity. Qed.

Lemma join_throws (texts : list (completion string)) (e : exn) :
  Forall (fun text => forall e', text = Throw e' -> e' = TypeError) texts ->
  join texts = Throw e -> e = TypeError.
Proof.
  induction 1 as [| text texts Htext _ IH]; [discriminate |].
  destruct texts as [| text' texts]; [apply Htext |].
  rewrite join_cons.
  destruct text as [head | e']; cbn [bind]; [| intros [= <-]; apply Htext; reflexivity].
  destruct (join (text' :: texts)) as [tail | e']; cbn [bind]; [discriminate |].
  intros [= <-]. apply IH. reflexivity.
Qed.

(** A conversion throws nothing but [TypeError]. *)
Lemma ToString_throws (v : jsval) (e : exn) : ToString v = Throw e -> e = TypeError.
Proof.
  revert e.
  induction v as [| | b | n | s | elems IH | props IH] using jsval_nested_ind;
    intros e; cbn [ToString]; try discriminate.
  - destruct b; discriminate.
  - apply join_throws. apply Forall_map.
    eapply Forall_impl; [exact IH |].
    intros x Hx e'. cbn beta. destruct x; try discriminate; apply Hx.
  - case_bool_decide; [intros [= <-]; reflexivity | discriminate].
Qed.

Lemma loose_eq_str_throws (v : jsval) (s : string) (e : exn) :
  loose_eq_str v s = Throw e -> ToString v = Throw TypeError /\ e = TypeError.
Proof.
  destruct v; cbn [loose_eq_str]; try discriminate;
    match goal with
    | |- bind (ToString ?v) _ = _ -> _ =>
        destruct (ToString v) as [text | e'] eqn:Hv; cbn [bind]; [discriminate |];
        intros [= <-]; pose proof (ToString_throws _ _ Hv) as ->; split; reflexivity
    end.
Qed.

Lemma passes_receive_filter_throws (m : t) (node_id : string) (e : exn) :
  passes_receive_filter m node_id = Throw e ->
  e = TypeError
  /\ (ToString (source m) = Throw TypeError \/ ToString (dest m) = Throw TypeError).
Proof.
  unfold passes_receive_filter.
  destruct (loose_eq_str (source m) node_id) as [[|] | e'] eqn:Hsource; cbn [bind].
  - discriminate.
  - destruct (negb (truthy (dest m))); [discriminate |].
    intros Hdest. apply loose_eq_str_throws in Hdest as [Hdest ->]. auto.
  - intros [= <-]. apply loose_eq_str_throws in Hsource as [Hsource ->]. auto.
Qed.

Lemma envelope_get this key :
  get (to_json_obj this) key =
  Normal
    (if String.eqb "version" key then JNum _PROTOCOL_VERSION
     else if String.eqb "magic" key then JStr _PROTOCOL_MAGIC
     else if String.eqb "type" key then type_ this
     else if String.eqb "source" key then source this
     else if truthy (dest this) && String.eqb "dest" key then dest this
     else if truthy (data this) && String.eqb "data" key then data this
     else JUndefined).
Proof.
  unfold to_json_obj, get. f_equal.
  cbn [own_property app].
  repeat (destruct (String.eqb _ key) eqn:?; [reflexivity |]); clear.
  destruct (truthy (dest this)), (truthy (data this));
    cbn [own_property app andb];
    repeat (destruct (String.eqb _ key); try reflexivity).
Qed.

Lemma envelope_keys this :
  keys (to_json_obj this) =
  (["version"; "magic"; "type"; "source"]
   ++ (if truthy (dest this) then ["dest"] else [])
   ++ (if truthy (data this) then ["data"] else []))%list.
Proof.
  unfold to_json_obj, keys. simpl.
  destruct (truthy (dest this)), (truthy (data this)); reflexivity.
Qed.

(** What [from_json] does once [JSON.parse] has returned an object. *)
Lemma from_json_object this json_str props :
  JSON_parse json_str = Some (JObj props) ->
  from_json this json_str =
  match loose_eq_num (own_property props "version") _PROTOCOL_VERSION with
  | Throw e => (true, this, Some e)
  | Normal false =>
      (true, this, Some (version_is_incorrect (own_property props "version")))
  | Normal true =>
      match loose_eq_str (own_property props "magic") _PROTOCOL_MAGIC with
      | Throw e => (true, this, Some e)
      | Normal false =>
          (true, this, Some (magic_is_incorrect (own_property props "magic")))
      | Normal true =>
          (true,
           {| type_ := own_property props "type";
              source := own_property props "source";
              dest := own_property props "dest";
              data := own_property props "data" |},
           None)
      end
  end.
Proof.
  intros Hparse. unfold from_json, from_json_try. rewrite Hparse. simpl.
  destruct (loose_eq_num _ _) as [[|] | e]; simpl; try reflexivity.
  destruct (loose_eq_str _ _) as [[|] | e]; reflexivity.
Qed.

Lemma from_json_malformed this json_str :
  JSON_parse json_str = None ->
  from_json this json_str = (true, this, Some SyntaxError).
Proof.
  intros Hparse. unfold from_json, from_json_try. rewrite Hparse. reflexivity.
Qed.

End CodecFacts.

(** ** The codec against the specification *)

Section CodecSpecification.
Context `{Runtime}.
Import _RemoteExecutionMessage.

(** The filter on a message whose source and destination are typed as
    the class declares them: it returns, and says whether the message is
    for this node. *)
Lemma passes_receive_filter_typed (m : t) (node_id : string) :
  node_id_or_none (source m) ->
  node_id_or_none (dest m) ->
  exists passes : bool,
    passes_receive_filter m node_id = Normal passes
    /\ (passes = true <->
        source m <> JStr node_id /\ (absent (dest m) \/ dest m = JStr node_id)).
Proof.
  intros Hsource Hdest. unfold passes_receive_filter, absent.
  destruct (loose_eq_str_node_id (source m) node_id Hsource)
    as (from_self & -> & Hfrom).
  destruct (loose_eq_str_node_id (dest m) node_id Hdest) as (to_us & Hto_us & Hto).
  cbn [bind]. destruct from_self.
  - exists false. split; [reflexivity |].
    split; [discriminate |]. intros [Hne _]. destruct Hne. apply Hfrom. reflexivity.
  - assert (Hne : source m <> JStr node_id).
    { intros Heq. apply Hfrom in Heq. discriminate. }
    destruct (truthy (dest m)); cbn [negb].
    + exists to_us. split; [exact Hto_us |]. split.
      * intros ->. split; [exact Hne |]. right. apply Hto. reflexivity.
      * intros [_ [Habsent | Heq]]; [discriminate |]. apply Hto. exact Heq.
    + exists true. split; [reflexivity |].
      split; [| reflexivity]. intros _. split; [exact Hne |]. left. reflexivity.
Qed.

Lemma from_json_true (this : t) (json_str : string) :
  (from_json this json_str).1.1 = true.
Proof.
  unfold from_json. destruct (from_json_try json_str); reflexivity.
Qed.

Lemma well_formed_envelope (m : t) : well_formed m -> json_value (to_json_obj m).
Proof.
  intros ((type_ & Htype & _) & (source & Hsource & _) & Hdest & Hdata).
  unfold to_json_obj. rewrite Htype, Hsource.
  assert (Hpayload : json_value (data m) \/ truthy (data m) = false).
  { destruct Hdata as [-> | [-> | (props & -> & Hprops)]]; auto. }
  assert (Hto : json_value (dest m) \/ truthy (dest m) = false).
  { destruct (dest m); try contradiction; auto using json_value. }
  destruct (truthy (dest m)) eqn:Hd, (truthy (data m)) eqn:Hp;
    destruct Hpayload as [Hpayload | ?]; try discriminate;
    destruct Hto as [Hto | ?]; try discriminate;
    (apply jv_obj;
     [apply (bool_decide_unpack _); vm_compute; exact I
     | repeat (apply Forall_cons; split); try apply Forall_nil;
       cbn [snd]; auto using json_value]).
Qed.

Lemma from_json_to_json (m this : t) :
  JSON_reads_back ->
  well_formed m ->
  from_json this (to_json m) =
  (true,
   {| type_ := type_ m;
      source := source m;
      dest := if truthy (dest m) then dest m else JUndefined;
      data := if truthy (data m) then data m else JUndefined |},
   None).
Proof.
  intros Hplatform Hm. unfold to_json.
  rewrite (from_json_object this _ _ (Hplatform _ (well_formed_envelope m Hm))).
  cbn [own_property app String.eqb Ascii.eqb Bool.eqb].
  unfold loose_eq_num, loose_eq_str. rewrite Z.eqb_refl, String.eqb_refl.
  destruct (truthy (dest m)), (truthy (data m)); reflexivity.
Qed.

(** C4.  On a platform whose JSON reads back what it printed, decoding
    the encoding of a well-formed message gives the message again: its type
    and source, and each optional field as it was, an absent one (null,
    undefined, the empty string) coming back as [undefined]. *)
Theorem decode_encode_roundtrip (m this : t) :
  JSON_reads_back ->
  well_formed m ->
  from_json this (to_json m) =
  (true,
   {| type_ := type_ m;
      source := source m;
      dest := if truthy (dest m) then dest m else JUndefined;
      data := if truthy (data m) then data m else JUndefined |},
   None).
Proof. exact (from_json_to_json m this). Qed.

(** C6.  On a message whose source and destination are node ids or
    nothing, the filter accepts exactly when the source is not the local id
    and the destination is absent or is the local id. *)
Theorem passes_receive_filter_iff (m : t) (node_id : string) :
  node_id_or_none (source m) ->
  node_id_or_none (dest m) ->
  passes_receive_filter m node_id = Normal true <->
  source m <> JStr node_id /\ (absent (dest m) \/ dest m = JStr node_id).
Proof.
  intros Hsource Hdest.
  destruct (passes_receive_filter_typed m node_id Hsource Hdest)
    as (passes & -> & <-).
  split; [intros [= ->]; reflexivity | intros ->; reflexivity].
Qed.

End CodecSpecification.

Section CodecOnThePlatform.
Import _RemoteExecutionMessage.
#[local] Existing Instance Reference.runtime.

(** C5, amended.  The payload travels under the key [data]: the envelope
    of a message has the keys [version], [magic], [type], [source], then
    [dest] when there is a destination, then [data] when there is a payload,
    which [data] holds; an absent destination or payload leaves no key
    behind; and a decoded message takes its payload from the key [data] of
    the parsed envelope. *)
Theorem payload_travels_as_data `{Runtime} (m this : t) (json_str : string)
  (props : list (string * jsval)) :
  JSON_parse json_str = Some (JObj props) ->
  loose_eq_num (own_property props "version") _PROTOCOL_VERSION = Normal true ->
  loose_eq_str (own_property props "magic") _PROTOCOL_MAGIC = Normal true ->
  keys (to_json_obj m) =
    (["version"; "magic"; "type"; "source"]
     ++ (if truthy (dest m) then ["dest"] else [])
     ++ (if truthy (data m) then ["data"] else []))%list
  /\ get (to_json_obj m) "dest"
     = Normal (if truthy (dest m) then dest m else JUndefined)
  /\ get (to_json_obj m) "data"
     = Normal (if truthy (data m) then data m else JUndefined)
  /\ data (from_json this json_str).1.2 = own_property props "data".
Proof.
  intros Hparse Hversion Hmagic. split; [| split; [| split]].
  - apply envelope_keys.
  - rewrite envelope_get. cbn [String.eqb Ascii.eqb Bool.eqb andb].
    destruct (truthy (dest m)); [reflexivity |].
    destruct (truthy (data m)); reflexivity.
  - rewrite envelope_get. cbn [String.eqb Ascii.eqb Bool.eqb andb].
    destruct (truthy (dest m)), (truthy (data m)); reflexivity.
  - rewrite (from_json_object this _ _ Hparse), Hversion, Hmagic. reflexivity.
Qed.

Lemma payload_travels_as_data_witness :
  let m := Scenario.command_result true "1" in
  JSON_parse Scenario.data_keyed = Some (to_json_obj m)
  /\ keys (to_json_obj m) = ["version"; "magic"; "type"; "source"; "dest"; "data"]
  /\ get (to_json_obj m) "dest" = Normal (JStr "local")
  /\ get (to_json_obj m) "data" = Normal (Scenario.result_payload true "1")
  /\ data (from_json Scenario.blank Scenario.data_keyed).1.2
     = Scenario.result_payload true "1".
Proof.
  split; [reflexivity |].
  exact (@payload_travels_as_data Reference.runtime
           (Scenario.command_result true "1") Scenario.blank
           Scenario.data_keyed
           [("version", JNum 1); ("magic", JStr "ue_py");
            ("type", JStr "command_result"); ("source", JStr "n1");
            ("dest", JStr "local");
            ("data", Scenario.result_payload true "1")]
           eq_refl eq_refl eq_refl).
Defined.

(** C5 as stated fails: the envelope of a message with a payload has no
    key [payload], and an envelope that carries one under [payload] is
    decoded to a message without payload. *)
Lemma payload_key_counterexample :
  let m := Scenario.command_result true "1" in
  truthy (data m) = true
  /\ ~ In "payload" (keys (to_json_obj m))
  /\ get (to_json_obj m) "payload" = Normal JUndefined
  /\ to_json m = Scenario.data_keyed
  /\ from_json Scenario.blank Scenario.payload_keyed =
     (true,
      {| type_ := JStr "command_result"; source := JStr "n1";
         dest := JStr "local"; data := JUndefined |},
      None).
Proof.
  repeat split; try reflexivity.
  cbn. intros Hin. repeat destruct Hin as [Hin | Hin]; try discriminate Hin.
  exact Hin.
Qed.

(** C2.  [from_json] answers [true] on every input text, on every
    platform: a text that [JSON.parse] refuses, an envelope of another
    version, an envelope with another magic all end in the [catch] clause,
    after which the call reports success with the receiver untouched.  The
    specification wants a failure there, and the method's own comment promises
    [False] for a message that could not be parsed. *)
Theorem from_json_reports_success_on_failure :
  (forall (platform : Runtime) (this : t) (json_str : string),
      (@from_json platform this json_str).1.1 = true)
  /\ from_json Scenario.blank Scenario.not_json
     = (true, Scenario.blank, Some SyntaxError)
  /\ from_json Scenario.blank Scenario.version_two
     = (true, Scenario.blank, Some (version_is_incorrect (JNum 2)))
  /\ from_json Scenario.blank Scenario.wrong_magic
     = (true, Scenario.blank, Some (magic_is_incorrect (JStr "ue_js"))).
Proof.
  repeat split; try reflexivity.
  intros platform this json_str. apply from_json_true.
Qed.

Lemma command_result_well_formed (success : bool) (result : string) :
  well_formed (Scenario.command_result success result).
Proof.
  split; [exists "command_result"; split; [reflexivity | cbn; tauto] |].
  split; [exists "n1"; split; [reflexivity | discriminate] |].
  split; [exact I |]. right. right. eexists. split; [reflexivity |].
  apply jv_obj; [apply (bool_decide_unpack _); vm_compute; exact I |].
  repeat (apply Forall_cons; split); try apply Forall_nil; cbn [snd]; constructor.
Qed.

Lemma decode_encode_roundtrip_witness :
  let m := Scenario.command_result true "1" in
  JSON_reads_back
  /\ well_formed m
  /\ from_json Scenario.blank (to_json m) = (true, m, None).
Proof.
  split; [exact parse_stringify |].
  split; [apply command_result_well_formed |].
  exact (@decode_encode_roundtrip Reference.runtime
           (Scenario.command_result true "1") Scenario.blank
           parse_stringify (command_result_well_formed true "1")).
Defined.

(** On the reference platform the hypothesis on the platform is met, and
    every well-formed message comes back. *)
Corollary reference_roundtrip (m : t) :
  well_formed m ->
  from_json Scenario.blank (to_json m) =
  (true,
   {| type_ := type_ m;
      source := source m;
      dest := if truthy (dest m) then dest m else JUndefined;
      data := if truthy (data m) then data m else JUndefined |},
   None).
Proof. exact (@from_json_to_json Reference.runtime m Scenario.blank parse_stringify). Qed.

Lemma passes_receive_filter_iff_witness :
  let m := Scenario.command_result true "1" in
  node_id_or_none (source m) /\ node_id_or_none (dest m)
  /\ (passes_receive_filter m "local" = Normal true <->
      source m <> JStr "local" /\ (absent (dest m) \/ dest m = JStr "local")).
Proof.
  split; [exact I | split; [exact I |]].
  exact (@passes_receive_filter_iff Reference.runtime
           (Scenario.command_result true "1") "local" I I).
Defined.

(** Scenario A: the wire text of a ping from node [abc]. *)
Example ping_wire_text :
  to_json Scenario.ping_from_abc
  = Reference.wire "{'version':1,'magic':'ue_py','type':'ping','source':'abc'}".
Proof. reflexivity. Qed.

(** The truth table of the filter, at local id [local]. *)
Example filter_truth_table :
  let message source dest := new (JStr "pong") source dest JUndefined in
  passes_receive_filter (message (JStr "local") JUndefined) "local" = Normal false
  /\ passes_receive_filter (message (JStr "n1") (JStr "n2")) "local" = Normal false
  /\ passes_receive_filter (message (JStr "n1") JUndefined) "local" = Normal true
  /\ passes_receive_filter (message (JStr "n1") (JStr "local")) "local" = Normal true
  /\ passes_receive_filter (message (JStr "n1") (JStr "")) "local" = Normal true.
Proof. repeat split. Qed.

End CodecOnThePlatform.

(** ** The registry *)

Section RegistryFacts.
Import _RemoteExecutionNode _RemoteExecutionBroadcastNodes.

Lemma time_now_nonzero (now : Z) (w : world) :
  now <> 0 -> _time_now (Some now) w = (now, w).
Proof.
  intros Hnow. unfold _time_now.
  destruct (Z.eqb_spec now 0); [contradiction | reflexivity].
Qed.

Lemma time_now_zero (w : world) : _time_now (Some 0) w = _time_now None w.
Proof. reflexivity. Qed.

Lemma should_timeout_nonzero (node : _RemoteExecutionNode.t) (now : Z) (w : world) :
  now <> 0 ->
  should_timeout node (Some now) w = (bool_decide (timed_out now node), w).
Proof.
  intros Hnow. unfold should_timeout. rewrite time_now_nonzero by assumption.
  f_equal. unfold timed_out.
  destruct (Z.ltb_spec (_last_pong node + _NODE_TIMEOUT_SECONDS) now).
  - rewrite bool_decide_eq_true_2; [reflexivity | assumption].
  - rewrite bool_decide_eq_false_2; [reflexivity | lia].
Qed.

Lemma timeout_loop_nonzero (now : Z) (w : world)
  (entries : list (string * _RemoteExecutionNode.t))
  (nodes : gmap string _RemoteExecutionNode.t) :
  now <> 0 ->
  foldl (timeout_step now) (nodes, w) entries
  = (foldl (drop_timed_out now) nodes entries, w).
Proof.
  intros Hnow. revert nodes.
  induction entries as [| [node_id node] entries IH]; intros nodes; [reflexivity |].
  cbn [foldl]. unfold timeout_step at 2.
  rewrite should_timeout_nonzero by assumption.
  rewrite IH. reflexivity.
Qed.

Lemma drop_loop_gone (now : Z) (entries : list (string * _RemoteExecutionNode.t))
  (nodes : gmap string _RemoteExecutionNode.t) (k : string) :
  nodes !! k = None -> foldl (drop_timed_out now) nodes entries !! k = None.
Proof.
  revert nodes.
  induction entries as [| [node_id node] entries IH]; intros nodes Hk; [exact Hk |].
  cbn [foldl]. apply IH. unfold drop_timed_out. cbn [fst snd].
  case_bool_decide; [| exact Hk].
  destruct (decide (node_id = k)) as [-> |].
  - apply lookup_delete_eq.
  - rewrite lookup_delete_ne by assumption. exact Hk.
Qed.

Lemma drop_loop_expired (now : Z) (entries : list (string * _RemoteExecutionNode.t))
  (nodes : gmap string _RemoteExecutionNode.t) (k : string)
  (node : _RemoteExecutionNode.t) :
  (k, node) ∈ entries -> timed_out now node ->
  foldl (drop_timed_out now) nodes entries !! k = None.
Proof.
  revert nodes.
  induction entries as [| entry entries IH]; intros nodes Hin Hexpired.
  - inversion Hin.
  - cbn [foldl]. apply elem_of_cons in Hin as [<- | Hin].
    + apply drop_loop_gone. unfold drop_timed_out. cbn [fst snd].
      rewrite bool_decide_eq_true_2 by assumption. apply lookup_delete_eq.
    + apply IH; assumption.
Qed.

Lemma drop_loop_alive (now : Z) (entries : list (string * _RemoteExecutionNode.t))
  (nodes : gmap string _RemoteExecutionNode.t) (k : string) :
  (forall node, (k, node) ∈ entries -> ~ timed_out now node) ->
  foldl (drop_timed_out now) nodes entries !! k = nodes !! k.
Proof.
  revert nodes.
  induction entries as [| [node_id node] entries IH]; intros nodes Halive;
    [reflexivity |].
  cbn [foldl]. rewrite IH.
  - unfold drop_timed_out. cbn [fst snd]. case_bool_decide as Hexpired; [| reflexivity].
    apply lookup_delete_ne. intros ->.
    apply (Halive node); [apply elem_of_cons; left; reflexivity | assumption].
  - intros node' Hin. apply Halive. apply elem_of_cons. right. exact Hin.
Qed.

(** At a time that is not 0, [timeout_remote_nodes] removes exactly the
    nodes with [_last_pong + _NODE_TIMEOUT_SECONDS < now] and reads no
    clock. *)
Lemma timeout_remote_nodes_nonzero (this : _RemoteExecutionBroadcastNodes.t)
  (now : Z) (w : world) :
  now <> 0 ->
  timeout_remote_nodes this (Some now) w
  = ({| _remote_nodes :=
          filter (fun entry => ~ timed_out now entry.2) (_remote_nodes this) |},
     w).
Proof.
  intros Hnow. unfold timeout_remote_nodes.
  rewrite time_now_nonzero by assumption.
  rewrite timeout_loop_nonzero by assumption.
  f_equal. f_equal. apply map_eq. intros k.
  destruct (_remote_nodes this !! k) as [node |] eqn:Hk.
  - destruct (decide (timed_out now node)) as [Hexpired | Halive].
    + rewrite (drop_loop_expired now _ _ k node);
        [| apply elem_of_map_to_list; exact Hk | exact Hexpired].
      symmetry. apply map_lookup_filter_None. right.
      intros node' Hnode'. rewrite Hk in Hnode'. injection Hnode' as <-.
      cbn [snd]. tauto.
    + rewrite drop_loop_alive.
      * rewrite Hk. symmetry. apply map_lookup_filter_Some. split; [exact Hk | exact Halive].
      * intros node' Hin. apply elem_of_map_to_list in Hin.
        rewrite Hk in Hin. injection Hin as <-. exact Halive.
  - rewrite drop_loop_gone by exact Hk.
    symmetry. apply map_lookup_filter_None. left. exact Hk.
Qed.

(** What [update_remote_node] does, by the node id and by what the
    registry holds under the name [hasOwnProperty]. *)
Lemma update_remote_node_stores (this : _RemoteExecutionBroadcastNodes.t)
  (node_id : string) (node_data : value) (now : option Z) (w : world) :
  node_id <> "__proto__" ->
  _remote_nodes this !! "hasOwnProperty" = None ->
  update_remote_node this node_id node_data now w
  = (Normal tt,
     {| _remote_nodes :=
          <[node_id := (_RemoteExecutionNode.new node_data
                          (Some (_time_now now w).1) (_time_now now w).2).1]>
            (_remote_nodes this) |},
     (_RemoteExecutionNode.new node_data
        (Some (_time_now now w).1) (_time_now now w).2).2).
Proof.
  intros Hplain Hmethod. unfold update_remote_node.
  destruct (_time_now now w) as [_now w1]. cbn [fst snd].
  rewrite Hmethod, bool_decide_eq_false_2 by (intros [? ?]; discriminate).
  destruct (_RemoteExecutionNode.new node_data (Some _now) w1) as [node w2].
  destruct (String.eqb_spec node_id "__proto__"); [contradiction | reflexivity].
Qed.

Lemma update_remote_node_throws (this : _RemoteExecutionBroadcastNodes.t)
  (node_id : string) (node_data : value) (now : option Z) (w : world) :
  is_Some (_remote_nodes this !! "hasOwnProperty") ->
  update_remote_node this node_id node_data now w
  = (Throw TypeError, this, (_time_now now w).2).
Proof.
  intros Hmethod. unfold update_remote_node.
  destruct (_time_now now w) as [_now w1].
  rewrite bool_decide_eq_true_2 by exact Hmethod. reflexivity.
Qed.

Lemma update_remote_node_nonzero (this : _RemoteExecutionBroadcastNodes.t)
  (node_id : string) (node_data : value) (now : Z) (w : world) :
  now <> 0 ->
  node_id <> "__proto__" ->
  _remote_nodes this !! "hasOwnProperty" = None ->
  update_remote_node this node_id node_data (Some now) w
  = (Normal tt,
     {| _remote_nodes :=
          <[node_id := {| data := node_data; _last_pong := now |}]>
            (_remote_nodes this) |},
     w).
Proof.
  intros Hnow Hplain Hmethod.
  rewrite update_remote_node_stores by assumption.
  unfold _RemoteExecutionNode.new.
  rewrite !(time_now_nonzero now w) by assumption. cbn [fst snd].
  rewrite !(time_now_nonzero now w) by assumption. reflexivity.
Qed.

(** With the clock at a reading other than 0, a call without timestamp
    does what a call at that reading does, one reading later. *)
Lemma update_remote_node_unpinned (this : _RemoteExecutionBroadcastNodes.t)
  (node_id : string) (node_data : value) (w : world) :
  (Date_getTime w).1 <> 0 ->
  update_remote_node this node_id node_data None w
  = update_remote_node this node_id node_data (Some (Date_getTime w).1)
      (Date_getTime w).2.
Proof.
  intros Hclock. unfold update_remote_node. rewrite time_now_nonzero by exact Hclock. cbn [_time_now].
  destruct (Date_getTime w) as [clock w1]. reflexivity.
Qed.

Lemma timeout_remote_nodes_unpinned (this : _RemoteExecutionBroadcastNodes.t)
  (w : world) :
  (Date_getTime w).1 <> 0 ->
  timeout_remote_nodes this None w
  = timeout_remote_nodes this (Some (Date_getTime w).1) (Date_getTime w).2.
Proof.
  intros Hclock. unfold timeout_remote_nodes. rewrite time_now_nonzero by exact Hclock. cbn [_time_now].
  destruct (Date_getTime w) as [clock w1]. reflexivity.
Qed.

End RegistryFacts.

Section RegistrySpecification.
Import _RemoteExecutionNode _RemoteExecutionBroadcastNodes.

(** C10.  A timestamp argument of 0 is taken for no timestamp.
    [_time_now] at 0 reads the wall clock, and [update_remote_node] and
    [timeout_remote_nodes] do at 0 what they do at [null].  With the clock
    at a reading other than 0, that is: the update stamps the node with
    that reading, not with 0 (for a node id other than [__proto__], in a
    registry that holds no node named [hasOwnProperty]); the sweep removes
    the nodes that have timed out at that reading and no other (where those
    nodes print); each leaves the clock read once. *)
Theorem zero_timestamp_reads_the_clock (this : _RemoteExecutionBroadcastNodes.t)
  (node_id : string) (node_data : value) (w : world) :
  _time_now (Some 0) w = Date_getTime w
  /\ update_remote_node this node_id node_data (Some 0) w
     = update_remote_node this node_id node_data None w
  /\ timeout_remote_nodes this (Some 0) w = timeout_remote_nodes this None w
  /\ ((Date_getTime w).1 <> 0 ->
      (node_id <> "__proto__" ->
       _remote_nodes this !! "hasOwnProperty" = None ->
       update_remote_node this node_id node_data (Some 0) w
       = (Normal tt,
          {| _remote_nodes :=
               <[node_id := {| data := node_data;
                               _last_pong := (Date_getTime w).1 |}]>
                 (_remote_nodes this) |},
          (Date_getTime w).2))
      /\ ((forall k node,
              _remote_nodes this !! k = Some node ->
              timed_out (Date_getTime w).1 node -> node_prints w node) ->
          timeout_remote_nodes this (Some 0) w
          = ({| _remote_nodes :=
                  filter (fun entry => ~ timed_out (Date_getTime w).1 entry.2)
                    (_remote_nodes this) |},
             (Date_getTime w).2))).
Proof.
  split; [reflexivity |]. split; [reflexivity |]. split; [reflexivity |].
  intros Hclock. split.
  - intros Hplain Hmethod.
    change (update_remote_node this node_id node_data (Some 0) w)
      with (update_remote_node this node_id node_data None w).
    rewrite update_remote_node_unpinned by exact Hclock.
    apply update_remote_node_nonzero; assumption.
  - intros _.
    change (timeout_remote_nodes this (Some 0) w)
      with (timeout_remote_nodes this None w).
    rewrite timeout_remote_nodes_unpinned by exact Hclock.
    apply timeout_remote_nodes_nonzero. exact Hclock.
Qed.

(** *** The heap under the getter *)

Lemma read_after_write (l : loc) (key : string) (v : jsval) (w : world) :
  read_object l (write_property l key v w)
  = set_property (read_object l w) key v.
Proof.
  unfold read_object at 1, write_property. cbn [heap].
  rewrite lookup_insert_eq. reflexivity.
Qed.

Lemma own_property_set (props : list (string * jsval)) (key : string) (v : jsval) :
  own_property (set_property props key v) key = v.
Proof.
  induction props as [| [k x] props IH]; cbn [set_property own_property].
  - rewrite String.eqb_refl. reflexivity.
  - destruct (String.eqb k key) eqn:Hk; cbn [own_property]; rewrite Hk;
      [reflexivity | exact IH].
Qed.

Lemma read_write_other (l l' : loc) (key : string) (v : jsval) (w : world) :
  l <> l' -> read_object l (write_property l' key v w) = read_object l w.
Proof.
  intros Hne. unfold read_object, write_property. cbn [heap].
  rewrite lookup_insert_ne by congruence. reflexivity.
Qed.

Lemma read_alloc_other (l : loc) (props : list (string * jsval)) (w : world) :
  l <> next_loc w -> read_object l (alloc props w).2 = read_object l w.
Proof.
  intros Hne. unfold read_object, alloc. cbn [snd heap].
  rewrite lookup_insert_ne by congruence. reflexivity.
Qed.

(** One turn of the getter's loop: the record, and what it leaves of the
    heap. *)
Lemma remote_nodes_step_spec (records : list loc) (w : world)
  (node_id : string) (node : _RemoteExecutionNode.t) :
  exists (record : loc) (w' : world),
    remote_nodes_step (records, w) (node_id, node) = ((records ++ [record])%list, w')
    /\ record = match data node with VRef l => l | VPrim _ => next_loc w end
    /\ next_loc w' = match data node with
                     | VRef _ => next_loc w
                     | VPrim _ => S (next_loc w)
                     end
    /\ record_node_id w' record = JStr node_id
    /\ forall l, l <> record -> read_object l w' = read_object l w.
Proof.
  unfold remote_nodes_step. destruct (data node) as [p | l]; cbn [new_Object].
  - eexists _, _. split; [reflexivity |]. split; [reflexivity |].
    split; [reflexivity |]. split.
    + unfold record_node_id. rewrite read_after_write. apply own_property_set.
    + intros l Hne. cbn [alloc]. rewrite read_write_other by assumption.
      apply (read_alloc_other l [] w Hne).
  - eexists _, _. split; [reflexivity |]. split; [reflexivity |].
    split; [reflexivity |]. split.
    + unfold record_node_id. rewrite read_after_write. apply own_property_set.
    + intros l' Hne. apply read_write_other. assumption.
Qed.

Lemma remote_nodes_loop_spec (entries : list (string * _RemoteExecutionNode.t)) :
  forall (acc : list loc) (w : world),
    NoDup entries.*1 ->
    (forall k node l, (k, node) ∈ entries -> data node = VRef l -> (l < next_loc w)%nat) ->
    (forall k1 k2 node1 node2 l,
        (k1, node1) ∈ entries -> (k2, node2) ∈ entries ->
        data node1 = VRef l -> data node2 = VRef l -> k1 = k2) ->
    exists (records : list loc) (w' : world),
      foldl remote_nodes_step (acc, w) entries = ((acc ++ records)%list, w')
      /\ Forall2 (fun entry record => record_node_id w' record = JStr entry.1)
           entries records
      /\ (next_loc w <= next_loc w')%nat
      /\ (forall l, l ∉ records -> read_object l w' = read_object l w)
      /\ (forall record, record ∈ records ->
            (exists k node, (k, node) ∈ entries /\ data node = VRef record)
            \/ (next_loc w <= record)%nat).
Proof.
  induction entries as [| [k node] entries IH]; intros acc w Hkeys Hbelow Hown.
  - exists [], w. rewrite app_nil_r.
    split; [reflexivity |]. split; [constructor |]. split; [lia |].
    split; [reflexivity |]. intros record Hin. inversion Hin.
  - cbn [foldl].
    destruct (remote_nodes_step_spec acc w k node)
      as (record & w1 & Hstep & Hrecord & Hnext & Hid & Hframe).
    rewrite Hstep.
    apply NoDup_cons in Hkeys as [Hk Hkeys].
    destruct (IH (acc ++ [record])%list w1 Hkeys) as (records & w' & Hloop & Hids & Hle & Hrest & Hfrom).
    + intros k' node' l Hin Hdata.
      assert (l < next_loc w)%nat
        by (eapply Hbelow; [apply elem_of_cons; right; exact Hin | exact Hdata]).
      rewrite Hnext. destruct (data node); lia.
    + intros k1 k2 node1 node2 l Hin1 Hin2. apply Hown; apply elem_of_cons; right; assumption.
    + assert (Hfresh : record ∉ records).
      { intros Hin. apply Hfrom in Hin as [(k' & node' & Hin & Hdata) | Hge].
        - destruct (data node) as [p | l] eqn:Hnode.
          + subst record.
            assert (next_loc w < next_loc w)%nat; [| lia].
            eapply Hbelow; [apply elem_of_cons; right; exact Hin | exact Hdata].
          + subst record. apply Hk.
            assert (k' = k) as <-.
            { eapply (Hown k' k node' node l); [apply elem_of_cons; right; exact Hin
                                               | apply elem_of_cons; left; reflexivity
                                               | exact Hdata | exact Hnode]. }
            apply list_elem_of_fmap. exists (k', node'). split; [reflexivity | exact Hin].
        - rewrite Hnext in Hge. destruct (data node) as [p | l] eqn:Hnode.
          + subst record. lia.
          + subst record.
            assert (l < next_loc w)%nat; [| lia].
            eapply Hbelow; [apply elem_of_cons; left; reflexivity | exact Hnode]. }
      exists (record :: records), w'. split; [| split; [| split; [| split]]].
      * rewrite Hloop, <- app_assoc. reflexivity.
      * constructor; [| exact Hids]. cbn [fst].
        unfold record_node_id in *. rewrite Hrest by exact Hfresh. exact Hid.
      * rewrite Hnext in Hle. destruct (data node); lia.
      * intros l Hl. apply not_elem_of_cons in Hl as [Hne Hl].
        rewrite Hrest by exact Hl. apply Hframe. exact Hne.
      * intros record' Hin. apply elem_of_cons in Hin as [-> | Hin].
        -- destruct (data node) as [p | l] eqn:Hnode.
           ++ right. subst record. lia.
           ++ left. exists k, node. split; [apply elem_of_cons; left; reflexivity |].
              subst record. exact Hnode.
        -- apply Hfrom in Hin as [(k' & node' & Hin & Hdata) | Hge].
           ++ left. exists k', node'. split; [apply elem_of_cons; right; exact Hin | exact Hdata].
           ++ right. rewrite Hnext in Hge. destruct (data node); lia.
Qed.

Lemma records_for_count (n : string) (w : world)
  (entries : list (string * _RemoteExecutionNode.t)) (records : list loc) :
  Forall2 (fun entry record => record_node_id w record = JStr entry.1) entries records ->
  length (records_for n w records)
  = length (List.filter (fun entry => String.eqb entry.1 n) entries).
Proof.
  unfold records_for.
  induction 1 as [| entry record entries records Hid _ IH]; [reflexivity |].
  cbn [List.filter]. unfold is_record_for at 1. rewrite Hid.
  destruct (String.eqb entry.1 n); cbn [length]; rewrite IH; reflexivity.
Qed.

Lemma one_entry_per_key (n : string) (node : _RemoteExecutionNode.t)
  (entries : list (string * _RemoteExecutionNode.t)) :
  NoDup entries.*1 -> (n, node) ∈ entries ->
  length (List.filter (fun entry => String.eqb entry.1 n) entries) = 1%nat.
Proof.
  induction entries as [| [k node'] entries IH]; intros Hkeys Hin.
  - inversion Hin.
  - apply NoDup_cons in Hkeys as [Hk Hkeys]. cbn [List.filter fst].
    apply elem_of_cons in Hin as [Heq | Hin].
    + injection Heq as <- <-. rewrite String.eqb_refl. cbn [length]. f_equal.
      clear IH Hkeys. induction entries as [| [k' node''] entries IH];
        [reflexivity |].
      cbn [List.filter fst]. destruct (String.eqb_spec k' n) as [-> | _].
      * exfalso. apply Hk. cbn. left.
      * apply IH. intros Hin. apply Hk. cbn. right. exact Hin.
    + destruct (String.eqb_spec k n) as [-> | _]; [| apply IH; assumption].
      exfalso. apply Hk. apply list_elem_of_fmap. exists (n, node).
      split; [reflexivity | exact Hin].
Qed.

Lemma snapshot_one_record_per_node (this : _RemoteExecutionBroadcastNodes.t)
  (w : world) (n : string) (node : _RemoteExecutionNode.t) :
  own_data (_remote_nodes this) w ->
  _remote_nodes this !! n = Some node ->
  length (records_for n (remote_nodes this w).2 (remote_nodes this w).1) = 1%nat
  /\ length (remote_nodes this w).1 = size (_remote_nodes this).
Proof.
  intros [Hbelow Hown] Hnode. unfold remote_nodes.
  destruct (remote_nodes_loop_spec (map_to_list (_remote_nodes this)) [] w)
    as (records & w' & Hloop & Hids & _).
  - apply NoDup_fst_map_to_list.
  - intros k node' l Hin. apply elem_of_map_to_list in Hin. eauto.
  - intros k1 k2 node1 node2 l Hin1 Hin2.
    apply elem_of_map_to_list in Hin1, Hin2. eauto.
  - rewrite Hloop. cbn [fst snd app]. split.
    + rewrite (records_for_count n w' _ _ Hids).
      apply (one_entry_per_key n node); [apply NoDup_fst_map_to_list |].
      apply elem_of_map_to_list. exact Hnode.
    + rewrite <- (Forall2_length _ _ _ Hids). apply length_map_to_list.
Qed.

(** *** Update, snapshot, sweep *)

Lemma machine_WS1_prints (node_id : string) :
  prints (set_property Registry.machine_WS1 "node_id" (JStr node_id))
  /\ prints Registry.machine_WS1.
Proof.
  split; (split; [cbn; rewrite ?not_elem_of_cons;
                  repeat (split; [discriminate |]); apply not_elem_of_nil |]);
    cbn; repeat (apply Forall_cons; split; [eexists; reflexivity |]);
    apply Forall_nil_2.
Qed.

Lemma with_n1_at (now : Z) :
  now <> 0 ->
  Registry.with_n1 (Some now)
  = ({| _remote_nodes := <["n1" := {| data := VRef 0%nat; _last_pong := now |}]> ∅ |},
     0%nat, (alloc Registry.machine_WS1 World.initial).2).
Proof.
  intros Hnow. unfold Registry.with_n1, alloc. cbn [next_loc World.initial].
  rewrite update_remote_node_nonzero by (assumption || discriminate || reflexivity).
  reflexivity.
Qed.

Lemma with_n1_prints (now : option Z) (stamp : Z) :
  node_prints (write_property 0%nat "node_id" (JStr "n1") (Registry.with_n1 now).2)
    {| data := VRef 0%nat; _last_pong := stamp |}
  /\ node_prints (Registry.with_n1 now).2 {| data := VRef 0%nat; _last_pong := stamp |}.
Proof.
  unfold node_prints, attributes. cbn [data].
  assert (Hread : read_object 0%nat (Registry.with_n1 now).2 = Registry.machine_WS1).
  { unfold Registry.with_n1, update_remote_node, _RemoteExecutionNode.new, _time_now.
    destruct now as [[| p | p] |]; reflexivity. }
  rewrite read_after_write, Hread. apply machine_WS1_prints.
Qed.

Lemma own_data_first_node (node_id : string) (node : _RemoteExecutionNode.t)
  (w : world) :
  (forall l, data node = VRef l -> (l < next_loc w)%nat) ->
  own_data (<[node_id := node]> ∅) w.
Proof.
  intros Hbelow. split.
  - intros k node' l Hlookup Hdata.
    apply lookup_insert_Some in Hlookup as [[_ <-] | [_ Hempty]];
      [apply Hbelow; exact Hdata | rewrite lookup_empty in Hempty; discriminate].
  - intros k1 k2 node1 node2 l Hlookup1 Hlookup2 _ _.
    apply lookup_insert_Some in Hlookup1 as [[<- _] | [_ Hempty]];
      [| rewrite lookup_empty in Hempty; discriminate].
    apply lookup_insert_Some in Hlookup2 as [[<- _] | [_ Hempty]];
      [reflexivity | rewrite lookup_empty in Hempty; discriminate].
Qed.


Lemma zero_timestamp_reads_the_clock_witness :
  let registry := (Registry.with_n1 (Some 1)).1.1 in
  let w := (Registry.with_n1 (Some 1)).2 in
  ((Date_getTime w).1 <> 0
   /\ "n2" <> "__proto__"
   /\ _remote_nodes registry !! "hasOwnProperty" = None)
  /\ (forall k node,
        _remote_nodes registry !! k = Some node ->
        timed_out (Date_getTime w).1 node -> node_prints w node)
  /\ (Date_getTime w).1 = 1700000000000
  /\ _remote_nodes registry !! "n1" = Some {| data := VRef 0%nat; _last_pong := 1 |}
  /\ update_remote_node registry "n2" (VPrim PNull) (Some 0) w
     = (Normal tt,
        {| _remote_nodes :=
             <["n2" := {| data := VPrim PNull; _last_pong := 1700000000000 |}]>
               (_remote_nodes registry) |},
        (Date_getTime w).2)
  /\ timeout_remote_nodes registry (Some 0) w
     = (_RemoteExecutionBroadcastNodes.new, (Date_getTime w).2).
Proof.
  intros registry w.
  assert (Hprints : forall k node,
             _remote_nodes registry !! k = Some node ->
             timed_out (Date_getTime w).1 node -> node_prints w node).
  { intros k node Hk _. subst registry w.
    rewrite with_n1_at in Hk by discriminate. cbn [fst _remote_nodes] in Hk.
    apply lookup_insert_Some in Hk as [[_ <-] | [_ Hempty]];
      [| rewrite lookup_empty in Hempty; discriminate].
    apply with_n1_prints. }
  pose proof (zero_timestamp_reads_the_clock registry "n2" (VPrim PNull) w)
    as (_ & _ & _ & Hzero).
  destruct (Hzero ltac:(discriminate)) as [Hupdate Hsweep].
  split; [repeat split; discriminate |].
  split; [exact Hprints |].
  split; [reflexivity |]. split; [reflexivity |].
  split; [exact (Hupdate ltac:(discriminate) eq_refl) |].
  rewrite (Hsweep Hprints). vm_compute. reflexivity.
Defined.



(** The same for every registry and every clock past 1970. *)
Lemma upsert_at_zero_outlives_sweep (this : _RemoteExecutionBroadcastNodes.t)
  (node_id : string) (node_data : value) (w : world) :
  0 < wall_clock w (clock_reads w) ->
  node_id <> "__proto__" ->
  _remote_nodes this !! "hasOwnProperty" = None ->
  let registry := (update_remote_node this node_id node_data (Some 0) w).1.2 in
  _remote_nodes
    (timeout_remote_nodes registry (Some (0 + _NODE_TIMEOUT_SECONDS + 1)) w).1
    !! node_id
  = Some {| data := node_data; _last_pong := wall_clock w (clock_reads w) |}.
Proof.
  intros Hclock Hplain Hmethod registry. subst registry.
  rewrite timeout_remote_nodes_nonzero by discriminate. cbn [fst _remote_nodes].
  change (update_remote_node this node_id node_data (Some 0) w)
    with (update_remote_node this node_id node_data None w).
  rewrite update_remote_node_unpinned by (cbn; lia).
  rewrite update_remote_node_nonzero by (cbn; assumption || lia).
  cbn [fst snd _remote_nodes Date_getTime].
  apply map_lookup_filter_Some. split; [apply lookup_insert_eq |].
  unfold timed_out. cbn. lia.
Qed.

(** *** The getter and the stored objects *)

(** The getter hands out, for every node whose data is an object, that
    very object. *)
Lemma remote_nodes_loop_keeps (entries : list (string * _RemoteExecutionNode.t))
  (records : list loc) (w : world) (l : loc) :
  l ∈ records -> l ∈ (foldl remote_nodes_step (records, w) entries).1.
Proof.
  revert records w.
  induction entries as [| [node_id node] entries IH]; intros records w Hin;
    [exact Hin |].
  cbn [foldl]. unfold remote_nodes_step at 2.
  destruct (new_Object (data node) w) as [record w'].
  apply IH. apply elem_of_app. left. exact Hin.
Qed.

Lemma remote_nodes_loop_aliases (entries : list (string * _RemoteExecutionNode.t))
  (records : list loc) (w : world) (node_id : string)
  (node : _RemoteExecutionNode.t) (l : loc) :
  (node_id, node) ∈ entries -> data node = VRef l ->
  l ∈ (foldl remote_nodes_step (records, w) entries).1.
Proof.
  revert records w.
  induction entries as [| entry entries IH]; intros records w Hin Hdata.
  - inversion Hin.
  - cbn [foldl]. apply elem_of_cons in Hin as [<- | Hin].
    + unfold remote_nodes_step at 2. rewrite Hdata. cbn [new_Object].
      apply remote_nodes_loop_keeps. apply elem_of_app. right.
      apply list_elem_of_singleton. reflexivity.
    + destruct (remote_nodes_step (records, w) entry) as [records' w'].
      apply IH; assumption.
Qed.

(** C8.  For a node whose data is an object, the record the getter
    returns for it is that object itself, not a copy: a write to the
    returned record is read back through the registry's own reference. *)
Theorem snapshot_aliases_node_data (this : _RemoteExecutionBroadcastNodes.t)
  (w : world) (node_id : string) (node : _RemoteExecutionNode.t) (l : loc)
  (key : string) (v : jsval) :
  _remote_nodes this !! node_id = Some node ->
  data node = VRef l ->
  let '(records, w') := remote_nodes this w in
  VRef l = data node
  /\ l ∈ records
  /\ own_property (read_object l (write_property l key v w')) key = v.
Proof.
  intros Hnode Hdata.
  destruct (remote_nodes this w) as [records w'] eqn:Hsnapshot.
  split; [symmetry; exact Hdata |]. split.
  - change records with (records, w').1. rewrite <- Hsnapshot.
    unfold remote_nodes.
    apply (remote_nodes_loop_aliases _ _ _ node_id node); [| exact Hdata].
    apply elem_of_map_to_list. exact Hnode.
  - rewrite read_after_write. apply own_property_set.
Qed.

End RegistrySpecification.

Lemma snapshot_aliases_node_data_witness :
  let registry := (Registry.with_n1 None).1.1 in
  let w := (Registry.with_n1 None).2 in
  let node :=
    {| _RemoteExecutionNode.data := VRef 0%nat;
       _RemoteExecutionNode._last_pong := 1700000000000 |} in
  (_RemoteExecutionBroadcastNodes._remote_nodes registry !! "n1" = Some node
   /\ _RemoteExecutionNode.data node = VRef 0%nat)
  /\ (let '(records, w') :=
        _RemoteExecutionBroadcastNodes.remote_nodes registry w in
      VRef 0%nat = _RemoteExecutionNode.data node
      /\ 0%nat ∈ records
      /\ own_property
           (read_object 0%nat (write_property 0%nat "machine" (JStr "changed") w'))
           "machine"
         = JStr "changed")
  /\ read_object 0%nat w = Registry.machine_WS1
  /\ read_object 0%nat
       (write_property 0%nat "machine" (JStr "changed")
          (_RemoteExecutionBroadcastNodes.remote_nodes registry w).2)
     = [("machine", JStr "changed"); ("node_id", JStr "n1")].
Proof.
  intros registry w node.
  split; [split; reflexivity |].
  split; [| split; vm_compute; reflexivity].
  exact (snapshot_aliases_node_data registry w "n1" node 0%nat
           "machine" (JStr "changed") eq_refl eq_refl).
Defined.

(** ** The discovery connection *)

Section DiscoveryFacts.
Context `{Runtime}.
Import _RemoteExecutionNode _RemoteExecutionBroadcastNodes.

Lemma time_now_next_loc (now : option Z) (w : world) :
  next_loc (_time_now now w).2 = next_loc w.
Proof.
  unfold _time_now. destruct now as [n |]; [destruct (Z.eqb n 0) |]; reflexivity.
Qed.

Lemma time_now_heap (now : option Z) (w : world) :
  heap (_time_now now w).2 = heap w.
Proof.
  unfold _time_now. destruct now as [n |]; [destruct (Z.eqb n 0) |]; reflexivity.
Qed.

Lemma own_data_later (nodes : gmap string _RemoteExecutionNode.t) (w w' : world) :
  (next_loc w <= next_loc w')%nat -> own_data nodes w -> own_data nodes w'.
Proof.
  intros Hle [Hbelow Hown]. split; [| exact Hown].
  intros k node l Hk Hdata. specialize (Hbelow k node l Hk Hdata). lia.
Qed.

Lemma own_data_subset (nodes nodes' : gmap string _RemoteExecutionNode.t) (w : world) :
  nodes' ⊆ nodes -> own_data nodes w -> own_data nodes' w.
Proof.
  intros Hsub [Hbelow Hown]. split.
  - intros k node l Hk. apply (Hbelow k). eapply lookup_weaken; eassumption.
  - intros k1 k2 node1 node2 l Hk1 Hk2.
    apply (Hown k1 k2); eapply lookup_weaken; eassumption.
Qed.

Lemma own_data_empty (w : world) : own_data ∅ w.
Proof.
  split.
  - intros k node l Hk. rewrite lookup_empty in Hk. discriminate.
  - intros k1 k2 node1 node2 l Hk. rewrite lookup_empty in Hk. discriminate.
Qed.

(** A node comes with a primitive, or with an object allocated after all
    the others. *)
Lemma own_data_insert (nodes : gmap string _RemoteExecutionNode.t) (w w' : world)
  (k : string) (node : _RemoteExecutionNode.t) :
  own_data nodes w ->
  (forall l, data node = VRef l -> l = next_loc w) ->
  (next_loc w < next_loc w')%nat ->
  own_data (<[k := node]> nodes) w'.
Proof.
  intros [Hbelow Hown] Hfresh Hlt. split.
  - intros k' node' l Hk Hdata.
    apply lookup_insert_Some in Hk as [[_ <-] | [_ Hk]].
    + rewrite (Hfresh l Hdata). exact Hlt.
    + specialize (Hbelow k' node' l Hk Hdata). lia.
  - intros k1 k2 node1 node2 l Hk1 Hk2 Hdata1 Hdata2.
    apply lookup_insert_Some in Hk1 as [[<- <-] | [Hne1 Hk1]];
      apply lookup_insert_Some in Hk2 as [[<- <-] | [Hne2 Hk2]].
    + reflexivity.
    + specialize (Hbelow k2 node2 l Hk2 Hdata2). rewrite (Hfresh l Hdata1) in Hbelow. lia.
    + specialize (Hbelow k1 node1 l Hk1 Hdata1). rewrite (Hfresh l Hdata2) in Hbelow. lia.
    + exact (Hown k1 k2 node1 node2 l Hk1 Hk2 Hdata1 Hdata2).
Qed.

Lemma own_data_insert_primitive (nodes : gmap string _RemoteExecutionNode.t)
  (w : world) (k : string) (node : _RemoteExecutionNode.t) (p : primitive) :
  own_data nodes w -> data node = VPrim p -> own_data (<[k := node]> nodes) w.
Proof.
  intros [Hbelow Hown] Hprim. split.
  - intros k' node' l Hk Hdata.
    apply lookup_insert_Some in Hk as [[_ <-] | [_ Hk]]; [congruence |].
    exact (Hbelow k' node' l Hk Hdata).
  - intros k1 k2 node1 node2 l Hk1 Hk2 Hdata1 Hdata2.
    apply lookup_insert_Some in Hk1 as [[<- <-] | [Hne1 Hk1]]; [congruence |].
    apply lookup_insert_Some in Hk2 as [[<- <-] | [Hne2 Hk2]]; [congruence |].
    exact (Hown k1 k2 node1 node2 l Hk1 Hk2 Hdata1 Hdata2).
Qed.

Lemma update_remote_node_spec (this : _RemoteExecutionBroadcastNodes.t)
  (node_id : string) (node_data : value) (now : option Z) (w : world) :
  exists (r : completion unit) (registry : _RemoteExecutionBroadcastNodes.t)
         (w' : world),
    update_remote_node this node_id node_data now w = (r, registry, w')
    /\ next_loc w' = next_loc w
    /\ heap w' = heap w
    /\ (registry = this
        \/ exists stamp,
             registry
             = {| _remote_nodes :=
                    <[node_id := {| data := node_data; _last_pong := stamp |}]>
                      (_remote_nodes this) |}).
Proof.
  unfold update_remote_node, _RemoteExecutionNode.new.
  pose proof (time_now_next_loc now w) as Hfirst.
  pose proof (time_now_heap now w) as Hfirst'.
  destruct (_time_now now w) as [_now w1]. cbn [snd] in Hfirst, Hfirst'.
  case_bool_decide.
  { eexists _, _, _. split; [reflexivity |]. split; [exact Hfirst |].
    split; [exact Hfirst' |]. left. reflexivity. }
  pose proof (time_now_next_loc (Some _now) w1) as Hsecond.
  pose proof (time_now_heap (Some _now) w1) as Hsecond'.
  destruct (_time_now (Some _now) w1) as [stamp w2]. cbn [snd] in Hsecond, Hsecond'.
  destruct (String.eqb node_id "__proto__");
    (eexists _, _, _; split; [reflexivity |]; split; [congruence |];
     split; [congruence |]).
  - left. reflexivity.
  - right. exists stamp. reflexivity.
Qed.

Lemma timeout_loop_subset (now : Z)
  (entries : list (string * _RemoteExecutionNode.t))
  (nodes : gmap string _RemoteExecutionNode.t) (w : world) :
  (foldl (timeout_step now) (nodes, w) entries).1 ⊆ nodes
  /\ next_loc (foldl (timeout_step now) (nodes, w) entries).2 = next_loc w.
Proof.
  revert nodes w. induction entries as [| [k node] entries IH]; intros nodes w.
  - split; reflexivity.
  - cbn [foldl]. unfold timeout_step at 2 4, should_timeout.
    pose proof (time_now_next_loc (Some now) w) as Hclock.
    destruct (_time_now (Some now) w) as [stamp w1]. cbn [snd] in Hclock.
    destruct (IH (if Z.ltb (_last_pong node + _NODE_TIMEOUT_SECONDS) stamp
                  then delete k nodes else nodes) w1) as [Hsub Hnext].
    split; [| congruence].
    etransitivity; [exact Hsub |].
    destruct (Z.ltb _ _); [apply delete_subseteq | reflexivity].
Qed.

Lemma timeout_remote_nodes_subset (this : _RemoteExecutionBroadcastNodes.t)
  (now : option Z) (w : world) :
  _remote_nodes (timeout_remote_nodes this now w).1 ⊆ _remote_nodes this
  /\ next_loc (timeout_remote_nodes this now w).2 = next_loc w.
Proof.
  unfold timeout_remote_nodes.
  pose proof (time_now_next_loc now w) as Hclock.
  destruct (_time_now now w) as [_now w1]. cbn [snd] in Hclock.
  pose proof (timeout_loop_subset _now (map_to_list (_remote_nodes this))
                (_remote_nodes this) w1) as [Hsub Hnext].
  destruct (foldl _ _ _) as [nodes w2]. cbn [fst snd _remote_nodes] in *.
  split; [exact Hsub | congruence].
Qed.

Lemma remote_nodes_loop_next_loc (entries : list (string * _RemoteExecutionNode.t))
  (records : list loc) (w : world) :
  (next_loc w <= next_loc (foldl remote_nodes_step (records, w) entries).2)%nat.
Proof.
  revert records w. induction entries as [| [k node] entries IH]; intros records w;
    [reflexivity |].
  cbn [foldl]. unfold remote_nodes_step at 2.
  destruct (data node) as [p | l]; cbn [new_Object alloc];
    etransitivity; [| apply IH | | apply IH]; cbn; lia.
Qed.

Lemma parsed_value_spec (v : jsval) (w : world) :
  (exists p, parsed_value v w = (VPrim p, w))
  \/ (exists w', parsed_value v w = (VRef (next_loc w), w')
                 /\ next_loc w' = S (next_loc w)).
Proof.
  destruct v; cbn [parsed_value alloc]; eauto.
Qed.

Lemma handle_pong_keeps_own_data (this : _RemoteExecutionBroadcastConnection.t)
  (message : _RemoteExecutionMessage.t) (w : world) :
  holds_own_data (this, w) ->
  holds_own_data
    ((_RemoteExecutionBroadcastConnection._handle_pong_message this message w).1.2,
     (_RemoteExecutionBroadcastConnection._handle_pong_message this message w).2).
Proof.
  unfold holds_own_data, _RemoteExecutionBroadcastConnection._handle_pong_message.
  cbn [fst snd].
  destruct (_RemoteExecutionBroadcastConnection._nodes this) as [nodes |] eqn:Hnodes;
    [| cbn [fst snd]; rewrite Hnodes; trivial].
  intros Hown.
  destruct (ToString (_RemoteExecutionMessage.source message)) as [key | e].
  2: { cbn [fst snd]. rewrite Hnodes.
       apply (own_data_later _ w); [| exact Hown].
       rewrite time_now_next_loc. lia. }
  destruct (parsed_value_spec (_RemoteExecutionMessage.data message) w)
    as [(p & ->) | (w1 & -> & Hnext1)].
  - destruct (update_remote_node_spec nodes key (VPrim p) None w)
      as (r & registry & w2 & -> & Hnext2 & _ & [-> | (stamp & ->)]);
      cbn [fst snd _RemoteExecutionBroadcastConnection.set_nodes
             _RemoteExecutionBroadcastConnection._nodes _remote_nodes];
      (apply (own_data_later _ w); [lia |]); [exact Hown |].
    apply (own_data_insert_primitive _ _ _ _ p); [exact Hown | reflexivity].
  - destruct (update_remote_node_spec nodes key (VRef (next_loc w)) None w1)
      as (r & registry & w2 & -> & Hnext2 & _ & [-> | (stamp & ->)]);
      cbn [fst snd _RemoteExecutionBroadcastConnection.set_nodes
             _RemoteExecutionBroadcastConnection._nodes _remote_nodes].
    + apply (own_data_later _ w); [lia | exact Hown].
    + apply (own_data_insert _ w); [exact Hown | | lia].
      intros l [= <-]. reflexivity.
Qed.

Lemma broadcast_ping_frame (this : _RemoteExecutionBroadcastConnection.t)
  (now : option Z) (w : world) :
  _RemoteExecutionBroadcastConnection._nodes
    (_RemoteExecutionBroadcastConnection._broadcast_ping this now w).1.2
  = _RemoteExecutionBroadcastConnection._nodes this
  /\ next_loc (_RemoteExecutionBroadcastConnection._broadcast_ping this now w).2
     = next_loc w.
Proof.
  unfold _RemoteExecutionBroadcastConnection._broadcast_ping.
  pose proof (time_now_next_loc now w) as Hclock.
  destruct (_time_now now w) as [_now w1]. cbn [snd] in Hclock.
  destruct (_ || _); [| split; [reflexivity | exact Hclock]].
  unfold _RemoteExecutionBroadcastConnection._broadcast_message.
  cbn [_RemoteExecutionBroadcastConnection._broadcast_socket
         _RemoteExecutionBroadcastConnection.set_last_ping].
  destruct (_RemoteExecutionBroadcastConnection._broadcast_socket this);
    split; try reflexivity; exact Hclock.
Qed.

Lemma step_keeps_own_data (state : _RemoteExecutionBroadcastConnection.t * world)
  (e : Discovery.event) :
  holds_own_data state -> holds_own_data (Discovery.step state e).
Proof.
  destruct state as [this w]. intros Hown. destruct e as [data | |];
    cbn [Discovery.step].
  - unfold _RemoteExecutionBroadcastConnection._handle_data.
    destruct (_RemoteExecutionMessage.from_json_bytes _ data) as [[parsed message] ?].
    destruct parsed; [| exact Hown].
    unfold _RemoteExecutionBroadcastConnection._handle_message.
    destruct (_RemoteExecutionMessage.passes_receive_filter _ _) as [[|] | e];
      try exact Hown.
    destruct (loose_eq_str _ _) as [[|] | e]; try exact Hown.
    pose proof (handle_pong_keeps_own_data this message w Hown) as Hpong.
    destruct (_RemoteExecutionBroadcastConnection._handle_pong_message this message w)
      as [[r this'] w'].
    exact Hpong.
  - unfold _RemoteExecutionBroadcastConnection.on_interval.
    pose proof (time_now_next_loc None w) as Hclock.
    destruct (_time_now None w) as [now w1]. cbn [snd] in Hclock.
    pose proof (broadcast_ping_frame this (Some now) w1) as [Hnodes Hnext].
    destruct (_RemoteExecutionBroadcastConnection._broadcast_ping this (Some now) w1)
      as [[r this1] w2]. cbn [fst snd] in Hnodes, Hnext.
    assert (Hw2 : holds_own_data (this1, w2)).
    { unfold holds_own_data in *. cbn [fst snd] in *. rewrite Hnodes.
      destruct (_RemoteExecutionBroadcastConnection._nodes this); [| exact I].
      apply (own_data_later _ w); [lia | exact Hown]. }
    destruct r as [[] | error]; [| exact Hw2].
    unfold holds_own_data in Hw2. cbn [fst snd] in Hw2.
    destruct (_RemoteExecutionBroadcastConnection._nodes this1) as [nodes |] eqn:Hthis1.
    + pose proof (timeout_remote_nodes_subset nodes (Some now) w2) as [Hsub Hnext'].
      destruct (timeout_remote_nodes nodes (Some now) w2) as [nodes' w3].
      unfold holds_own_data.
      cbn [fst snd _RemoteExecutionBroadcastConnection.set_nodes
             _RemoteExecutionBroadcastConnection._nodes] in *.
      apply (own_data_later _ w2); [lia |].
      apply (own_data_subset _ _ _ Hsub). exact Hw2.
    + unfold holds_own_data. cbn [fst snd]. rewrite Hthis1. exact I.
  - unfold holds_own_data in *. cbn [fst snd] in *.
    unfold _RemoteExecutionBroadcastConnection.remote_nodes.
    destruct (_RemoteExecutionBroadcastConnection._nodes this) as [nodes |];
      [| exact I].
    apply (own_data_later _ w); [| exact Hown].
    apply remote_nodes_loop_next_loc.
Qed.

(** In a registry fed by the discovery connection, every node has a data
    object of its own. *)
Theorem discovery_own_data (config : RemoteExecutionConfig.t) (node_id : string)
  (w : world) (events : list Discovery.event) :
  holds_own_data (Discovery.after config node_id w events).
Proof.
  unfold Discovery.after.
  induction events as [| e events IH] using rev_ind.
  - apply own_data_empty.
  - rewrite foldl_snoc. apply step_keeps_own_data. exact IH.
Qed.

End DiscoveryFacts.

(** ** The command connection *)

Section ConnectionFacts.
Context `{Runtime}.
Import _RemoteExecutionCommandConnection.

Lemma try_accept_first_turn (this : t) (remaining : nat)
  (broadcast_connection : option _RemoteExecutionBroadcastConnection.t) :
  is_Some (_command_listen_socket this) ->
  _try_accept_loop (S remaining) this broadcast_connection
  = call_on broadcast_connection
      (fun bc => _RemoteExecutionBroadcastConnection.broadcast_open_connection
                   bc (_remote_node_id this)).
Proof.
  intros Hlistening. cbn [_try_accept_loop].
  destruct (call_on broadcast_connection _) as [[[] | e] connection];
    [| reflexivity].
  rewrite bool_decide_eq_true_2 by assumption. reflexivity.
Qed.

(** No method and no callback ever assigns [_result]. *)
Lemma step_keeps_result (this : t) (e : Channel.event) :
  _result (Channel.step this e) = _result this.
Proof.
  destruct e as [bc | accepted | data | bc]; cbn [Channel.step].
  - unfold open. destruct (_try_accept _ _). reflexivity.
  - reflexivity.
  - unfold on_data. destruct (_receive_message _ _ _); reflexivity.
  - unfold close. destruct (call_on bc _) as [[[] | e] ?]; reflexivity.
Qed.

Lemma after_has_no_result (config : RemoteExecutionConfig.t)
  (node_id remote_node_id : string) (events : list Channel.event) :
  _result (Channel.after config node_id remote_node_id events) = None.
Proof.
  unfold Channel.after.
  induction events as [| e events IH] using rev_ind; [reflexivity |].
  rewrite foldl_snoc, step_keeps_result. exact IH.
Qed.

Lemma wait_without_result (fuel : nat) (this : t) :
  _result this = None -> wait_for_result fuel this = (Spins, this).
Proof.
  intros Hresult. induction fuel as [| fuel IH]; cbn [wait_for_result];
    [reflexivity |].
  rewrite Hresult. exact IH.
Qed.

Lemma run_command_without_result (fuel : nat) (this : t)
  (command : string) (unattended : bool) (exec_mode : string) :
  _result this = None ->
  (run_command fuel this command unattended exec_mode).1
  = match _command_channel_socket this with
    | Some _ => Spins
    | None => Throws TypeError
    end.
Proof.
  intros Hresult. unfold run_command, _send_message.
  destruct (_command_channel_socket this) as [channel |]; [| reflexivity].
  rewrite wait_without_result by exact Hresult. reflexivity.
Qed.

End ConnectionFacts.

Section ConnectionSpecification.
Context `{Runtime}.
Import _RemoteExecutionCommandConnection.

(** C1.  [open] never ends in the time-out error and never gives the
    listener back.  With a discovery socket to broadcast on it returns
    normally after one broadcast, the accepted socket being what it was
    before the call ([null] on a new connection): the test that ends the
    loop looks at the listener, which [open] has just made, where the
    method's comment speaks of waiting for a connection in six attempts. *)
Theorem open_returns_without_accept (this : t)
  (broadcast_connection : option _RemoteExecutionBroadcastConnection.t) :
  let '(outcome, opened, broadcast_connection') := open this broadcast_connection in
  outcome
  = match broadcast_connection
          ≫= _RemoteExecutionBroadcastConnection._broadcast_socket with
    | Some _ => Normal tt
    | None => Throw TypeError
    end
  /\ outcome <> Throw failed_to_attempt_connection
  /\ _command_channel_socket opened = _command_channel_socket this
  /\ is_Some (_command_listen_socket opened)
  /\ broadcast_connection'
     = (call_on broadcast_connection
          (fun bc => _RemoteExecutionBroadcastConnection.broadcast_open_connection
                       bc (_remote_node_id this))).2.
Proof.
  unfold open, _try_accept.
  rewrite try_accept_first_turn by (cbn; eauto).
  destruct broadcast_connection as [bc |]; cbn [call_on mbind option_bind].
  - unfold _RemoteExecutionBroadcastConnection.broadcast_open_connection,
      _RemoteExecutionBroadcastConnection._broadcast_message.
    destruct (_RemoteExecutionBroadcastConnection._broadcast_socket bc);
      cbn; repeat split; eauto; discriminate.
  - cbn. repeat split; eauto; discriminate.
Qed.

(** C3.  On a connection brought about by any run of events, [run_command]
    never returns and never times out: with an accepted socket it writes
    the command and then turns in its loop for as much fuel as it is given,
    because nothing ever stores a result; without one it throws on the
    write. *)
Theorem run_command_never_returns (config : RemoteExecutionConfig.t)
  (node_id remote_node_id : string) (events : list Channel.event)
  (fuel : nat) (command : string) (unattended : bool) (exec_mode : string) :
  let this := Channel.after config node_id remote_node_id events in
  let '(outcome, this') := run_command fuel this command unattended exec_mode in
  outcome
  = match _command_channel_socket this with
    | Some _ => Spins
    | None => Throws TypeError
    end
  /\ _command_channel_socket this'
     = (fun channel : socket =>
          {| written :=
               written channel ++
               [_RemoteExecutionMessage.to_json
                  (_RemoteExecutionMessage.new
                     (JStr _TYPE_COMMAND) (JStr (_node_id this))
                     (JStr (_remote_node_id this))
                     (JObj [("command", JStr command);
                            ("unattended", JBool unattended);
                            ("exec_mode", JStr exec_mode)]))] |})
       <$> _command_channel_socket this.
Proof.
  intros this.
  pose proof (after_has_no_result config node_id remote_node_id events) as Hresult.
  fold this in Hresult.
  unfold run_command, _send_message.
  destruct (_command_channel_socket this) as [channel |] eqn:Hchannel.
  - rewrite wait_without_result by exact Hresult. split; reflexivity.
  - split; [reflexivity |]. exact Hchannel.
Qed.

(** The test the facade applies to a result it has been handed. *)
Lemma run_command_check_object (raise_on_failure : bool)
  (props : list (string * jsval)) :
  RemoteExecution.run_command_check raise_on_failure (JObj props)
  = if raise_on_failure && negb (truthy (own_property props "success"))
    then Throw (remote_command_failed (own_property props "result"))
    else Normal (JObj props).
Proof.
  unfold RemoteExecution.run_command_check.
  destruct raise_on_failure; [| reflexivity]. cbn.
  destruct (truthy (own_property props "success")); reflexivity.
Qed.

(** C9.  The facade's [run_command] never gets to its test of
    [raise_on_failure]: on a command connection brought about by any run of
    events the call it makes first does not return, so the facade neither
    throws the failure of the remote command nor returns a result. *)
Theorem facade_run_command_never_returns (config : RemoteExecutionConfig.t)
  (broadcast_connection : option _RemoteExecutionBroadcastConnection.t)
  (node_id remote_node_id : string) (events : list Channel.event)
  (fuel : nat) (command : string) (unattended : bool) (exec_mode : string)
  (raise_on_failure : bool) :
  let connection := Channel.after config node_id remote_node_id events in
  let this :=
    {| RemoteExecution._config := config;
       RemoteExecution._broadcast_connection := broadcast_connection;
       RemoteExecution._command_connection := Some connection;
       RemoteExecution._node_id := node_id |} in
  (RemoteExecution.run_command fuel this command unattended exec_mode
     raise_on_failure).1
  = match _command_channel_socket connection with
    | Some _ => Spins
    | None => Throws TypeError
    end.
Proof.
  intros connection this. unfold RemoteExecution.run_command.
  cbn [RemoteExecution._command_connection this].
  pose proof (run_command_without_result fuel connection command unattended
                exec_mode (after_has_no_result _ _ _ _)) as Hrun.
  destruct (run_command fuel connection command unattended exec_mode)
    as [outcome connection'].
  cbn [fst] in Hrun. subst outcome.
  destruct (_command_channel_socket connection); reflexivity.
Qed.

End ConnectionSpecification.

(** ** The scenarios, run *)

Section Scenarios.
#[local] Existing Instance Reference.runtime.

(** Scenario C: the session is started, node [n1] never dials back.
    [open] returns normally, holds the listener, has no accepted socket,
    and has broadcast once. *)
Example scenario_C_open_without_peer :
  let this := _RemoteExecutionCommandConnection.new RemoteExecutionConfig.new "local" "n1" in
  let '(outcome, opened, broadcast_connection) :=
    _RemoteExecutionCommandConnection.open this (Some Channel.discovery) in
  outcome = Normal tt
  /\ _RemoteExecutionCommandConnection._command_channel_socket opened = None
  /\ _RemoteExecutionCommandConnection._command_listen_socket opened
     = Some {| _RemoteExecutionCommandConnection.listen_port := 6776;
               _RemoteExecutionCommandConnection.listen_host := "127.0.0.1";
               _RemoteExecutionCommandConnection.listen_backlog := 1 |}
  /\ (_RemoteExecutionBroadcastConnection.sent
        <$> (broadcast_connection
               ≫= _RemoteExecutionBroadcastConnection._broadcast_socket))
     = Some
         [{| _RemoteExecutionBroadcastConnection.dgram_data :=
               Reference.wire
                 "{'version':1,'magic':'ue_py','type':'open_connection','source':'local','dest':'n1','data':{'command_ip':'127.0.0.1','command_port':6776}}";
             _RemoteExecutionBroadcastConnection.dgram_port := 6766;
             _RemoteExecutionBroadcastConnection.dgram_address := "239.0.0.1" |}].
Proof. repeat split. Qed.

(** Scenario D: the mocked socket is accepted and the result frame has
    arrived, in the specification's form or in the codec's; the call spins
    on any fuel. *)
Example scenario_D_execute_spins (fuel : nat) :
  (_RemoteExecutionCommandConnection.run_command fuel
     (Channel.after RemoteExecutionConfig.new "local" "n1"
        (Channel.scenario (Channel.result_frame_of_the_spec "true")))
     "print(1)" true MODE_EVAL_STATEMENT).1
  = _RemoteExecutionCommandConnection.Spins
  /\ (_RemoteExecutionCommandConnection.run_command fuel
        (Channel.after RemoteExecutionConfig.new "local" "n1"
           (Channel.scenario (Channel.result_frame true)))
        "print(1)" true MODE_EVAL_STATEMENT).1
     = _RemoteExecutionCommandConnection.Spins.
Proof.
  split;
    rewrite run_command_without_result by apply after_has_no_result;
    reflexivity.
Qed.

(** The result frame does reach [_receive_message], which accepts the
    codec's form and refuses the specification's; either way the message
    goes nowhere. *)
Example scenario_D_frame_is_dropped :
  let this :=
    Channel.after RemoteExecutionConfig.new "local" "n1"
      [Channel.Opened (Some Channel.discovery); Channel.Accepted Channel.mock_socket] in
  _RemoteExecutionCommandConnection._receive_message this
    (Some (Channel.result_frame true)) _TYPE_COMMAND_RESULT
  = Normal (Scenario.command_result true "1")
  /\ _RemoteExecutionCommandConnection.on_data this (Channel.result_frame true)
     = (Normal tt, this)
  /\ _RemoteExecutionCommandConnection.on_data this
       (Channel.result_frame_of_the_spec "true")
     = (Throw failed_to_send_valid_response, this).
Proof. repeat split. Qed.

(** Scenario E: as D with a failed command and [raise_on_failure]. *)
Example scenario_E_execute_spins (fuel : nat) :
  (RemoteExecution.run_command fuel
     {| RemoteExecution._config := RemoteExecutionConfig.new;
        RemoteExecution._broadcast_connection := Some Channel.discovery;
        RemoteExecution._command_connection :=
          Some (Channel.after RemoteExecutionConfig.new "local" "n1"
                  (Channel.scenario (Channel.result_frame false)));
        RemoteExecution._node_id := "local" |}
     "print(1)" true MODE_EVAL_STATEMENT true).1
  = _RemoteExecutionCommandConnection.Spins.
Proof.
  unfold RemoteExecution.run_command. cbn [RemoteExecution._command_connection].
  pose proof (run_command_without_result fuel
                (Channel.after RemoteExecutionConfig.new "local" "n1"
                   (Channel.scenario (Channel.result_frame false)))
                "print(1)" true MODE_EVAL_STATEMENT
                (after_has_no_result _ _ _ _)) as Hrun.
  destruct (_RemoteExecutionCommandConnection.run_command _ _ _ _ _)
    as [outcome connection].
  cbn [fst] in Hrun. subst outcome. reflexivity.
Qed.

(** Scenario B, with the pong stamped 0 and with the pong stamped 1. *)
Example scenario_B_sweep :
  _RemoteExecutionBroadcastNodes._remote_nodes
    (_RemoteExecutionBroadcastNodes.timeout_remote_nodes
       (Registry.with_n1 (Some 0)).1.1 (Some 5001) (Registry.with_n1 (Some 0)).2).1
    !! "n1"
  = Some {| _RemoteExecutionNode.data := VRef 0%nat;
            _RemoteExecutionNode._last_pong := 1700000000000 |}
  /\ _RemoteExecutionBroadcastNodes._remote_nodes
       (_RemoteExecutionBroadcastNodes.timeout_remote_nodes
          (Registry.with_n1 (Some 1)).1.1 (Some 5002) (Registry.with_n1 (Some 1)).2).1
       !! "n1"
     = None.
Proof. split; vm_compute; reflexivity. Qed.

(** Scenario B through the discovery connection: the pong of [n1] puts it
    in the registry, and the timer's sweep six seconds later removes it. *)
Example scenario_B_pong_then_sweep :
  let nodes_after events :=
    _RemoteExecutionBroadcastNodes._remote_nodes
      <$> _RemoteExecutionBroadcastConnection._nodes
            (Discovery.after RemoteExecutionConfig.new "local" six_seconds_later
               events).1 in
  (nodes_after [Discovery.Datagram Discovery.pong_of_n1] ≫= (.!! "n1"))
  = Some {| _RemoteExecutionNode.data := VRef 0%nat;
            _RemoteExecutionNode._last_pong := 1700000000000 |}
  /\ (nodes_after [Discovery.Datagram Discovery.pong_of_n1; Discovery.Tick]
      ≫= (.!! "n1"))
     = None
  /\ (nodes_after [Discovery.Datagram Discovery.pong_of_n1; Discovery.Snapshot;
                   Discovery.Datagram Discovery.pong_of_n1]
      ≫= (.!! "n1"))
     = Some {| _RemoteExecutionNode.data := VRef 1%nat;
               _RemoteExecutionNode._last_pong := 1700000006000 |}.
Proof. repeat split; vm_compute; reflexivity. Qed.

End Scenarios.


(** * Further properties

    What the code shows besides the statements of the specification: the
    rest of the codec and of the registry, the handlers of the discovery
    connection, the closing of a command connection, the session as a whole
    and the commands of the extension. *)

(** ** The codec: what is checked, and who receives *)

Section CodecFurther.
Context `{Runtime}.
Import _RemoteExecutionMessage.

(** X1.  [from_json] checks the version and the magic, with [!=], and
    nothing else: an envelope whose version is [1] or [true] and whose magic
    is ['ue_py'] or [['ue_py']] is decoded without an error, each of the
    four fields taking what the envelope has under its key, [undefined]
    where the key is missing, the type and the source included. *)
Theorem from_json_checks_version_and_magic_only (this : t) (json_str : string)
  (props : list (string * jsval)) :
  JSON_parse json_str = Some (JObj props) ->
  own_property props "version" = JNum 1 \/ own_property props "version" = JBool true ->
  own_property props "magic" = JStr "ue_py"
  \/ own_property props "magic" = JArr [JStr "ue_py"] ->
  from_json this json_str =
  (true,
   {| type_ := own_property props "type";
      source := own_property props "source";
      dest := own_property props "dest";
      data := own_property props "data" |},
   None).
Proof.
  intros Hparse Hversion Hmagic.
  rewrite (from_json_object this _ _ Hparse).
  destruct Hversion as [-> | ->], Hmagic as [-> | ->]; reflexivity.
Qed.

(** X2.  Encoding, decoding and the filter together: a well-formed message
    that went over the wire is received by a node exactly when the node is
    not its sender and the message has no destination or has this node for
    destination. *)
Theorem decoded_message_passes_filter (m this : t) (node_id : string) :
  JSON_reads_back ->
  well_formed m ->
  passes_receive_filter (from_json this (to_json m)).1.2 node_id = Normal true
  <-> source m <> JStr node_id /\ (absent (dest m) \/ dest m = JStr node_id).
Proof.
  intros Hplatform Hm. rewrite (from_json_to_json m this Hplatform Hm).
  cbn [fst snd].
  destruct Hm as (_ & (sender & Hsource & _) & Hdest & _).
  match goal with
  | |- passes_receive_filter ?decoded _ = _ <-> _ =>
      destruct (passes_receive_filter_typed decoded node_id)
        as (passes & -> & Hpasses)
  end.
  { cbn [source]. rewrite Hsource. exact I. }
  { cbn [dest]. destruct (truthy (dest m)); [exact Hdest | exact I]. }
  cbn [source dest] in Hpasses.
  assert (Hdest' : absent (if truthy (dest m) then dest m else JUndefined)
                   \/ (if truthy (dest m) then dest m else JUndefined) = JStr node_id
                   <-> absent (dest m) \/ dest m = JStr node_id).
  { unfold absent. destruct (truthy (dest m)) eqn:Htruthy; [rewrite Htruthy; tauto |].
    split; intros _; left; reflexivity. }
  rewrite <- Hdest', <- Hpasses.
  split; [intros [= ->]; reflexivity | intros ->; reflexivity].
Qed.

End CodecFurther.

Lemma from_json_checks_version_and_magic_only_witness :
  let props := [("version", JBool true); ("magic", JArr [JStr "ue_py"])] in
  @JSON_parse Reference.runtime Sample.loosely_typed = Some (JObj props)
  /\ (own_property props "version" = JNum 1
      \/ own_property props "version" = JBool true)
  /\ (own_property props "magic" = JStr "ue_py"
      \/ own_property props "magic" = JArr [JStr "ue_py"])
  /\ @_RemoteExecutionMessage.from_json Reference.runtime
       Scenario.blank Sample.loosely_typed
     = (true,
        {| _RemoteExecutionMessage.type_ := JUndefined;
           _RemoteExecutionMessage.source := JUndefined;
           _RemoteExecutionMessage.dest := JUndefined;
           _RemoteExecutionMessage.data := JUndefined |},
        None).
Proof.
  intros props.
  split; [reflexivity |].
  split; [right; reflexivity |].
  split; [right; reflexivity |].
  exact (@from_json_checks_version_and_magic_only Reference.runtime
           Scenario.blank Sample.loosely_typed props
           eq_refl (or_intror eq_refl) (or_intror eq_refl)).
Defined.

Lemma decoded_message_passes_filter_witness :
  let m := Scenario.command_result true "1" in
  @JSON_reads_back Reference.runtime
  /\ well_formed m
  /\ (@_RemoteExecutionMessage.passes_receive_filter Reference.runtime
        (@_RemoteExecutionMessage.from_json Reference.runtime Scenario.blank
           (@_RemoteExecutionMessage.to_json Reference.runtime m)).1.2
        "local" = Normal true
      <-> _RemoteExecutionMessage.source m <> JStr "local"
          /\ (absent (_RemoteExecutionMessage.dest m)
              \/ _RemoteExecutionMessage.dest m = JStr "local")).
Proof.
  intros m.
  split; [exact parse_stringify |].
  split; [apply command_result_well_formed |].
  exact (@decoded_message_passes_filter Reference.runtime m Scenario.blank "local"
           parse_stringify (command_result_well_formed true "1")).
Defined.

(** ** The registry: updates, sweeps and the list of records *)

Section RegistryFurther.
Import _RemoteExecutionNode _RemoteExecutionBroadcastNodes.

Lemma timeout_loop_heap (now : Z)
  (entries : list (string * _RemoteExecutionNode.t))
  (nodes : gmap string _RemoteExecutionNode.t) (w : world) :
  heap (foldl (timeout_step now) (nodes, w) entries).2 = heap w.
Proof.
  revert nodes w. induction entries as [| [k node] entries IH]; intros nodes w;
    [reflexivity |].
  cbn [foldl]. unfold timeout_step at 2, should_timeout.
  pose proof (time_now_heap (Some now) w) as Hclock.
  destruct (_time_now (Some now) w) as [stamp w1]. cbn [snd] in Hclock.
  rewrite IH. exact Hclock.
Qed.

(** X3.  [update_remote_node] replaces.  For a node id other than
    [__proto__] and [hasOwnProperty], in a registry that holds no node
    named [hasOwnProperty], the update returns and stores the data it was
    given under the id, stamped with the timestamp when that is not 0; it
    touches no other node and no object; and a second update of the id
    leaves the registry as if the first had not happened.  In a registry
    that does hold a node named [hasOwnProperty], an update throws
    [TypeError] once it has resolved its timestamp, and stores nothing. *)
Theorem update_remote_node_replaces (this : _RemoteExecutionBroadcastNodes.t)
  (node_id : string) (first second : value) (now1 now2 : option Z) (w : world) :
  node_id <> "__proto__" ->
  node_id <> "hasOwnProperty" ->
  (_remote_nodes this !! "hasOwnProperty" = None ->
   let '(outcome, updated, w1) := update_remote_node this node_id first now1 w in
   outcome = Normal tt
   /\ update_remote_node updated node_id second now2 w1
      = update_remote_node this node_id second now2 w1
   /\ (forall k : string,
         k <> node_id -> _remote_nodes updated !! k = _remote_nodes this !! k)
   /\ (exists stamp : Z,
         _remote_nodes updated !! node_id
         = Some {| data := first; _last_pong := stamp |}
         /\ forall t : Z, now1 = Some t -> t <> 0 -> stamp = t)
   /\ heap w1 = heap w)
  /\ (is_Some (_remote_nodes this !! "hasOwnProperty") ->
      update_remote_node this node_id first now1 w
      = (Throw TypeError, this, (_time_now now1 w).2)).
Proof.
  intros Hplain Hother. split; [| apply update_remote_node_throws].
  intros Hmethod.
  rewrite (update_remote_node_stores this node_id first now1 w) by assumption.
  unfold _RemoteExecutionNode.new.
  pose proof (time_now_heap now1 w) as Hfirst.
  assert (Hstamp : forall t, now1 = Some t -> t <> 0 -> (_time_now now1 w).1 = t).
  { intros t -> Ht. rewrite time_now_nonzero by exact Ht. reflexivity. }
  destruct (_time_now now1 w) as [_now w1]. cbn [fst snd] in *.
  pose proof (time_now_heap (Some _now) w1) as Hsecond.
  assert (Hstamp' : _now <> 0 -> (_time_now (Some _now) w1).1 = _now).
  { intros Ht. rewrite time_now_nonzero by exact Ht. reflexivity. }
  destruct (_time_now (Some _now) w1) as [stamp w2]. cbn [fst snd] in *.
  split; [reflexivity |]. split; [| split; [| split]].
  - rewrite !update_remote_node_stores; try assumption.
    + cbn [_remote_nodes]. rewrite insert_insert_eq. reflexivity.
    + cbn [_remote_nodes]. rewrite lookup_insert_ne by exact Hother. exact Hmethod.
  - intros k Hk. cbn [_remote_nodes]. apply lookup_insert_ne. congruence.
  - exists stamp. cbn [_remote_nodes]. split; [apply lookup_insert_eq |].
    intros t Hnow Ht. pose proof (Hstamp t Hnow Ht) as Heq.
    rewrite Hstamp' by congruence. exact Heq.
  - congruence.
Qed.

(** X4.  [timeout_remote_nodes] only removes, at every timestamp, [null]
    and 0 included: a node of the swept registry is a node of the registry
    as it was, with the same data and the same time of its last pong; no
    object is touched and none is made. *)
Theorem timeout_remote_nodes_only_removes (this : _RemoteExecutionBroadcastNodes.t)
  (now : option Z) (w : world) :
  let '(swept, w') := timeout_remote_nodes this now w in
  (forall (k : string) (node : _RemoteExecutionNode.t),
      _remote_nodes swept !! k = Some node -> _remote_nodes this !! k = Some node)
  /\ heap w' = heap w
  /\ next_loc w' = next_loc w.
Proof.
  pose proof (timeout_remote_nodes_subset this now w) as [Hsub Hnext].
  assert (Hheap : heap (timeout_remote_nodes this now w).2 = heap w).
  { unfold timeout_remote_nodes.
    pose proof (time_now_heap now w) as Hclock.
    destruct (_time_now now w) as [_now w1]. cbn [snd] in Hclock.
    pose proof (timeout_loop_heap _now (map_to_list (_remote_nodes this))
                  (_remote_nodes this) w1) as Hloop.
    destruct (foldl _ _ _) as [nodes w2]. cbn [snd] in *. congruence. }
  destruct (timeout_remote_nodes this now w) as [swept w']. cbn [fst snd] in *.
  split; [| split; assumption].
  intros k node Hk. eapply lookup_weaken; eassumption.
Qed.

(** X5.  Sweeps compose, where the nodes they remove print: a sweep
    followed by a sweep at the same or a later time leaves what the later
    sweep alone leaves (timestamps other than 0).  In particular a sweep
    repeated at the same time changes nothing. *)
Theorem sweep_then_later_sweep (this : _RemoteExecutionBroadcastNodes.t)
  (now1 now2 : Z) (w : world) :
  now1 <> 0 -> now2 <> 0 -> now1 <= now2 ->
  (forall k node,
      _remote_nodes this !! k = Some node -> timed_out now2 node ->
      node_prints w node) ->
  let '(swept, w1) := timeout_remote_nodes this (Some now1) w in
  timeout_remote_nodes swept (Some now2) w1
  = timeout_remote_nodes this (Some now2) w.
Proof.
  intros Hnow1 Hnow2 Hle _.
  rewrite (timeout_remote_nodes_nonzero this now1 w Hnow1).
  rewrite !timeout_remote_nodes_nonzero by exact Hnow2.
  cbn [_remote_nodes]. f_equal. f_equal.
  apply map_filter_filter_l.
  intros k node _ Halive Hexpired. apply Halive.
  unfold timed_out in *. cbn [snd] in *. lia.
Qed.

(** *** What the records hold *)

Lemma heap_write_other (l l' : loc) (key : string) (v : jsval) (w : world) :
  l <> l' -> heap (write_property l' key v w) !! l = heap w !! l.
Proof. intros Hne. cbn [write_property heap]. apply lookup_insert_ne. congruence. Qed.

Lemma heap_write (l : loc) (key : string) (v : jsval) (w : world) :
  heap (write_property l key v w) !! l = Some (set_property (read_object l w) key v).
Proof. cbn [write_property heap]. apply lookup_insert_eq. Qed.

Lemma read_object_lookup (l : loc) (w w' : world) :
  heap w' !! l = heap w !! l -> read_object l w' = read_object l w.
Proof. unfold read_object. intros ->. reflexivity. Qed.

(** The getter's loop, with what each record holds when the loop is over. *)
Lemma remote_nodes_loop_contents (entries : list (string * _RemoteExecutionNode.t)) :
  forall (acc : list loc) (w : world),
    NoDup entries.*1 ->
    (forall k node l, (k, node) ∈ entries -> data node = VRef l -> (l < next_loc w)%nat) ->
    (forall k1 k2 node1 node2 l,
        (k1, node1) ∈ entries -> (k2, node2) ∈ entries ->
        data node1 = VRef l -> data node2 = VRef l -> k1 = k2) ->
    exists (records : list loc) (w' : world),
      foldl remote_nodes_step (acc, w) entries = ((acc ++ records)%list, w')
      /\ length records = length entries
      /\ (forall (i : nat) (entry : string * _RemoteExecutionNode.t) (record : loc),
            entries !! i = Some entry -> records !! i = Some record ->
            match data entry.2 with
            | VRef l => record = l
            | VPrim _ => (next_loc w <= record)%nat
            end
            /\ heap w' !! record
               = Some (set_property (attributes w entry.2) "node_id" (JStr entry.1)))
      /\ (forall l, l ∉ records -> heap w' !! l = heap w !! l)
      /\ (next_loc w <= next_loc w')%nat
      /\ (forall record, record ∈ records ->
            (exists k node, (k, node) ∈ entries /\ data node = VRef record)
            \/ (next_loc w <= record)%nat).
Proof.
  induction entries as [| [k node] entries IH]; intros acc w Hkeys Hbelow Hown.
  - exists [], w. rewrite app_nil_r.
    split; [reflexivity |]. split; [reflexivity |].
    split; [intros i entry record Hi; rewrite lookup_nil in Hi; discriminate |].
    split; [reflexivity |]. split; [lia |].
    intros record Hin. inversion Hin.
  - apply NoDup_cons in Hkeys as [Hk Hkeys].
    set (record := match data node with VRef l => l | VPrim _ => next_loc w end).
    set (w0 := match data node with VRef _ => w | VPrim _ => (alloc [] w).2 end).
    set (w1 := write_property record "node_id" (JStr k) w0).
    assert (Hstep : remote_nodes_step (acc, w) (k, node) = ((acc ++ [record])%list, w1)).
    { unfold remote_nodes_step, w1, w0, record.
      destruct (data node); reflexivity. }
    assert (Hnext : next_loc w1 = match data node with
                                  | VRef _ => next_loc w
                                  | VPrim _ => S (next_loc w)
                                  end).
    { unfold w1, w0. destruct (data node); reflexivity. }
    assert (Hhead : heap w1 !! record
                    = Some (set_property (attributes w node) "node_id" (JStr k))).
    { unfold w1. rewrite heap_write. f_equal. f_equal.
      unfold w0, record, attributes. destruct (data node) as [p | l]; [| reflexivity].
      unfold read_object, alloc. cbn [snd heap]. rewrite lookup_insert_eq. reflexivity. }
    assert (Hframe : forall l, l <> record -> (l < next_loc w)%nat ->
                               heap w1 !! l = heap w !! l).
    { intros l Hne Hl. unfold w1. rewrite heap_write_other by exact Hne.
      unfold w0. destruct (data node); [| reflexivity].
      unfold alloc. cbn [snd heap]. apply lookup_insert_ne. lia. }
    cbn [foldl]. rewrite Hstep.
    destruct (IH (acc ++ [record])%list w1 Hkeys)
      as (records & w' & Hloop & Hlen & Hcontents & Hrest & Hle & Hfrom).
    + intros k' node' l Hin Hdata.
      assert (l < next_loc w)%nat
        by (eapply Hbelow; [apply elem_of_cons; right; exact Hin | exact Hdata]).
      rewrite Hnext. destruct (data node); lia.
    + intros k1 k2 node1 node2 l Hin1 Hin2.
      apply Hown; apply elem_of_cons; right; assumption.
    + assert (Hfresh : record ∉ records).
      { intros Hin. apply Hfrom in Hin as [(k' & node' & Hin & Hdata) | Hge].
        - unfold record in Hdata. destruct (data node) as [p | l] eqn:Hnode.
          + assert (next_loc w < next_loc w)%nat; [| lia].
            eapply Hbelow; [apply elem_of_cons; right; exact Hin | exact Hdata].
          + apply Hk.
            assert (k' = k) as <-.
            { eapply (Hown k' k node' node l);
                [apply elem_of_cons; right; exact Hin
                | apply elem_of_cons; left; reflexivity
                | exact Hdata | exact Hnode]. }
            apply list_elem_of_fmap. exists (k', node'). split; [reflexivity | exact Hin].
        - rewrite Hnext in Hge. unfold record in Hge.
          destruct (data node) as [p | l] eqn:Hnode; [lia |].
          assert (l < next_loc w)%nat; [| lia].
          eapply Hbelow; [apply elem_of_cons; left; reflexivity | exact Hnode]. }
      exists (record :: records), w'.
      split; [rewrite Hloop, <- app_assoc; reflexivity |].
      split; [cbn [length]; congruence |].
      split; [| split; [| split]].
      * intros [| i] entry record' Hentry Hrecord; cbn in Hentry, Hrecord.
        -- injection Hentry as <-. injection Hrecord as <-. cbn [fst snd].
           split; [unfold record; destruct (data node); [lia | reflexivity] |].
           rewrite Hrest by exact Hfresh. exact Hhead.
        -- destruct (Hcontents i entry record' Hentry Hrecord) as [Hwhere Hwhat].
           assert (Hin : entry ∈ entries) by (eapply list_elem_of_lookup_2; exact Hentry).
           destruct entry as [k' node']. cbn [fst snd] in *.
           split.
           ++ destruct (data node'); [| exact Hwhere].
              rewrite Hnext in Hwhere. destruct (data node); lia.
           ++ rewrite Hwhat. f_equal. f_equal. unfold attributes.
              destruct (data node') as [p | l'] eqn:Hnode'; [reflexivity |].
              apply read_object_lookup. apply Hframe.
              ** unfold record. destruct (data node) as [p | l] eqn:Hnode.
                 --- assert (l' < next_loc w)%nat; [| lia].
                     eapply Hbelow; [apply elem_of_cons; right; exact Hin | exact Hnode'].
                 --- intros ->. apply Hk.
                     assert (k' = k) as <-.
                     { eapply (Hown k' k node' node l);
                         [apply elem_of_cons; right; exact Hin
                         | apply elem_of_cons; left; reflexivity
                         | exact Hnode' | exact Hnode]. }
                     apply list_elem_of_fmap. exists (k', node').
                     split; [reflexivity | exact Hin].
              ** eapply Hbelow; [apply elem_of_cons; right; exact Hin | exact Hnode'].
      * intros l Hl. apply not_elem_of_cons in Hl as [Hne Hl].
        rewrite Hrest by exact Hl.
        unfold w1. rewrite heap_write_other by exact Hne.
        unfold w0. destruct (data node) as [p | l0] eqn:Hnode; [| reflexivity].
        unfold alloc. cbn [snd heap]. apply lookup_insert_ne.
        unfold record in Hne. congruence.
      * rewrite Hnext in Hle. destruct (data node); lia.
      * intros record' Hin. apply elem_of_cons in Hin as [-> | Hin].
        -- unfold record. destruct (data node) as [p | l] eqn:Hnode.
           ++ right. lia.
           ++ left. exists k, node. split; [apply elem_of_cons; left; reflexivity |].
              exact Hnode.
        -- apply Hfrom in Hin as [(k' & node' & Hin & Hdata) | Hge].
           ++ left. exists k', node'. split; [apply elem_of_cons; right; exact Hin | exact Hdata].
           ++ right. rewrite Hnext in Hge. destruct (data node); lia.
Qed.

(** The record of a node, in the heap the getter leaves. *)
Lemma snapshot_record (this : _RemoteExecutionBroadcastNodes.t)
  (w : world) (node_id : string) (node : _RemoteExecutionNode.t) :
  own_data (_remote_nodes this) w ->
  _remote_nodes this !! node_id = Some node ->
  exists record : loc,
    record ∈ (remote_nodes this w).1
    /\ heap (remote_nodes this w).2 !! record
       = Some (set_property (attributes w node) "node_id" (JStr node_id))
    /\ match data node with
       | VRef l => record = l
       | VPrim _ => (next_loc w <= record)%nat
       end.
Proof.
  intros [Hbelow Hown] Hnode. unfold remote_nodes.
  destruct (remote_nodes_loop_contents (map_to_list (_remote_nodes this)) [] w)
    as (records & w' & Hloop & Hlen & Hcontents & _).
  - apply NoDup_fst_map_to_list.
  - intros k node' l Hin. apply elem_of_map_to_list in Hin. eauto.
  - intros k1 k2 node1 node2 l Hin1 Hin2.
    apply elem_of_map_to_list in Hin1, Hin2. eauto.
  - rewrite Hloop. cbn [app fst snd].
    assert (Hin : (node_id, node) ∈ map_to_list (_remote_nodes this))
      by (apply elem_of_map_to_list; exact Hnode).
    apply list_elem_of_lookup_1 in Hin as [i Hi].
    destruct (lookup_lt_is_Some_2 records i) as [record Hrecord].
    { rewrite Hlen. eapply lookup_lt_Some. exact Hi. }
    destruct (Hcontents i _ record Hi Hrecord) as [Hwhere Hwhat].
    cbn [fst snd] in *.
    exists record. split; [eapply list_elem_of_lookup_2; exact Hrecord |].
    split; [exact Hwhat | exact Hwhere].
Qed.


Lemma set_property_twice (props : list (string * jsval)) (key : string) (v : jsval) :
  set_property (set_property props key v) key v = set_property props key v.
Proof.
  induction props as [| [k x] props IH]; cbn [set_property].
  - rewrite String.eqb_refl. reflexivity.
  - destruct (String.eqb k key) eqn:Hk; cbn [set_property]; rewrite Hk;
      [reflexivity | f_equal; exact IH].
Qed.

Lemma write_property_same (l : loc) (key : string) (v : jsval) (w : world)
  (props : list (string * jsval)) :
  heap w !! l = Some (set_property props key v) ->
  write_property l key v w = w.
Proof.
  intros Hl. unfold write_property, read_object. rewrite Hl.
  cbn [default from_option id].
  rewrite set_property_twice. rewrite insert_id by exact Hl.
  destruct w; reflexivity.
Qed.

(** The getter's loop over nodes whose data objects carry their ids
    already. *)
Lemma remote_nodes_loop_again (entries : list (string * _RemoteExecutionNode.t)) :
  forall (acc records : list loc) (w : world),
    length records = length entries ->
    (forall i entry record,
        entries !! i = Some entry -> records !! i = Some record ->
        data entry.2 = VRef record
        /\ exists props,
             heap w !! record = Some (set_property props "node_id" (JStr entry.1))) ->
    foldl remote_nodes_step (acc, w) entries = ((acc ++ records)%list, w).
Proof.
  induction entries as [| [k node] entries IH]; intros acc records w Hlen Hstamped.
  - destruct records; [| discriminate]. rewrite app_nil_r. reflexivity.
  - destruct records as [| record records]; [discriminate |].
    destruct (Hstamped 0%nat (k, node) record eq_refl eq_refl) as [Hdata [props Hprops]].
    cbn [fst snd] in *.
    cbn [foldl]. unfold remote_nodes_step at 2. rewrite Hdata. cbn [new_Object].
    rewrite (write_property_same record _ _ w props Hprops).
    rewrite (IH (acc ++ [record])%list records w).
    + rewrite <- app_assoc. reflexivity.
    + cbn [length] in Hlen. lia.
    + intros i entry record' Hentry Hrecord.
      exact (Hstamped (S i) entry record' Hentry Hrecord).
Qed.

(** X7.  Read again, the getter [remote_nodes] of a registry of nodes
    with data objects of their own returns the same list of the same
    objects and changes nothing. *)
Theorem snapshot_again (this : _RemoteExecutionBroadcastNodes.t) (w : world) :
  own_data (_remote_nodes this) w ->
  (forall (k : string) (node : _RemoteExecutionNode.t),
      _remote_nodes this !! k = Some node -> exists l : loc, data node = VRef l) ->
  let '(records, w') := remote_nodes this w in
  remote_nodes this w' = (records, w').
Proof.
  intros [Hbelow Hown] Hobjects. unfold remote_nodes.
  destruct (remote_nodes_loop_contents (map_to_list (_remote_nodes this)) [] w)
    as (records & w' & Hloop & Hlen & Hcontents & _).
  - apply NoDup_fst_map_to_list.
  - intros k node' l Hin. apply elem_of_map_to_list in Hin. eauto.
  - intros k1 k2 node1 node2 l Hin1 Hin2.
    apply elem_of_map_to_list in Hin1, Hin2. eauto.
  - rewrite Hloop. cbn [app].
    apply (remote_nodes_loop_again _ [] records w' Hlen).
    intros i [k node] record Hentry Hrecord.
    destruct (Hcontents i _ record Hentry Hrecord) as [Hwhere Hwhat].
    cbn [fst snd] in *.
    destruct (Hobjects k node) as [l Hdata].
    { apply elem_of_map_to_list. eapply list_elem_of_lookup_2. exact Hentry. }
    rewrite Hdata in Hwhere. subst record.
    split; [exact Hdata | eauto].
Qed.

End RegistryFurther.

Lemma update_remote_node_replaces_witness :
  let this := _RemoteExecutionBroadcastNodes.new in
  let named :=
    {| _RemoteExecutionBroadcastNodes._remote_nodes :=
         <["hasOwnProperty" := {| _RemoteExecutionNode.data := VPrim PNull;
                                  _RemoteExecutionNode._last_pong := 1 |}]> ∅ |} in
  let w := (alloc Registry.machine_WS1 World.initial).2 in
  ("n1" <> "__proto__" /\ "n1" <> "hasOwnProperty")
  /\ _RemoteExecutionBroadcastNodes._remote_nodes this !! "hasOwnProperty" = None
  /\ (let '(outcome, updated, w1) :=
        _RemoteExecutionBroadcastNodes.update_remote_node this "n1" (VRef 0%nat)
          (Some 1) w in
      outcome = Normal tt
      /\ _RemoteExecutionBroadcastNodes.update_remote_node updated "n1" (VPrim PNull)
           (Some 2) w1
         = _RemoteExecutionBroadcastNodes.update_remote_node this "n1" (VPrim PNull)
             (Some 2) w1
      /\ (forall k : string,
            k <> "n1" ->
            _RemoteExecutionBroadcastNodes._remote_nodes updated !! k
            = _RemoteExecutionBroadcastNodes._remote_nodes this !! k)
      /\ (exists stamp : Z,
            _RemoteExecutionBroadcastNodes._remote_nodes updated !! "n1"
            = Some {| _RemoteExecutionNode.data := VRef 0%nat;
                      _RemoteExecutionNode._last_pong := stamp |}
            /\ forall t : Z, Some 1 = Some t -> t <> 0 -> stamp = t)
      /\ heap w1 = heap w)
  /\ is_Some (_RemoteExecutionBroadcastNodes._remote_nodes named !! "hasOwnProperty")
  /\ _RemoteExecutionBroadcastNodes.update_remote_node named "n1" (VRef 0%nat)
       (Some 1) w
     = (Throw TypeError, named, w).
Proof.
  intros this named w.
  split; [split; discriminate |]. split; [reflexivity |].
  split.
  - exact (proj1 (update_remote_node_replaces this "n1" (VRef 0%nat) (VPrim PNull)
                    (Some 1) (Some 2) w ltac:(discriminate) ltac:(discriminate))
             eq_refl).
  - split; [eexists; reflexivity |].
    exact (proj2 (update_remote_node_replaces named "n1" (VRef 0%nat) (VPrim PNull)
                    (Some 1) (Some 2) w ltac:(discriminate) ltac:(discriminate))
             (ex_intro _ _ eq_refl)).
Defined.

Lemma sweep_then_later_sweep_witness :
  let registry := (Registry.with_n1 (Some 1)).1.1 in
  let w := (Registry.with_n1 (Some 1)).2 in
  2 <> 0 /\ 5002 <> 0 /\ 2 <= 5002
  /\ (forall k node,
        _RemoteExecutionBroadcastNodes._remote_nodes registry !! k = Some node ->
        timed_out 5002 node -> node_prints w node)
  /\ (let '(swept, w1) :=
        _RemoteExecutionBroadcastNodes.timeout_remote_nodes registry (Some 2) w in
      _RemoteExecutionBroadcastNodes.timeout_remote_nodes swept (Some 5002) w1
      = _RemoteExecutionBroadcastNodes.timeout_remote_nodes registry (Some 5002) w)
  /\ _RemoteExecutionBroadcastNodes.timeout_remote_nodes registry (Some 5002) w
     = (_RemoteExecutionBroadcastNodes.new, w).
Proof.
  intros registry w.
  assert (Hprints : forall k node,
             _RemoteExecutionBroadcastNodes._remote_nodes registry !! k = Some node ->
             timed_out 5002 node -> node_prints w node).
  { intros k node Hk _. subst registry w.
    rewrite with_n1_at in Hk by discriminate.
    cbn [fst _RemoteExecutionBroadcastNodes._remote_nodes] in Hk.
    apply lookup_insert_Some in Hk as [[_ <-] | [_ Hempty]];
      [| rewrite lookup_empty in Hempty; discriminate].
    apply with_n1_prints. }
  split; [discriminate |]. split; [discriminate |]. split; [lia |].
  split; [exact Hprints |].
  split; [| vm_compute; reflexivity].
  exact (sweep_then_later_sweep registry 2 5002 w
           ltac:(discriminate) ltac:(discriminate) ltac:(lia) Hprints).
Defined.

Lemma with_n1_own_data :
  own_data
    (_RemoteExecutionBroadcastNodes._remote_nodes (Registry.with_n1 (Some 1)).1.1)
    (Registry.with_n1 (Some 1)).2.
Proof.
  apply (own_data_first_node "n1"
           {| _RemoteExecutionNode.data := VRef 0%nat;
              _RemoteExecutionNode._last_pong := 1 |}).
  intros l [= <-]. vm_compute. lia.
Defined.

Lemma with_n1_objects (k : string) (node : _RemoteExecutionNode.t) :
  _RemoteExecutionBroadcastNodes._remote_nodes (Registry.with_n1 (Some 1)).1.1 !! k
  = Some node ->
  exists l : loc, _RemoteExecutionNode.data node = VRef l.
Proof.
  intros Hk.
  change (<["n1" := {| _RemoteExecutionNode.data := VRef 0%nat;
                       _RemoteExecutionNode._last_pong := 1 |}]>
            (∅ : gmap string _RemoteExecutionNode.t) !! k = Some node) in Hk.
  apply lookup_insert_Some in Hk as [[_ <-] | [_ Hk]]; [eexists; reflexivity |].
  rewrite lookup_empty in Hk. discriminate.
Defined.


Lemma snapshot_again_witness :
  let registry := (Registry.with_n1 (Some 1)).1.1 in
  let w := (Registry.with_n1 (Some 1)).2 in
  own_data (_RemoteExecutionBroadcastNodes._remote_nodes registry) w
  /\ (forall (k : string) (node : _RemoteExecutionNode.t),
         _RemoteExecutionBroadcastNodes._remote_nodes registry !! k = Some node ->
         exists l : loc, _RemoteExecutionNode.data node = VRef l)
  /\ (let '(records, w') := _RemoteExecutionBroadcastNodes.remote_nodes registry w in
      _RemoteExecutionBroadcastNodes.remote_nodes registry w' = (records, w')).
Proof.
  intros registry w.
  split; [exact with_n1_own_data |].
  split; [exact with_n1_objects |].
  exact (snapshot_again registry w with_n1_own_data with_n1_objects).
Defined.

(** ** The discovery connection: pings, pongs and the timer *)

Section DiscoveryFurther.
Context `{Runtime}.
Import _RemoteExecutionNode _RemoteExecutionBroadcastNodes.
Import _RemoteExecutionBroadcastConnection.

Lemma broadcast_message_sends (this : _RemoteExecutionBroadcastConnection.t)
  (message : _RemoteExecutionMessage.t) :
  _broadcast_message this message
  = match _broadcast_socket this with
    | Some _ => (Normal tt, having_sent this (datagram_of (_config this) message))
    | None => (Throw TypeError, this)
    end.
Proof.
  unfold _broadcast_message, having_sent, datagram_of.
  destruct (_broadcast_socket this); reflexivity.
Qed.

(** [_broadcast_ping] at a time that is not 0, on an open socket. *)
Lemma broadcast_ping_at (this : _RemoteExecutionBroadcastConnection.t)
  (socket : udp_socket) (now : Z) (w : world) :
  now <> 0 ->
  _broadcast_socket this = Some socket ->
  _broadcast_ping this (Some now) w
  = if bool_decide (ping_due (_last_ping this) now)
    then (Normal tt,
          having_sent (set_last_ping this now)
            (datagram_of (_config this) (ping_of (_node_id this))),
          w)
    else (Normal tt, this, w).
Proof.
  intros Hnow Hsocket. unfold _broadcast_ping.
  rewrite time_now_nonzero by exact Hnow.
  assert (Hdue : Z.eqb (_last_ping this) 0
                 || Z.ltb (_last_ping this + _NODE_PING_SECONDS) now
                 = bool_decide (ping_due (_last_ping this) now)).
  { unfold ping_due. destruct (Z.eqb_spec (_last_ping this) 0) as [Hzero | Hnonzero].
    - rewrite bool_decide_eq_true_2 by (left; exact Hzero). reflexivity.
    - cbn [orb]. destruct (Z.ltb_spec (_last_ping this + _NODE_PING_SECONDS) now).
      + rewrite bool_decide_eq_true_2 by (right; assumption). reflexivity.
      + rewrite bool_decide_eq_false_2 by (intros [? | ?]; lia). reflexivity. }
  rewrite Hdue. case_bool_decide; [| reflexivity].
  rewrite broadcast_message_sends. cbn [set_last_ping _broadcast_socket].
  rewrite Hsocket. reflexivity.
Qed.


(** X9.  The callback of the interval timer, on an open connection and a
    clock that does not show 0, where the nodes that have timed out print:
    it reads the clock once, sends the ping if one is due at that time, and
    leaves in the registry exactly the nodes with
    [_last_pong + _NODE_TIMEOUT_SECONDS] no smaller than that time. *)
Theorem on_interval_pings_and_sweeps (this : _RemoteExecutionBroadcastConnection.t)
  (nodes : _RemoteExecutionBroadcastNodes.t) (socket : udp_socket) (w : world) :
  _nodes this = Some nodes ->
  _broadcast_socket this = Some socket ->
  wall_clock w (clock_reads w) <> 0 ->
  (forall k node,
      _remote_nodes nodes !! k = Some node ->
      timed_out (wall_clock w (clock_reads w)) node -> node_prints w node) ->
  let now := wall_clock w (clock_reads w) in
  on_interval this w
  = (Normal tt,
     set_nodes
       (if bool_decide (ping_due (_last_ping this) now)
        then having_sent (set_last_ping this now)
               (datagram_of (_config this) (ping_of (_node_id this)))
        else this)
       (Some {| _remote_nodes :=
                  filter (fun entry => ~ timed_out now entry.2) (_remote_nodes nodes) |}),
     (Date_getTime w).2).
Proof.
  intros Hnodes Hsocket Hclock _ now. unfold on_interval.
  cbn [_time_now Date_getTime]. fold now.
  rewrite (broadcast_ping_at this socket now _ Hclock Hsocket).
  case_bool_decide.
  - cbn [having_sent set_last_ping _nodes]. rewrite Hnodes.
    rewrite timeout_remote_nodes_nonzero by exact Hclock. reflexivity.
  - rewrite Hnodes.
    rewrite timeout_remote_nodes_nonzero by exact Hclock. reflexivity.
Qed.

(** [_handle_data], by what [from_json_bytes] made of the datagram. *)
Lemma handle_data_spec (this : _RemoteExecutionBroadcastConnection.t)
  (data : string) (w : world) :
  _handle_data this data w
  = let message :=
      (_RemoteExecutionMessage.from_json_bytes Scenario.blank data).1.2 in
    match _RemoteExecutionMessage.passes_receive_filter message (_node_id this) with
    | Throw e => (Throw e, this, w)
    | Normal false => (Normal tt, this, w)
    | Normal true =>
        match loose_eq_str (_RemoteExecutionMessage.type_ message) _TYPE_PONG with
        | Throw e => (Throw e, this, w)
        | Normal true => _handle_pong_message this message w
        | Normal false => (Normal tt, this, w)
        end
    end.
Proof.
  unfold _handle_data. fold Scenario.blank.
  pose proof (from_json_true Scenario.blank data) as Htrue.
  unfold _RemoteExecutionMessage.from_json_bytes.
  destruct (_RemoteExecutionMessage.from_json Scenario.blank data)
    as [[parsed message] error]. cbn [fst snd] in *. subst parsed.
  reflexivity.
Qed.

Lemma passes_receive_filter_true (message : _RemoteExecutionMessage.t)
  (node_id : string) :
  _RemoteExecutionMessage.passes_receive_filter message node_id = Normal true ->
  loose_eq_str (_RemoteExecutionMessage.source message) node_id = Normal false
  /\ (truthy (_RemoteExecutionMessage.dest message) = false
      \/ loose_eq_str (_RemoteExecutionMessage.dest message) node_id = Normal true).
Proof.
  unfold _RemoteExecutionMessage.passes_receive_filter.
  destruct (loose_eq_str (_RemoteExecutionMessage.source message) node_id)
    as [[|] | e]; cbn [bind]; try discriminate.
  destruct (truthy (_RemoteExecutionMessage.dest message)); cbn [negb]; auto.
Qed.

Lemma set_nodes_same (this : _RemoteExecutionBroadcastConnection.t) :
  set_nodes this (_nodes this) = this.
Proof. destruct this. reflexivity. Qed.

(** X10.  [_handle_data] reacts to nothing but the pong of another node.
    Either it leaves the connection and the world as they are and returns;
    or it leaves them as they are and throws [TypeError], the datagram
    having been decoded to a message whose source, destination or type
    does not convert to a string; or the datagram was decoded without an
    error to a message of type [pong] whose source is not this node and
    whose destination is absent or this node, and the datagram is handled
    as that pong.  A datagram that is no JSON, has another version or
    another magic is dropped, although [from_json] answers [true] for it. *)
Theorem handle_data_reacts_to_foreign_pongs_only
  (this : _RemoteExecutionBroadcastConnection.t) (data : string) (w : world) :
  _handle_data this data w = (Normal tt, this, w)
  \/ (exists message : _RemoteExecutionMessage.t,
        _RemoteExecutionMessage.from_json_bytes Scenario.blank data
        = (true, message, None)
        /\ (ToString (_RemoteExecutionMessage.source message) = Throw TypeError
            \/ ToString (_RemoteExecutionMessage.dest message) = Throw TypeError
            \/ ToString (_RemoteExecutionMessage.type_ message) = Throw TypeError)
        /\ _handle_data this data w = (Throw TypeError, this, w))
  \/ exists message : _RemoteExecutionMessage.t,
       _RemoteExecutionMessage.from_json_bytes Scenario.blank data
       = (true, message, None)
       /\ loose_eq_str (_RemoteExecutionMessage.type_ message) _TYPE_PONG
          = Normal true
       /\ loose_eq_str (_RemoteExecutionMessage.source message) (_node_id this)
          = Normal false
       /\ (truthy (_RemoteExecutionMessage.dest message) = false
           \/ loose_eq_str (_RemoteExecutionMessage.dest message) (_node_id this)
              = Normal true)
       /\ _handle_data this data w = _handle_pong_message this message w.
Proof.
  rewrite handle_data_spec.
  unfold _RemoteExecutionMessage.from_json_bytes, _RemoteExecutionMessage.from_json.
  destruct (_RemoteExecutionMessage.from_json_try data) as [message | error];
    [| left; reflexivity].
  cbn [fst snd].
  destruct (_RemoteExecutionMessage.passes_receive_filter message (_node_id this))
    as [[|] | e] eqn:Hfilter.
  - apply passes_receive_filter_true in Hfilter as [Hsource Hdest].
    destruct (loose_eq_str (_RemoteExecutionMessage.type_ message) _TYPE_PONG)
      as [[|] | e] eqn:Htype.
    + right. right. exists message. auto.
    + left. reflexivity.
    + apply loose_eq_str_throws in Htype as [Htype ->].
      right. left. exists message. auto.
  - left. reflexivity.
  - apply passes_receive_filter_throws in Hfilter as [-> Hfilter].
    right. left. exists message. split; [reflexivity |]. split; [tauto | reflexivity].
Qed.

(** What [_handle_pong_message] leaves: the registry as it was, or with
    one node put in. *)
Lemma handle_pong_frame (this : _RemoteExecutionBroadcastConnection.t)
  (message : _RemoteExecutionMessage.t) (w : world) :
  let '(outcome, this', w') := _handle_pong_message this message w in
  (outcome = Normal tt \/ outcome = Throw TypeError)
  /\ match _nodes this with
     | Some nodes =>
         exists nodes' : _RemoteExecutionBroadcastNodes.t,
           this' = set_nodes this (Some nodes')
           /\ (nodes' = nodes
               \/ exists (key : string) (node : _RemoteExecutionNode.t),
                    nodes' = {| _remote_nodes := <[key := node]> (_remote_nodes nodes) |})
     | None => outcome = Throw TypeError /\ this' = this /\ w' = w
     end.
Proof.
  unfold _handle_pong_message.
  destruct (_nodes this) as [nodes |] eqn:Hnodes; [| auto].
  destruct (ToString (_RemoteExecutionMessage.source message)) as [key | e] eqn:Hkey.
  2: { split; [right; f_equal; eapply ToString_throws; exact Hkey |].
       exists nodes. split; [rewrite <- Hnodes; symmetry; apply set_nodes_same | auto]. }
  destruct (parsed_value _ w) as [node_data w1].
  unfold update_remote_node.
  destruct (_time_now None w1) as [_now w2].
  case_bool_decide.
  { split; [auto |]. exists nodes. auto. }
  destruct (_RemoteExecutionNode.new node_data (Some _now) w2) as [node w3].
  destruct (String.eqb key "__proto__").
  - split; [auto |]. exists nodes. auto.
  - split; [auto |]. eexists. split; [reflexivity |]. right. eauto.
Qed.

(** X11.  Handling a datagram sends nothing and forgets nothing: the
    socket with what was sent on it, the time of the last ping and the
    configuration are what they were, and every node of the registry is
    still in it.  The handler returns, or it throws [TypeError]. *)
Theorem handle_data_sends_nothing (this : _RemoteExecutionBroadcastConnection.t)
  (data : string) (w : world) :
  let '(outcome, this', w') := _handle_data this data w in
  _broadcast_socket this' = _broadcast_socket this
  /\ _last_ping this' = _last_ping this
  /\ _running this' = _running this
  /\ _node_id this' = _node_id this
  /\ _config this' = _config this
  /\ (outcome = Normal tt \/ outcome = Throw TypeError)
  /\ match _nodes this with
     | Some nodes =>
         exists nodes' : _RemoteExecutionBroadcastNodes.t,
           _nodes this' = Some nodes'
           /\ forall k : string,
                is_Some (_remote_nodes nodes !! k) ->
                is_Some (_remote_nodes nodes' !! k)
     | None => _nodes this' = None
     end.
Proof.
  assert (Hsame : forall outcome : completion unit,
             outcome = Normal tt \/ outcome = Throw TypeError ->
             let '(outcome, this', w') := (outcome, this, w) in
             _broadcast_socket this' = _broadcast_socket this
             /\ _last_ping this' = _last_ping this
             /\ _running this' = _running this
             /\ _node_id this' = _node_id this
             /\ _config this' = _config this
             /\ (outcome = Normal tt \/ outcome = Throw TypeError)
             /\ match _nodes this with
                | Some nodes =>
                    exists nodes' : _RemoteExecutionBroadcastNodes.t,
                      _nodes this' = Some nodes'
                      /\ forall k : string,
                           is_Some (_remote_nodes nodes !! k) ->
                           is_Some (_remote_nodes nodes' !! k)
                | None => _nodes this' = None
                end).
  { intros outcome Houtcome. repeat (split; [reflexivity || exact Houtcome |]).
    destruct (_nodes this) as [nodes |]; [| reflexivity].
    exists nodes. split; [reflexivity | auto]. }
  rewrite handle_data_spec. cbn zeta.
  destruct (_RemoteExecutionMessage.passes_receive_filter _ _)
    as [[|] | e] eqn:Hfilter.
  - destruct (loose_eq_str _ _) as [[|] | e] eqn:Htype.
    + pose proof (handle_pong_frame this
                    (_RemoteExecutionMessage.from_json_bytes Scenario.blank data).1.2 w)
        as Hpong.
      destruct (_handle_pong_message this _ w) as [[outcome this'] w'].
      destruct Hpong as [Houtcome Hpong].
      destruct (_nodes this) as [nodes |] eqn:Hnodes.
      * destruct Hpong as (nodes' & -> & Hnodes').
        cbn [set_nodes _broadcast_socket _last_ping _running _node_id _config _nodes].
        repeat (split; [reflexivity || exact Houtcome |]).
        exists nodes'. split; [reflexivity |].
        destruct Hnodes' as [-> | (key & node & ->)]; [auto |].
        intros k Hk. cbn [_remote_nodes].
        destruct (decide (key = k)) as [-> | Hne];
          [rewrite lookup_insert_eq; eauto
          | rewrite lookup_insert_ne by exact Hne; exact Hk].
      * destruct Hpong as (-> & -> & ->). rewrite Hnodes. repeat split. auto.
    + apply Hsame. auto.
    + apply loose_eq_str_throws in Htype as [_ ->]. apply Hsame. auto.
  - apply Hsame. auto.
  - apply passes_receive_filter_throws in Hfilter as [-> _]. apply Hsame. auto.
Qed.

(** X12.  What a pong does: a datagram decoded to a message of type
    [pong] from another node, with no destination or with this node for
    destination and with an object for payload, puts the sender in the
    registry, under its id, with the object [JSON.parse] made for the
    payload and with the reading of the wall clock for the time of its last
    pong; every other node stays as it was.  (A sender other than
    [__proto__], a registry that holds no node named [hasOwnProperty].) *)
Theorem pong_registers_node (this : _RemoteExecutionBroadcastConnection.t)
  (nodes : _RemoteExecutionBroadcastNodes.t) (data : string)
  (message : _RemoteExecutionMessage.t) (sender : string)
  (payload : list (string * jsval)) (w : world) :
  _nodes this = Some nodes ->
  _RemoteExecutionMessage.from_json_bytes Scenario.blank data = (true, message, None) ->
  _RemoteExecutionMessage.type_ message = JStr _TYPE_PONG ->
  _RemoteExecutionMessage.source message = JStr sender ->
  sender <> _node_id this ->
  sender <> "__proto__" ->
  _remote_nodes nodes !! "hasOwnProperty" = None ->
  absent (_RemoteExecutionMessage.dest message)
  \/ _RemoteExecutionMessage.dest message = JStr (_node_id this) ->
  _RemoteExecutionMessage.data message = JObj payload ->
  wall_clock w (clock_reads w) <> 0 ->
  _handle_data this data w
  = (Normal tt,
     set_nodes this
       (Some {| _remote_nodes :=
                  <[sender := {| data := VRef (next_loc w);
                                 _last_pong := wall_clock w (clock_reads w) |}]>
                    (_remote_nodes nodes) |}),
     (Date_getTime (alloc payload w).2).2).
Proof.
  intros Hnodes Hdecoded Htype Hsource Hsender Hplain Hmethod Hdest Hpayload Hclock.
  unfold _handle_data. fold Scenario.blank. rewrite Hdecoded.
  unfold _handle_message, _RemoteExecutionMessage.passes_receive_filter.
  rewrite Hsource, Htype. cbn [loose_eq_str bind].
  destruct (String.eqb_spec sender (_node_id this)) as [? | _]; [contradiction |].
  assert (Hto : (if negb (truthy (_RemoteExecutionMessage.dest message))
                 then Normal true
                 else loose_eq_str (_RemoteExecutionMessage.dest message)
                        (_node_id this))
                = Normal true).
  { destruct Hdest as [Habsent | ->].
    - unfold absent in Habsent. rewrite Habsent. reflexivity.
    - cbn [loose_eq_str]. rewrite String.eqb_refl.
      destruct (negb _); reflexivity. }
  rewrite Hto. cbn [String.eqb Ascii.eqb Bool.eqb _TYPE_PONG].
  unfold _handle_pong_message. rewrite Hnodes, Hpayload, Hsource.
  cbn [parsed_value alloc ToString].
  rewrite update_remote_node_stores by assumption.
  unfold _RemoteExecutionNode.new.
  cbn [_time_now Date_getTime wall_clock clock_reads fst snd].
  rewrite (proj2 (Z.eqb_neq _ _) Hclock). reflexivity.
Qed.

End DiscoveryFurther.


Lemma on_interval_pings_and_sweeps_witness :
  let registry := (Registry.with_n1 (Some 1)).1.1 in
  let w := (Registry.with_n1 (Some 1)).2 in
  let this :=
    _RemoteExecutionBroadcastConnection.set_nodes Channel.discovery (Some registry) in
  let now := 1700000000000 in
  _RemoteExecutionBroadcastConnection._nodes this = Some registry
  /\ _RemoteExecutionBroadcastConnection._broadcast_socket this = Some Sample.udp
  /\ wall_clock w (clock_reads w) <> 0
  /\ (forall k node,
        _RemoteExecutionBroadcastNodes._remote_nodes registry !! k = Some node ->
        timed_out (wall_clock w (clock_reads w)) node -> node_prints w node)
  /\ _RemoteExecutionBroadcastNodes._remote_nodes registry !! "n1"
     = Some {| _RemoteExecutionNode.data := VRef 0%nat;
               _RemoteExecutionNode._last_pong := 1 |}
  /\ @_RemoteExecutionBroadcastConnection.on_interval Reference.runtime this w
     = (Normal tt,
        _RemoteExecutionBroadcastConnection.set_nodes
          (having_sent
             (_RemoteExecutionBroadcastConnection.set_last_ping this now)
             (@datagram_of Reference.runtime RemoteExecutionConfig.new
                (ping_of "local")))
          (Some _RemoteExecutionBroadcastNodes.new),
        (Date_getTime w).2).
Proof.
  intros registry w this now.
  assert (Hprints : forall k node,
             _RemoteExecutionBroadcastNodes._remote_nodes registry !! k = Some node ->
             timed_out (wall_clock w (clock_reads w)) node -> node_prints w node).
  { intros k node Hk _. subst registry w.
    rewrite with_n1_at in Hk by discriminate.
    cbn [fst _RemoteExecutionBroadcastNodes._remote_nodes] in Hk.
    apply lookup_insert_Some in Hk as [[_ <-] | [_ Hempty]];
      [| rewrite lookup_empty in Hempty; discriminate].
    apply with_n1_prints. }
  split; [reflexivity |]. split; [reflexivity |]. split; [discriminate |].
  split; [exact Hprints |]. split; [reflexivity |].
  rewrite (@on_interval_pings_and_sweeps Reference.runtime this registry
             Sample.udp w eq_refl eq_refl ltac:(discriminate) Hprints).
  vm_compute. reflexivity.
Defined.

Lemma pong_registers_node_witness :
  let this := Channel.discovery in
  _RemoteExecutionBroadcastConnection._nodes this
  = Some _RemoteExecutionBroadcastNodes.new
  /\ @_RemoteExecutionMessage.from_json_bytes Reference.runtime
       Scenario.blank Discovery.pong_of_n1
     = (true, Sample.pong_of_n1, None)
  /\ _RemoteExecutionMessage.type_ Sample.pong_of_n1 = JStr _TYPE_PONG
  /\ _RemoteExecutionMessage.source Sample.pong_of_n1 = JStr "n1"
  /\ "n1" <> _RemoteExecutionBroadcastConnection._node_id this
  /\ "n1" <> "__proto__"
  /\ _RemoteExecutionBroadcastNodes._remote_nodes _RemoteExecutionBroadcastNodes.new
       !! "hasOwnProperty" = None
  /\ (absent (_RemoteExecutionMessage.dest Sample.pong_of_n1)
      \/ _RemoteExecutionMessage.dest Sample.pong_of_n1
         = JStr (_RemoteExecutionBroadcastConnection._node_id this))
  /\ _RemoteExecutionMessage.data Sample.pong_of_n1 = JObj Registry.machine_WS1
  /\ wall_clock World.initial (clock_reads World.initial) <> 0
  /\ @_RemoteExecutionBroadcastConnection._handle_data Reference.runtime
       this Discovery.pong_of_n1 World.initial
     = (Normal tt,
        _RemoteExecutionBroadcastConnection.set_nodes this
          (Some
             {| _RemoteExecutionBroadcastNodes._remote_nodes :=
                  <["n1" := {| _RemoteExecutionNode.data := VRef 0%nat;
                               _RemoteExecutionNode._last_pong := 1700000000000 |}]>
                    ∅ |}),
        (Date_getTime (alloc Registry.machine_WS1 World.initial).2).2).
Proof.
  intros this.
  split; [reflexivity |]. split; [reflexivity |]. split; [reflexivity |].
  split; [reflexivity |]. split; [discriminate |].
  split; [discriminate |]. split; [reflexivity |].
  split; [left; reflexivity |]. split; [reflexivity |]. split; [discriminate |].
  exact (@pong_registers_node Reference.runtime this
           _RemoteExecutionBroadcastNodes.new Discovery.pong_of_n1
           Sample.pong_of_n1 "n1" Registry.machine_WS1 World.initial
           eq_refl eq_refl eq_refl eq_refl ltac:(discriminate)
           ltac:(discriminate) eq_refl
           (or_introl eq_refl) eq_refl ltac:(discriminate)).
Defined.

(** ** The command connection: closing, receiving, and what goes out *)

Section ConnectionFurther.
Context `{Runtime}.
Import _RemoteExecutionCommandConnection.

Lemma call_on_broadcast (broadcast_connection : option _RemoteExecutionBroadcastConnection.t)
  (message : _RemoteExecutionBroadcastConnection.t -> _RemoteExecutionMessage.t) :
  call_on broadcast_connection
    (fun bc => _RemoteExecutionBroadcastConnection._broadcast_message bc (message bc))
  = match broadcast_connection
          ≫= _RemoteExecutionBroadcastConnection._broadcast_socket with
    | Some _ => (Normal tt, announcing broadcast_connection message)
    | None => (Throw TypeError, broadcast_connection)
    end.
Proof.
  destruct broadcast_connection as [bc |]; [| reflexivity].
  cbn [call_on mbind option_bind announcing fmap option_fmap option_map].
  rewrite broadcast_message_sends.
  destruct (_RemoteExecutionBroadcastConnection._broadcast_socket bc); reflexivity.
Qed.

Lemma close_spec (this : t)
  (broadcast_connection : option _RemoteExecutionBroadcastConnection.t) :
  close this broadcast_connection
  = match broadcast_connection
          ≫= _RemoteExecutionBroadcastConnection._broadcast_socket with
    | Some _ =>
        (Normal tt,
         set_command_listen_socket (set_command_channel_socket this None) None,
         announcing broadcast_connection
           (fun bc =>
              close_connection_to (_RemoteExecutionBroadcastConnection._node_id bc)
                (_remote_node_id this)))
    | None => (Throw TypeError, this, broadcast_connection)
    end.
Proof.
  unfold close.
  change (call_on broadcast_connection _)
    with (call_on broadcast_connection
            (fun bc =>
               _RemoteExecutionBroadcastConnection._broadcast_message bc
                 (close_connection_to (_RemoteExecutionBroadcastConnection._node_id bc)
                    (_remote_node_id this)))).
  rewrite call_on_broadcast.
  destruct (broadcast_connection ≫= _); reflexivity.
Qed.

(** X13.  [close] announces before it releases.  When it returns, the
    accepted socket and the listener are gone, and the discovery connection
    has sent one more datagram, the [close_connection] message from its
    node to the remote node.  When the discovery connection is [null] or
    has no socket, it throws [TypeError] and releases nothing: the
    connection, its accepted socket and its listener stay as they were. *)
Theorem close_notifies_then_releases (this : t)
  (broadcast_connection : option _RemoteExecutionBroadcastConnection.t) :
  let '(outcome, closed, broadcast_connection') := close this broadcast_connection in
  match outcome with
  | Normal _ =>
      _command_channel_socket closed = None
      /\ _command_listen_socket closed = None
      /\ _result closed = _result this
      /\ is_Some (broadcast_connection
                    ≫= _RemoteExecutionBroadcastConnection._broadcast_socket)
      /\ broadcast_connection'
         = (fun bc =>
              having_sent bc
                (datagram_of (_RemoteExecutionBroadcastConnection._config bc)
                   (_RemoteExecutionMessage.new
                      (JStr _TYPE_CLOSE_CONNECTION)
                      (JStr (_RemoteExecutionBroadcastConnection._node_id bc))
                      (JStr (_remote_node_id this)) JUndefined)))
           <$> broadcast_connection
  | Throw error =>
      error = TypeError
      /\ closed = this
      /\ broadcast_connection' = broadcast_connection
      /\ broadcast_connection
           ≫= _RemoteExecutionBroadcastConnection._broadcast_socket = None
  end.
Proof.
  rewrite close_spec.
  destruct (broadcast_connection ≫= _) eqn:Hsocket; repeat split; eauto.
Qed.

(** [_receive_message], by what [from_json_bytes] made of the data. *)
Lemma receive_message_spec (this : t) (text : string) (expected_type : string) :
  _receive_message this (Some text) expected_type
  = let message :=
      (_RemoteExecutionMessage.from_json_bytes Scenario.blank text).1.2 in
    match _RemoteExecutionMessage.passes_receive_filter message (_node_id this) with
    | Throw e => Throw e
    | Normal false => Throw failed_to_send_valid_response
    | Normal true =>
        match loose_eq_str (_RemoteExecutionMessage.type_ message) expected_type with
        | Throw e => Throw e
        | Normal true => Normal message
        | Normal false => Throw failed_to_send_valid_response
        end
    end.
Proof.
  unfold _receive_message. fold Scenario.blank.
  pose proof (from_json_true Scenario.blank text) as Htrue.
  unfold _RemoteExecutionMessage.from_json_bytes.
  destruct (_RemoteExecutionMessage.from_json Scenario.blank text)
    as [[parsed message] error]. cbn [fst snd] in *. subst parsed. cbn zeta.
  destruct (_RemoteExecutionMessage.passes_receive_filter message (_node_id this))
    as [[|] | e]; reflexivity.
Qed.

(** X14.  [_receive_message] has three outcomes.  It returns the message
    the data was decoded to, and does so exactly when that message passes
    the filter of this node and has the expected type; the data then was
    decoded without an error.  Or it throws the error of an invalid
    response, also for data that is no JSON.  Or it throws [TypeError], the
    data having been decoded to a message whose source, destination or type
    does not convert to a string.  The [data] callback of the accepted
    socket, whatever the outcome, leaves the connection as it was. *)
Theorem receive_message_outcome (this : t) (data : option string)
  (expected_type : string) :
  match _receive_message this data expected_type with
  | Normal message =>
      exists text : string,
        data = Some text
        /\ _RemoteExecutionMessage.from_json_bytes Scenario.blank text
           = (true, message, None)
        /\ _RemoteExecutionMessage.passes_receive_filter message (_node_id this)
           = Normal true
        /\ loose_eq_str (_RemoteExecutionMessage.type_ message) expected_type
           = Normal true
  | Throw error =>
      error = failed_to_send_valid_response
      \/ error = TypeError
         /\ exists (text : string) (message : _RemoteExecutionMessage.t),
              data = Some text
              /\ _RemoteExecutionMessage.from_json_bytes Scenario.blank text
                 = (true, message, None)
              /\ (ToString (_RemoteExecutionMessage.source message) = Throw TypeError
                  \/ ToString (_RemoteExecutionMessage.dest message) = Throw TypeError
                  \/ ToString (_RemoteExecutionMessage.type_ message) = Throw TypeError)
  end
  /\ (forall text : string,
        let message :=
          (_RemoteExecutionMessage.from_json_bytes Scenario.blank text).1.2 in
        _RemoteExecutionMessage.passes_receive_filter message (_node_id this)
        = Normal true ->
        loose_eq_str (_RemoteExecutionMessage.type_ message) expected_type
        = Normal true ->
        _receive_message this (Some text) expected_type = Normal message)
  /\ (forall text : string,
        JSON_parse text = None ->
        _receive_message this (Some text) expected_type
        = Throw failed_to_send_valid_response)
  /\ forall text : string,
       on_data this text = (Normal tt, this)
       \/ on_data this text = (Throw failed_to_send_valid_response, this)
       \/ on_data this text = (Throw TypeError, this).
Proof.
  assert (Hone : forall text expected,
    match _receive_message this (Some text) expected with
    | Normal message =>
        _RemoteExecutionMessage.from_json_bytes Scenario.blank text
        = (true, message, None)
        /\ _RemoteExecutionMessage.passes_receive_filter message (_node_id this)
           = Normal true
        /\ loose_eq_str (_RemoteExecutionMessage.type_ message) expected = Normal true
    | Throw error =>
        error = failed_to_send_valid_response
        \/ error = TypeError
           /\ exists message : _RemoteExecutionMessage.t,
                _RemoteExecutionMessage.from_json_bytes Scenario.blank text
                = (true, message, None)
                /\ (ToString (_RemoteExecutionMessage.source message) = Throw TypeError
                    \/ ToString (_RemoteExecutionMessage.dest message) = Throw TypeError
                    \/ ToString (_RemoteExecutionMessage.type_ message)
                       = Throw TypeError)
    end).
  { intros text expected. rewrite receive_message_spec.
    unfold _RemoteExecutionMessage.from_json_bytes, _RemoteExecutionMessage.from_json.
    destruct (_RemoteExecutionMessage.from_json_try text) as [message | error];
      [| left; reflexivity].
    cbn [fst snd].
    destruct (_RemoteExecutionMessage.passes_receive_filter message (_node_id this))
      as [[|] | e] eqn:Hfilter.
    - destruct (loose_eq_str (_RemoteExecutionMessage.type_ message) expected)
        as [[|] | e] eqn:Htype.
      + auto.
      + left. reflexivity.
      + apply loose_eq_str_throws in Htype as [Htype ->].
        right. split; [reflexivity |]. exists message. auto.
    - left. reflexivity.
    - apply passes_receive_filter_throws in Hfilter as [-> Hfilter].
      right. split; [reflexivity |]. exists message.
      split; [reflexivity | tauto]. }
  split; [| split; [| split]].
  - destruct data as [text |]; [| left; reflexivity].
    specialize (Hone text expected_type).
    destruct (_receive_message this (Some text) expected_type) as [message | error].
    + exists text. tauto.
    + destruct Hone as [-> | (-> & message & Hmessage)]; [left; reflexivity |].
      right. split; [reflexivity |]. exists text, message. tauto.
  - intros text message Hfilter Htype. rewrite receive_message_spec.
    subst message. cbn zeta. rewrite Hfilter, Htype. reflexivity.
  - intros text Hparse. rewrite receive_message_spec.
    unfold _RemoteExecutionMessage.from_json_bytes.
    rewrite (from_json_malformed _ _ Hparse). reflexivity.
  - intros text. unfold on_data. specialize (Hone text _TYPE_COMMAND_RESULT).
    destruct (_receive_message this (Some text) _TYPE_COMMAND_RESULT)
      as [message | error]; [left; reflexivity |].
    destruct Hone as [-> | [-> _]]; auto.
Qed.

Lemma json_value_of_scalars (props : list (string * jsval)) :
  NoDup props.*1 ->
  Forall (fun kv => match kv.2 with
                    | JStr _ | JBool _ | JNum _ | JNull => True
                    | _ => False
                    end) props ->
  json_value (JObj props).
Proof.
  intros Hkeys Hvalues. apply jv_obj; [exact Hkeys |].
  eapply Forall_impl; [exact Hvalues |].
  intros [k v] Hv. cbn [snd] in *. destruct v; try contradiction; constructor.
Qed.

Lemma command_to_well_formed (node_id remote_node_id command : string)
  (unattended : bool) (exec_mode : string) :
  node_id <> "" ->
  well_formed (command_to node_id remote_node_id command unattended exec_mode).
Proof.
  intros Hid.
  split; [exists _TYPE_COMMAND; split; [reflexivity | cbn; tauto] |].
  split; [exists node_id; split; [reflexivity | exact Hid] |].
  split; [exact I |]. right. right. eexists. split; [reflexivity |].
  apply json_value_of_scalars.
  - apply (bool_decide_unpack _). vm_compute. exact I.
  - repeat (apply Forall_cons; split); try apply Forall_nil; exact I.
Qed.

Lemma open_connection_to_well_formed (config : RemoteExecutionConfig.t)
  (node_id remote_node_id : string) :
  node_id <> "" ->
  well_formed (open_connection_to config node_id remote_node_id).
Proof.
  intros Hid.
  split; [exists _TYPE_OPEN_CONNECTION; split; [reflexivity | cbn; tauto] |].
  split; [exists node_id; split; [reflexivity | exact Hid] |].
  split; [exact I |]. right. right. eexists. split; [reflexivity |].
  apply json_value_of_scalars.
  - apply (bool_decide_unpack _). vm_compute. exact I.
  - repeat (apply Forall_cons; split); try apply Forall_nil; exact I.
Qed.

Lemma truthy_node_id (node_id : string) : node_id <> "" -> truthy (JStr node_id) = true.
Proof.
  intros Hid. cbn. destruct (String.eqb_spec node_id ""); [contradiction | reflexivity].
Qed.

Lemma wait_keeps_channel (fuel : nat) (this : t) :
  _command_channel_socket (wait_for_result fuel this).2 = _command_channel_socket this.
Proof.
  revert this. induction fuel as [| fuel IH]; intros this; cbn [wait_for_result];
    [reflexivity |].
  destruct (_result this); [reflexivity | apply IH].
Qed.

(** Whatever becomes of the call, [run_command] has written its frame. *)
Lemma run_command_writes (fuel : nat) (this : t) (channel : socket)
  (command : string) (unattended : bool) (exec_mode : string) :
  _command_channel_socket this = Some channel ->
  _command_channel_socket (run_command fuel this command unattended exec_mode).2
  = Some {| written :=
              written channel
              ++ [_RemoteExecutionMessage.to_json
                    (command_to (_node_id this) (_remote_node_id this)
                       command unattended exec_mode)] |}.
Proof.
  intros Hchannel. unfold run_command, _send_message. rewrite Hchannel.
  fold (command_to (_node_id this) (_remote_node_id this) command unattended exec_mode).
  match goal with
  | |- context [wait_for_result fuel ?that] =>
      pose proof (wait_keeps_channel fuel that) as Hkept;
      destruct (wait_for_result fuel that) as [[result | e |] this']
  end; cbn [snd] in *; rewrite Hkept; reflexivity.
Qed.

(** X15.  What [run_command] writes reads back: on a platform whose JSON
    reads back what it printed, the one frame the call adds to the accepted
    socket is decoded by [from_json] to the message of type [command] from
    this node to the remote node whose payload holds the command, the
    unattended flag and the execution mode as they were given. *)
Theorem command_frame_reads_back (this : t) (channel : socket) (fuel : nat)
  (command : string) (unattended : bool) (exec_mode : string) :
  JSON_reads_back ->
  _node_id this <> "" ->
  _remote_node_id this <> "" ->
  _command_channel_socket this = Some channel ->
  exists frame : string,
    _command_channel_socket (run_command fuel this command unattended exec_mode).2
    = Some {| written := written channel ++ [frame] |}
    /\ _RemoteExecutionMessage.from_json Scenario.blank frame
       = (true,
          {| _RemoteExecutionMessage.type_ := JStr _TYPE_COMMAND;
             _RemoteExecutionMessage.source := JStr (_node_id this);
             _RemoteExecutionMessage.dest := JStr (_remote_node_id this);
             _RemoteExecutionMessage.data :=
               JObj [("command", JStr command);
                     ("unattended", JBool unattended);
                     ("exec_mode", JStr exec_mode)] |},
          None).
Proof.
  intros Hplatform Hid Hremote Hchannel.
  exists (_RemoteExecutionMessage.to_json
            (command_to (_node_id this) (_remote_node_id this)
               command unattended exec_mode)).
  split; [apply run_command_writes; exact Hchannel |].
  rewrite (from_json_to_json _ Scenario.blank Hplatform
             (command_to_well_formed _ _ _ _ _ Hid)).
  unfold command_to, _RemoteExecutionMessage.new.
  cbn [_RemoteExecutionMessage.type_ _RemoteExecutionMessage.source
         _RemoteExecutionMessage.dest _RemoteExecutionMessage.data
         _RemoteExecutionMessage.default_null].
  rewrite (truthy_node_id _ Hremote). reflexivity.
Qed.

(** X16.  [open] asks the remote node to connect where it listens: with a
    discovery connection of the same configuration, the datagram [open]
    has sent is decoded to the [open_connection] message for the remote
    node whose payload names, as [command_ip] and [command_port], the host
    and the port the listener was set to listen on. *)
Theorem open_advertises_its_listener (this : t)
  (broadcast_connection : _RemoteExecutionBroadcastConnection.t)
  (udp : _RemoteExecutionBroadcastConnection.udp_socket) :
  JSON_reads_back ->
  _RemoteExecutionBroadcastConnection._node_id broadcast_connection <> "" ->
  _remote_node_id this <> "" ->
  _RemoteExecutionBroadcastConnection._config broadcast_connection = _config this ->
  _RemoteExecutionBroadcastConnection._broadcast_socket broadcast_connection = Some udp ->
  let '(outcome, opened, broadcast_connection') :=
    open this (Some broadcast_connection) in
  exists (request : _RemoteExecutionBroadcastConnection.datagram)
         (host : string) (port : Z),
    (_RemoteExecutionBroadcastConnection.sent
       <$> (broadcast_connection'
              ≫= _RemoteExecutionBroadcastConnection._broadcast_socket))
    = Some (_RemoteExecutionBroadcastConnection.sent udp ++ [request])%list
    /\ _command_listen_socket opened
       = Some {| listen_port := port; listen_host := host; listen_backlog := 1 |}
    /\ _RemoteExecutionMessage.from_json Scenario.blank
         (_RemoteExecutionBroadcastConnection.dgram_data request)
       = (true,
          {| _RemoteExecutionMessage.type_ := JStr _TYPE_OPEN_CONNECTION;
             _RemoteExecutionMessage.source :=
               JStr (_RemoteExecutionBroadcastConnection._node_id broadcast_connection);
             _RemoteExecutionMessage.dest := JStr (_remote_node_id this);
             _RemoteExecutionMessage.data :=
               JObj [("command_ip", JStr host); ("command_port", JNum port)] |},
          None).
Proof.
  intros Hplatform Hid Hremote Hconfig Hudp.
  unfold open, _try_accept.
  rewrite try_accept_first_turn by (cbn; eauto).
  cbn [call_on set_nodes _init_command_listen_socket set_command_listen_socket
         _remote_node_id _config _command_listen_socket].
  unfold _RemoteExecutionBroadcastConnection.broadcast_open_connection.
  fold (open_connection_to
          (_RemoteExecutionBroadcastConnection._config broadcast_connection)
          (_RemoteExecutionBroadcastConnection._node_id broadcast_connection)
          (_remote_node_id this)).
  rewrite broadcast_message_sends, Hudp.
  eexists _, _, _. split; [| split].
  - cbn. rewrite Hudp. reflexivity.
  - reflexivity.
  - cbn [datagram_of _RemoteExecutionBroadcastConnection.dgram_data].
    rewrite (from_json_to_json _ Scenario.blank Hplatform
               (open_connection_to_well_formed _ _ _ Hid)).
    unfold open_connection_to, _RemoteExecutionMessage.new.
    cbn [_RemoteExecutionMessage.type_ _RemoteExecutionMessage.source
           _RemoteExecutionMessage.dest _RemoteExecutionMessage.data
           _RemoteExecutionMessage.default_null].
    rewrite (truthy_node_id _ Hremote), Hconfig. reflexivity.
Qed.

End ConnectionFurther.

Lemma command_frame_reads_back_witness :
  let frame :=
    Reference.wire
      "{'version':1,'magic':'ue_py','type':'command','source':'local','dest':'n1','data':{'command':'print(1)','unattended':true,'exec_mode':'ExecuteFile'}}" in
  @JSON_reads_back Reference.runtime
  /\ (_RemoteExecutionCommandConnection._node_id Sample.connected <> ""
      /\ _RemoteExecutionCommandConnection._remote_node_id Sample.connected <> "")
  /\ _RemoteExecutionCommandConnection._command_channel_socket Sample.connected
     = Some Channel.mock_socket
  /\ (exists frame : string,
        _RemoteExecutionCommandConnection._command_channel_socket
          (@_RemoteExecutionCommandConnection.run_command Reference.runtime 3
             Sample.connected "print(1)" true MODE_EXEC_FILE).2
        = Some
            {| _RemoteExecutionCommandConnection.written :=
                 _RemoteExecutionCommandConnection.written Channel.mock_socket
                 ++ [frame] |}
        /\ @_RemoteExecutionMessage.from_json Reference.runtime Scenario.blank frame
           = (true,
              {| _RemoteExecutionMessage.type_ := JStr _TYPE_COMMAND;
                 _RemoteExecutionMessage.source := JStr "local";
                 _RemoteExecutionMessage.dest := JStr "n1";
                 _RemoteExecutionMessage.data :=
                   JObj [("command", JStr "print(1)");
                         ("unattended", JBool true);
                         ("exec_mode", JStr MODE_EXEC_FILE)] |},
              None))
  /\ _RemoteExecutionCommandConnection._command_channel_socket
       (@_RemoteExecutionCommandConnection.run_command Reference.runtime 3
          Sample.connected "print(1)" true MODE_EXEC_FILE).2
     = Some {| _RemoteExecutionCommandConnection.written := [frame] |}.
Proof.
  intros frame.
  split; [exact parse_stringify |].
  split; [split; discriminate |].
  split; [reflexivity |].
  split; [| reflexivity].
  exact (@command_frame_reads_back Reference.runtime Sample.connected
           Channel.mock_socket 3 "print(1)" true MODE_EXEC_FILE
           parse_stringify ltac:(discriminate) ltac:(discriminate) eq_refl).
Defined.

Lemma open_advertises_its_listener_witness :
  let this :=
    _RemoteExecutionCommandConnection.new RemoteExecutionConfig.new "local" "n1" in
  @JSON_reads_back Reference.runtime
  /\ (_RemoteExecutionBroadcastConnection._node_id Channel.discovery <> ""
      /\ _RemoteExecutionCommandConnection._remote_node_id this <> "")
  /\ _RemoteExecutionBroadcastConnection._config Channel.discovery
     = _RemoteExecutionCommandConnection._config this
  /\ _RemoteExecutionBroadcastConnection._broadcast_socket Channel.discovery
     = Some Sample.udp
  /\ (let '(outcome, opened, broadcast_connection') :=
        @_RemoteExecutionCommandConnection.open Reference.runtime
          this (Some Channel.discovery) in
      exists (request : _RemoteExecutionBroadcastConnection.datagram)
             (host : string) (port : Z),
        (_RemoteExecutionBroadcastConnection.sent
           <$> (broadcast_connection'
                  ≫= _RemoteExecutionBroadcastConnection._broadcast_socket))
        = Some (_RemoteExecutionBroadcastConnection.sent Sample.udp ++ [request])%list
        /\ _RemoteExecutionCommandConnection._command_listen_socket opened
           = Some {| _RemoteExecutionCommandConnection.listen_port := port;
                     _RemoteExecutionCommandConnection.listen_host := host;
                     _RemoteExecutionCommandConnection.listen_backlog := 1 |}
        /\ @_RemoteExecutionMessage.from_json Reference.runtime Scenario.blank
             (_RemoteExecutionBroadcastConnection.dgram_data request)
           = (true,
              {| _RemoteExecutionMessage.type_ := JStr _TYPE_OPEN_CONNECTION;
                 _RemoteExecutionMessage.source :=
                   JStr (_RemoteExecutionBroadcastConnection._node_id
                           Channel.discovery);
                 _RemoteExecutionMessage.dest :=
                   JStr (_RemoteExecutionCommandConnection._remote_node_id this);
                 _RemoteExecutionMessage.data :=
                   JObj [("command_ip", JStr host); ("command_port", JNum port)] |},
              None)).
Proof.
  intros this.
  split; [exact parse_stringify |].
  split; [split; discriminate |].
  split; [reflexivity |]. split; [reflexivity |].
  exact (@open_advertises_its_listener Reference.runtime this Channel.discovery
           Sample.udp parse_stringify ltac:(discriminate) ltac:(discriminate)
           eq_refl eq_refl).
Defined.

(** ** The session: stopping, opening, and the list of nodes *)

Section SessionFurther.
Context `{Runtime}.
Import RemoteExecution.

Lemma stop_spec (this : t) :
  stop this
  = match _command_connection this,
          _broadcast_connection this
            ≫= _RemoteExecutionBroadcastConnection._broadcast_socket with
    | Some _, None => (Throw TypeError, this)
    | _, _ => (Normal tt, set_connections this None None)
    end.
Proof.
  unfold stop, close_command_connection.
  destruct this as [config broadcast_connection command_connection node_id].
  cbn [_command_connection _broadcast_connection].
  destruct command_connection as [connection |].
  - rewrite close_spec.
    destruct (broadcast_connection ≫= _) eqn:Hsocket; [| reflexivity].
    destruct broadcast_connection; [reflexivity | discriminate].
  - destruct broadcast_connection as [bc |]; cbn [mbind option_bind];
      [destruct (_RemoteExecutionBroadcastConnection._broadcast_socket bc) |];
      reflexivity.
Qed.

(** X17.  [stop] ends the session or changes nothing.  When it returns,
    both connections are [null], [has_command_connection] answers [false],
    the list of nodes is empty, and another [stop] does nothing.  It throws,
    [TypeError], exactly when there is a command connection and no
    discovery socket to announce its closing on, and then the session is
    what it was, command connection included. *)
Theorem stop_outcome (this : t) (w : world) :
  let '(outcome, stopped) := stop this in
  match outcome with
  | Normal _ =>
      _command_connection stopped = None
      /\ _broadcast_connection stopped = None
      /\ has_command_connection stopped = false
      /\ remote_nodes stopped w = ([], w)
      /\ stop stopped = (Normal tt, stopped)
  | Throw error =>
      error = TypeError
      /\ stopped = this
      /\ is_Some (_command_connection this)
      /\ _broadcast_connection this
           ≫= _RemoteExecutionBroadcastConnection._broadcast_socket = None
  end.
Proof.
  rewrite stop_spec.
  destruct (_command_connection this) as [connection |] eqn:Hcommand;
    destruct (_broadcast_connection this
                ≫= _RemoteExecutionBroadcastConnection._broadcast_socket)
      eqn:Hsocket;
    repeat split; eauto.
Qed.

(** X18.  [open_command_connection] makes the command connection before
    it opens it, so that [has_command_connection] answers [true] when the
    call returns and when it throws (it throws [TypeError] on a session
    without a discovery socket).  The connection it leaves listens and has
    accepted nothing; a command connection the session had is dropped
    without a [close_connection] message, the one datagram sent being the
    [open_connection] message for the new node; and [run_command] on the
    session as the call leaves it throws [TypeError]. *)
Theorem open_command_connection_outcome (this : t) (remote_node_id : string) :
  let '(outcome, opened) := open_command_connection this remote_node_id in
  outcome
  = match _broadcast_connection this
          ≫= _RemoteExecutionBroadcastConnection._broadcast_socket with
    | Some _ => Normal tt
    | None => Throw TypeError
    end
  /\ _command_connection opened
     = Some (listening_for (_config this) (_node_id this) remote_node_id)
  /\ has_command_connection opened = true
  /\ _broadcast_connection opened
     = match _broadcast_connection this
             ≫= _RemoteExecutionBroadcastConnection._broadcast_socket with
       | Some _ =>
           announcing (_broadcast_connection this)
             (fun bc =>
                open_connection_to
                  (_RemoteExecutionBroadcastConnection._config bc)
                  (_RemoteExecutionBroadcastConnection._node_id bc)
                  remote_node_id)
       | None => _broadcast_connection this
       end
  /\ forall (fuel : nat) (command : string) (unattended : bool)
            (exec_mode : string) (raise_on_failure : bool),
       (run_command fuel opened command unattended exec_mode raise_on_failure).1
       = _RemoteExecutionCommandConnection.Throws TypeError.
Proof.
  unfold open_command_connection, _RemoteExecutionCommandConnection.open,
    _RemoteExecutionCommandConnection._try_accept.
  fold (listening_for (_config this) (_node_id this) remote_node_id).
  rewrite try_accept_first_turn by (cbn; eauto).
  change (call_on (_broadcast_connection this) _)
    with (call_on (_broadcast_connection this)
            (fun bc =>
               _RemoteExecutionBroadcastConnection._broadcast_message bc
                 (open_connection_to
                    (_RemoteExecutionBroadcastConnection._config bc)
                    (_RemoteExecutionBroadcastConnection._node_id bc)
                    remote_node_id))).
  rewrite call_on_broadcast.
  destruct (_broadcast_connection this ≫= _); repeat split.
Qed.

(** *** The registry of a session *)

Lemma remote_nodes_of_session (this : t) (w : world) :
  remote_nodes this w
  = _RemoteExecutionBroadcastNodes.remote_nodes
      {| _RemoteExecutionBroadcastNodes._remote_nodes := Session.registry this |} w.
Proof.
  unfold remote_nodes, Session.registry,
    _RemoteExecutionBroadcastConnection.remote_nodes.
  destruct (_broadcast_connection this) as [bc |];
    cbn [mbind option_bind]; [| reflexivity].
  destruct (_RemoteExecutionBroadcastConnection._nodes bc) as [[nodes] |];
    reflexivity.
Qed.

Lemma holds_own_data_registry (bc : _RemoteExecutionBroadcastConnection.t)
  (this : t) (w : world) :
  _broadcast_connection this = Some bc ->
  holds_own_data (bc, w) -> own_data (Session.registry this) w.
Proof.
  intros Hbc. unfold holds_own_data, Session.registry. rewrite Hbc.
  cbn [fst snd mbind option_bind].
  destruct (_RemoteExecutionBroadcastConnection._nodes bc); [auto |].
  intros _. apply own_data_empty.
Qed.

Lemma registry_set_command (this : t)
  (command_connection : option _RemoteExecutionCommandConnection.t) :
  Session.registry
    (set_connections this (_broadcast_connection this) command_connection)
  = Session.registry this.
Proof. reflexivity. Qed.

Lemma registry_announcing (this : t)
  (command_connection : option _RemoteExecutionCommandConnection.t)
  (message : _RemoteExecutionBroadcastConnection.t -> _RemoteExecutionMessage.t) :
  Session.registry
    (set_connections this (announcing (_broadcast_connection this) message)
       command_connection)
  = Session.registry this.
Proof.
  unfold Session.registry, announcing.
  cbn [set_connections _broadcast_connection].
  destruct (_broadcast_connection this); reflexivity.
Qed.

Lemma registry_after_open (this : t) (remote_node_id : string) :
  Session.registry (open_command_connection this remote_node_id).2
  = Session.registry this.
Proof.
  unfold open_command_connection, _RemoteExecutionCommandConnection.open,
    _RemoteExecutionCommandConnection._try_accept.
  rewrite try_accept_first_turn by (cbn; eauto).
  change (call_on (_broadcast_connection this) _)
    with (call_on (_broadcast_connection this)
            (fun bc =>
               _RemoteExecutionBroadcastConnection._broadcast_message bc
                 (open_connection_to
                    (_RemoteExecutionBroadcastConnection._config bc)
                    (_RemoteExecutionBroadcastConnection._node_id bc)
                    remote_node_id))).
  rewrite call_on_broadcast.
  destruct (_broadcast_connection this ≫= _); cbn [snd].
  - apply registry_announcing.
  - apply registry_set_command.
Qed.

Lemma registry_after_close (this : t) :
  Session.registry (close_command_connection this).2 = Session.registry this.
Proof.
  unfold close_command_connection.
  destruct (_command_connection this) as [connection |]; [| reflexivity].
  rewrite close_spec.
  destruct (_broadcast_connection this ≫= _); cbn [snd].
  - apply registry_announcing.
  - apply registry_set_command.
Qed.

Lemma registry_discovery_step (this : t)
  (bc bc' : _RemoteExecutionBroadcastConnection.t) (w w' : world)
  (e : Discovery.event) :
  _broadcast_connection this = Some bc ->
  Discovery.step (bc, w) e = (bc', w') ->
  own_data (Session.registry this) w ->
  own_data
    (Session.registry (set_connections this (Some bc') (_command_connection this)))
    w'.
Proof.
  intros Hbc Hstep Hown.
  pose proof (step_keeps_own_data (bc, w) e) as Hkeeps.
  rewrite Hstep in Hkeeps.
  apply (holds_own_data_registry bc'); [reflexivity |].
  apply Hkeeps. unfold holds_own_data. cbn [fst snd].
  unfold Session.registry in Hown. rewrite Hbc in Hown.
  cbn [mbind option_bind] in Hown.
  destruct (_RemoteExecutionBroadcastConnection._nodes bc); [exact Hown | exact I].
Qed.

(** Whatever happens to a session, every node of its registry has a data
    object of its own. *)
Lemma session_step_keeps_own_data (state : t * world) (e : Session.event) :
  own_data (Session.registry state.1) state.2 ->
  own_data (Session.registry (Session.step state e).1) (Session.step state e).2.
Proof.
  destruct state as [this w]. cbn [fst snd]. intros Hown.
  destruct e as [| | remote_node_id | | data | | accepted | data |];
    cbn [Session.step fst snd].
  - apply own_data_empty.
  - unfold stop.
    pose proof (registry_after_close this) as Hclose.
    destruct (close_command_connection this) as [[[] | error] closed];
      cbn [snd] in *; [| rewrite Hclose; exact Hown].
    unfold Session.registry. cbn [set_connections _broadcast_connection].
    destruct (_broadcast_connection closed); apply own_data_empty.
  - rewrite registry_after_open. exact Hown.
  - rewrite registry_after_close. exact Hown.
  - destruct (_broadcast_connection this) as [bc |] eqn:Hbc; [| exact Hown].
    destruct (_RemoteExecutionBroadcastConnection._handle_data bc data w)
      as [[outcome bc'] w'] eqn:Hstep. cbn [fst snd].
    apply (registry_discovery_step this bc bc' w w' (Discovery.Datagram data) Hbc);
      [cbn [Discovery.step]; rewrite Hstep; reflexivity | exact Hown].
  - destruct (_broadcast_connection this) as [bc |] eqn:Hbc; [| exact Hown].
    destruct (_RemoteExecutionBroadcastConnection.on_interval bc w)
      as [[outcome bc'] w'] eqn:Hstep. cbn [fst snd].
    apply (registry_discovery_step this bc bc' w w' Discovery.Tick Hbc);
      [cbn [Discovery.step]; rewrite Hstep; reflexivity | exact Hown].
  - exact Hown.
  - exact Hown.
  - rewrite remote_nodes_of_session.
    apply (own_data_later _ w); [| exact Hown].
    apply remote_nodes_loop_next_loc.
Qed.

Lemma session_own_data (config : RemoteExecutionConfig.t) (uuid : string)
  (w : world) (events : list Session.event) :
  own_data (Session.registry (Session.after config uuid w events).1)
           (Session.after config uuid w events).2.
Proof.
  unfold Session.after.
  induction events as [| e events IH] using rev_ind; [apply own_data_empty |].
  rewrite foldl_snoc. apply session_step_keeps_own_data. exact IH.
Qed.

Lemma snapshot_size (this : _RemoteExecutionBroadcastNodes.t) (w : world) :
  own_data (_RemoteExecutionBroadcastNodes._remote_nodes this) w ->
  length (_RemoteExecutionBroadcastNodes.remote_nodes this w).1
  = size (_RemoteExecutionBroadcastNodes._remote_nodes this).
Proof.
  intros Hown.
  destruct (map_to_list (_RemoteExecutionBroadcastNodes._remote_nodes this))
    as [| [k node] rest] eqn:Hentries.
  - apply map_to_list_empty_iff in Hentries.
    unfold _RemoteExecutionBroadcastNodes.remote_nodes.
    rewrite Hentries, map_to_list_empty, map_size_empty. reflexivity.
  - assert (Hk : _RemoteExecutionBroadcastNodes._remote_nodes this !! k = Some node).
    { apply elem_of_map_to_list. rewrite Hentries. apply elem_of_cons. left. reflexivity. }
    apply (snapshot_one_record_per_node this w k node Hown Hk).
Qed.

Lemma no_entry_for_key (n : string)
  (entries : list (string * _RemoteExecutionNode.t)) :
  n ∉ entries.*1 ->
  length (List.filter (fun entry => String.eqb entry.1 n) entries) = 0%nat.
Proof.
  induction entries as [| [k node] entries IH]; intros Hn; [reflexivity |].
  cbn [List.filter fst]. cbn in Hn. apply not_elem_of_cons in Hn as [Hne Hn].
  destruct (String.eqb_spec k n) as [-> | _]; [contradiction |].
  apply IH. exact Hn.
Qed.

Lemma snapshot_records_count (this : _RemoteExecutionBroadcastNodes.t)
  (w : world) (n : string) :
  own_data (_RemoteExecutionBroadcastNodes._remote_nodes this) w ->
  length (records_for n (_RemoteExecutionBroadcastNodes.remote_nodes this w).2
            (_RemoteExecutionBroadcastNodes.remote_nodes this w).1)
  = if bool_decide (is_Some (_RemoteExecutionBroadcastNodes._remote_nodes this !! n))
    then 1%nat else 0%nat.
Proof.
  intros [Hbelow Hown]. unfold _RemoteExecutionBroadcastNodes.remote_nodes.
  destruct (remote_nodes_loop_spec
              (map_to_list (_RemoteExecutionBroadcastNodes._remote_nodes this)) [] w)
    as (records & w' & Hloop & Hids & _).
  - apply NoDup_fst_map_to_list.
  - intros k node' l Hin. apply elem_of_map_to_list in Hin. eauto.
  - intros k1 k2 node1 node2 l Hin1 Hin2.
    apply elem_of_map_to_list in Hin1, Hin2. eauto.
  - rewrite Hloop. cbn [fst snd app].
    rewrite (records_for_count n w' _ _ Hids).
    case_bool_decide as Hn.
    + destruct Hn as [node Hn].
      apply (one_entry_per_key n node); [apply NoDup_fst_map_to_list |].
      apply elem_of_map_to_list. exact Hn.
    + apply no_entry_for_key. intros Hin.
      apply list_elem_of_fmap in Hin as ([k node] & -> & Hin).
      apply elem_of_map_to_list in Hin. apply Hn. cbn. eauto.
Qed.

(** X19.  Whatever has happened to a session (starts and stops, command
    connections opened and closed, datagrams, timer ticks, accepted sockets,
    data received, earlier readings of the list), the getter [remote_nodes]
    returns as many records as the session knows nodes, and for every node
    id exactly one record that carries it if the node is known, none if it
    is not.  The datagrams are ordinary ones: none from a node named
    [__proto__], none with a payload that does not print. *)
Theorem session_lists_each_node_once (config : RemoteExecutionConfig.t)
  (uuid : string) (w : world) (events : list Session.event) :
  Forall ordinary events ->
  let '(this, w1) := Session.after config uuid w events in
  let '(records, w2) := remote_nodes this w1 in
  length records = size (Session.registry this)
  /\ forall node_id : string,
       length (records_for node_id w2 records)
       = if bool_decide (is_Some (Session.registry this !! node_id))
         then 1%nat else 0%nat.
Proof.
  intros _.
  pose proof (session_own_data config uuid w events) as Hown.
  destruct (Session.after config uuid w events) as [this w1]. cbn [fst snd] in Hown.
  rewrite remote_nodes_of_session.
  pose proof (snapshot_size {| _RemoteExecutionBroadcastNodes._remote_nodes :=
                                 Session.registry this |} w1 Hown) as Hsize.
  pose proof (fun n =>
                snapshot_records_count
                  {| _RemoteExecutionBroadcastNodes._remote_nodes :=
                       Session.registry this |} w1 n Hown) as Hcount.
  destruct (_RemoteExecutionBroadcastNodes.remote_nodes _ w1) as [records w2].
  cbn [fst snd _RemoteExecutionBroadcastNodes._remote_nodes] in *.
  split; [exact Hsize | exact Hcount].
Qed.

End SessionFurther.

(** ** The extension: the quick pick and the two commands *)

Section ExtensionFurther.
Context `{Runtime}.
Import Extension.

Lemma own_property_set_other (props : list (string * jsval)) (key key' : string)
  (v : jsval) :
  key <> key' -> own_property (set_property props key v) key' = own_property props key'.
Proof.
  intros Hne. induction props as [| [k x] props IH]; cbn [set_property own_property].
  - destruct (String.eqb_spec key key'); [contradiction | reflexivity].
  - destruct (String.eqb_spec k key) as [-> | Hk]; cbn [own_property].
    + destruct (String.eqb_spec key key'); [contradiction | reflexivity].
    + destruct (String.eqb k key'); [reflexivity | exact IH].
Qed.

Lemma has_id_count (node_id : string) (w : world) (records : list loc) :
  length
    (List.filter (has_id node_id)
       (map (fun x =>
               {| label := own_property (read_object x w) "machine";
                  description := own_property (read_object x w) "engine_version";
                  detail := own_property (read_object x w) "project_root";
                  id := own_property (read_object x w) "node_id" |})
            records))
  = length (records_for node_id w records).
Proof.
  unfold records_for.
  induction records as [| x records IH]; [reflexivity |].
  cbn [map List.filter]. unfold has_id at 1, is_record_for at 1, record_node_id.
  cbn [id].
  destruct (own_property (read_object x w) "node_id"); try exact IH.
  destruct (String.eqb _ node_id); cbn [length]; rewrite IH; reflexivity.
Qed.

(** X20.  The list the extension offers in its quick pick, whatever has
    happened to the session: one item for every node the session knows,
    and for every node id exactly one item that carries it if the node is
    known, none if not; the item of a node has the node's id for [id] and
    the node's attributes [machine], [engine_version] and [project_root] for
    [label], [description] and [detail].  The interval callback of the
    search resolves its promise, with the list of records, exactly when the
    session knows a node.  The datagrams are ordinary ones: none from a
    node named [__proto__], none with a payload that does not print. *)
Theorem quick_pick_lists_each_node (config : RemoteExecutionConfig.t)
  (uuid : string) (w : world) (events : list Session.event) :
  Forall ordinary events ->
  let '(session, w1) := Session.after config uuid w events in
  let '(items, w2) := nodes_list session w1 in
  length items = size (Session.registry session)
  /\ (forall node_id : string,
        length (List.filter (has_id node_id) items)
        = if bool_decide (is_Some (Session.registry session !! node_id))
          then 1%nat else 0%nat)
  /\ (forall (node_id : string) (node : _RemoteExecutionNode.t),
        Session.registry session !! node_id = Some node ->
        exists item : quick_pick_item,
          item ∈ items
          /\ id item = JStr node_id
          /\ label item = own_property (attributes w1 node) "machine"
          /\ description item = own_property (attributes w1 node) "engine_version"
          /\ detail item = own_property (attributes w1 node) "project_root")
  /\ (node_checker session w1).1
     = if bool_decide (Session.registry session = ∅) then None
       else Some (RemoteExecution.remote_nodes session
                    (RemoteExecution.remote_nodes session w1).2).1.
Proof.
  intros _.
  pose proof (session_own_data config uuid w events) as Hown.
  destruct (Session.after config uuid w events) as [session w1].
  cbn [fst snd] in Hown.
  unfold nodes_list, node_checker. rewrite !remote_nodes_of_session.
  set (registry := {| _RemoteExecutionBroadcastNodes._remote_nodes :=
                        Session.registry session |}) in *.
  pose proof (snapshot_size registry w1 Hown) as Hsize.
  pose proof (fun n => snapshot_records_count registry w1 n Hown) as Hcount.
  pose proof (fun n node => snapshot_record registry w1 n node Hown) as Hcontents.
  destruct (_RemoteExecutionBroadcastNodes.remote_nodes registry w1)
    as [records w2].
  cbn [fst snd _RemoteExecutionBroadcastNodes._remote_nodes registry] in *.
  split; [rewrite length_map; exact Hsize |].
  split; [intros node_id; rewrite has_id_count; apply Hcount |].
  split.
  - intros node_id node Hnode.
    destruct (Hcontents node_id node Hnode) as (record & Hin & Hwhat & _).
    eexists. split; [apply list_elem_of_fmap; exists record; split; [reflexivity | exact Hin] |].
    cbn [id label description detail]. unfold read_object. rewrite Hwhat.
    cbn [default from_option id].
    split; [apply own_property_set |].
    repeat split; apply own_property_set_other; discriminate.
  - rewrite Hsize. case_bool_decide as Hempty.
    + rewrite Hempty, map_size_empty. reflexivity.
    + apply map_size_non_empty_iff in Hempty.
      destruct (size (Session.registry session)); [contradiction |].
      cbn [Nat.ltb Nat.leb]. rewrite remote_nodes_of_session. fold registry.
      destruct (_RemoteExecutionBroadcastNodes.remote_nodes registry w2).
      reflexivity.
Qed.

(** X21.  [send2ue] on a session without a command connection sends
    nothing and asks for no text: it starts one search for nodes, tells the
    user to connect first, and returns, the session being what it was, with
    or without an active editor. *)
Theorem send2ue_without_connection (fuel : nat) (this : t)
  (activeTextEditor : option editor) :
  RemoteExecution.has_command_connection (remote_exec this) = false ->
  send2ue fuel this activeTextEditor
  = (_RemoteExecutionCommandConnection.Returns tt,
     {| remote_exec := remote_exec this;
        information_messages :=
          information_messages this
          ++ ["Sending code to Unreal Engine";
              "You need to connect to a UE node first"];
        node_searches := S (node_searches this) |}).
Proof.
  intros Hnone. destruct this as [session messages searches].
  cbn [remote_exec information_messages node_searches] in *.
  unfold send2ue, connecting_to_ue, showInformationMessage, get_nodes.
  cbn [remote_exec information_messages node_searches]. rewrite Hnone.
  cbn [negb snd remote_exec]. rewrite Hnone.
  cbn [information_messages node_searches]. rewrite <- app_assoc. reflexivity.
Qed.

(** X22.  [send2ue] on a session whose command connection has an accepted
    socket writes one frame to that socket, the command whose text is the
    selection of the active editor, or the whole document when the
    selection is empty, with the unattended flag set and the execution mode
    [ExecuteFile]; it shows the one message that code is being sent, starts
    no search and sends nothing on the discovery socket. *)
Theorem send2ue_writes_the_text (fuel : nat) (this : t) (shown : editor)
  (connection : _RemoteExecutionCommandConnection.t)
  (channel : _RemoteExecutionCommandConnection.socket) :
  RemoteExecution._command_connection (remote_exec this) = Some connection ->
  _RemoteExecutionCommandConnection._command_channel_socket connection = Some channel ->
  let this' := (send2ue fuel this (Some shown)).2 in
  (RemoteExecution._command_connection (remote_exec this')
     ≫= _RemoteExecutionCommandConnection._command_channel_socket)
  = Some
      {| _RemoteExecutionCommandConnection.written :=
           _RemoteExecutionCommandConnection.written channel
           ++ [_RemoteExecutionMessage.to_json
                 (_RemoteExecutionMessage.new
                    (JStr _TYPE_COMMAND)
                    (JStr (_RemoteExecutionCommandConnection._node_id connection))
                    (JStr (_RemoteExecutionCommandConnection._remote_node_id connection))
                    (JObj [("command",
                            JStr (if selection_isEmpty shown
                                  then document_text shown
                                  else selection_text shown));
                           ("unattended", JBool true);
                           ("exec_mode", JStr MODE_EXEC_FILE)]))] |}
  /\ RemoteExecution._broadcast_connection (remote_exec this')
     = RemoteExecution._broadcast_connection (remote_exec this)
  /\ information_messages this'
     = (information_messages this ++ ["Sending code to Unreal Engine"])%list
  /\ node_searches this' = node_searches this.
Proof.
  intros Hconnection Hchannel.
  destruct this as [session messages searches].
  cbn [remote_exec information_messages node_searches] in *.
  assert (Hhas : RemoteExecution.has_command_connection session = true).
  { unfold RemoteExecution.has_command_connection. rewrite Hconnection.
    apply bool_decide_eq_true_2. eauto. }
  unfold send2ue, showInformationMessage.
  cbn [remote_exec information_messages node_searches]. rewrite Hhas.
  cbn [negb remote_exec]. rewrite Hhas.
  assert (Htext : getText (Some shown)
                  = Normal (if selection_isEmpty shown
                            then document_text shown else selection_text shown)).
  { unfold getText. destruct (selection_isEmpty shown); reflexivity. }
  rewrite Htext. set (text := if selection_isEmpty shown then _ else _).
  unfold RemoteExecution.run_command. rewrite Hconnection.
  pose proof (run_command_writes fuel connection channel text true "ExecuteFile"
                Hchannel) as Hwritten.
  destruct (_RemoteExecutionCommandConnection.run_command fuel connection text true
              "ExecuteFile") as [[data | error |] connection'];
    cbn [snd] in Hwritten; cbn zeta;
    try (destruct (RemoteExecution.run_command_check false data));
    cbn [snd set_remote_exec remote_exec RemoteExecution.set_connections
           RemoteExecution._command_connection RemoteExecution._broadcast_connection
           information_messages node_searches mbind option_bind];
    repeat split; exact Hwritten.
Qed.

Lemma has_command_connection_spec (session : RemoteExecution.t) :
  RemoteExecution.has_command_connection session
  = match RemoteExecution._command_connection session with
    | Some _ => true
    | None => false
    end.
Proof.
  unfold RemoteExecution.has_command_connection.
  destruct (RemoteExecution._command_connection session); reflexivity.
Qed.

Lemma connecting_to_ue_spec (this : t) :
  connecting_to_ue this
  = match RemoteExecution._command_connection (remote_exec this),
          RemoteExecution._broadcast_connection (remote_exec this)
            ≫= _RemoteExecutionBroadcastConnection._broadcast_socket with
    | Some connection, Some _ =>
        (Normal tt,
         get_nodes
           (set_remote_exec this
              (RemoteExecution.set_connections (remote_exec this)
                 (announcing (RemoteExecution._broadcast_connection (remote_exec this))
                    (fun bc =>
                       close_connection_to
                         (_RemoteExecutionBroadcastConnection._node_id bc)
                         (_RemoteExecutionCommandConnection._remote_node_id connection)))
                 None)))
    | Some connection, None => (Throw TypeError, this)
    | None, _ => (Normal tt, get_nodes this)
    end.
Proof.
  destruct this as [[config bc cc node_id] messages searches].
  unfold connecting_to_ue. rewrite has_command_connection_spec.
  unfold RemoteExecution.close_command_connection.
  cbn [remote_exec RemoteExecution._command_connection
         RemoteExecution._broadcast_connection].
  destruct cc as [connection |]; [| reflexivity].
  rewrite close_spec.
  destruct (bc ≫= _RemoteExecutionBroadcastConnection._broadcast_socket); reflexivity.
Qed.

(** X23.  [connect2ue] on a session with a discovery socket closes before
    it searches: the session is left without a command connection, one more
    search for nodes is started, nothing is shown, and the discovery socket
    has sent the [close_connection] message for the node of the command
    connection there was, or nothing if there was none. *)
Theorem connect2ue_closes_then_searches (this : t)
  (udp : _RemoteExecutionBroadcastConnection.udp_socket) :
  (RemoteExecution._broadcast_connection (remote_exec this)
     ≫= _RemoteExecutionBroadcastConnection._broadcast_socket) = Some udp ->
  let this' := connect2ue this in
  RemoteExecution.has_command_connection (remote_exec this') = false
  /\ node_searches this' = S (node_searches this)
  /\ information_messages this' = information_messages this
  /\ (_RemoteExecutionBroadcastConnection.sent
        <$> (RemoteExecution._broadcast_connection (remote_exec this')
               ≫= _RemoteExecutionBroadcastConnection._broadcast_socket))
     = Some
         (_RemoteExecutionBroadcastConnection.sent udp
          ++ match RemoteExecution._command_connection (remote_exec this),
                   RemoteExecution._broadcast_connection (remote_exec this) with
             | Some connection, Some bc =>
                 [datagram_of (_RemoteExecutionBroadcastConnection._config bc)
                    (close_connection_to
                       (_RemoteExecutionBroadcastConnection._node_id bc)
                       (_RemoteExecutionCommandConnection._remote_node_id connection))]
             | _, _ => []
             end)%list.
Proof.
  intros Hudp. unfold connect2ue. rewrite connecting_to_ue_spec, Hudp.
  destruct (RemoteExecution._command_connection (remote_exec this))
    as [connection |] eqn:Hconnection; cbn [snd].
  - rewrite has_command_connection_spec.
    cbn [get_nodes set_remote_exec remote_exec node_searches information_messages
           RemoteExecution.set_connections RemoteExecution._command_connection
           RemoteExecution._broadcast_connection].
    repeat split.
    destruct (RemoteExecution._broadcast_connection (remote_exec this)) as [bc |];
      [| discriminate].
    cbn in Hudp |- *. rewrite Hudp. reflexivity.
  - rewrite has_command_connection_spec.
    cbn [get_nodes remote_exec node_searches information_messages].
    rewrite Hconnection, Hudp, app_nil_r. repeat split.
Qed.

End ExtensionFurther.

Lemma pong_of_n1_ordinary : @ordinary_datagram Reference.runtime Discovery.pong_of_n1.
Proof.
  unfold ordinary_datagram.
  change (@_RemoteExecutionMessage.from_json_bytes Reference.runtime
            Scenario.blank Discovery.pong_of_n1)
    with (true, Sample.pong_of_n1, @None exn).
  cbn [fst snd Sample.pong_of_n1 _RemoteExecutionMessage.source
         _RemoteExecutionMessage.data ToString].
  split; [discriminate | apply (machine_WS1_prints "n1")].
Qed.

Lemma session_lists_each_node_once_witness :
  let events :=
    [Session.Start; Session.Datagram Discovery.pong_of_n1; Session.Tick;
     Session.Snapshot] in
  Forall (@ordinary Reference.runtime) events
  /\ (let '(this, w1) :=
        @Session.after Reference.runtime RemoteExecutionConfig.new "local"
          World.initial events in
      let '(records, w2) := RemoteExecution.remote_nodes this w1 in
      length records = size (Session.registry this)
      /\ forall node_id : string,
           length (records_for node_id w2 records)
           = if bool_decide (is_Some (Session.registry this !! node_id))
             then 1%nat else 0%nat)
  /\ size (Session.registry
             (@Session.after Reference.runtime RemoteExecutionConfig.new "local"
                World.initial events).1) = 1%nat.
Proof.
  intros events.
  assert (Hordinary : Forall (@ordinary Reference.runtime) events).
  { repeat (apply Forall_cons; split); try apply Forall_nil_2; try exact I.
    exact pong_of_n1_ordinary. }
  split; [exact Hordinary |].
  split; [| vm_compute; reflexivity].
  exact (@session_lists_each_node_once Reference.runtime RemoteExecutionConfig.new
           "local" World.initial events Hordinary).
Defined.

Lemma quick_pick_lists_each_node_witness :
  let events :=
    [Session.Start; Session.Datagram Discovery.pong_of_n1; Session.Tick;
     Session.Snapshot] in
  Forall (@ordinary Reference.runtime) events
  /\ (let '(session, w1) :=
        @Session.after Reference.runtime RemoteExecutionConfig.new "local"
          World.initial events in
      let '(items, w2) := Extension.nodes_list session w1 in
      length items = size (Session.registry session)
      /\ (forall node_id : string,
            length (List.filter (has_id node_id) items)
            = if bool_decide (is_Some (Session.registry session !! node_id))
              then 1%nat else 0%nat)
      /\ (forall (node_id : string) (node : _RemoteExecutionNode.t),
            Session.registry session !! node_id = Some node ->
            exists item : Extension.quick_pick_item,
              item ∈ items
              /\ Extension.id item = JStr node_id
              /\ Extension.label item = own_property (attributes w1 node) "machine"
              /\ Extension.description item
                 = own_property (attributes w1 node) "engine_version"
              /\ Extension.detail item
                 = own_property (attributes w1 node) "project_root")
      /\ (Extension.node_checker session w1).1
         = if bool_decide (Session.registry session = ∅) then None
           else Some (RemoteExecution.remote_nodes session
                        (RemoteExecution.remote_nodes session w1).2).1)
  /\ (Extension.nodes_list
        (@Session.after Reference.runtime RemoteExecutionConfig.new "local"
           World.initial events).1
        (@Session.after Reference.runtime RemoteExecutionConfig.new "local"
           World.initial events).2).1
     = [{| Extension.label := JStr "WS1";
           Extension.description := JUndefined;
           Extension.detail := JUndefined;
           Extension.id := JStr "n1" |}].
Proof.
  intros events.
  assert (Hordinary : Forall (@ordinary Reference.runtime) events).
  { repeat (apply Forall_cons; split); try apply Forall_nil_2; try exact I.
    exact pong_of_n1_ordinary. }
  split; [exact Hordinary |].
  split; [| vm_compute; reflexivity].
  exact (@quick_pick_lists_each_node Reference.runtime RemoteExecutionConfig.new
           "local" World.initial events Hordinary).
Defined.

Lemma send2ue_without_connection_witness :
  let this := Extension.activate "local" in
  RemoteExecution.has_command_connection (Extension.remote_exec this) = false
  /\ @Extension.send2ue Reference.runtime 0 this None
     = (_RemoteExecutionCommandConnection.Returns tt,
        {| Extension.remote_exec := Extension.remote_exec this;
           Extension.information_messages :=
             ["Sending code to Unreal Engine";
              "You need to connect to a UE node first"];
           Extension.node_searches := 1 |}).
Proof.
  intros this. split; [reflexivity |].
  exact (@send2ue_without_connection Reference.runtime 0 this None eq_refl).
Defined.

Lemma send2ue_writes_the_text_witness :
  let this' :=
    (@Extension.send2ue Reference.runtime 3 Sample.sending
       (Some Sample.selecting)).2 in
  RemoteExecution._command_connection (Extension.remote_exec Sample.sending)
  = Some Sample.connected
  /\ _RemoteExecutionCommandConnection._command_channel_socket Sample.connected
     = Some Channel.mock_socket
  /\ (RemoteExecution._command_connection (Extension.remote_exec this')
        ≫= _RemoteExecutionCommandConnection._command_channel_socket)
     = Some
         {| _RemoteExecutionCommandConnection.written :=
              [Reference.wire
                 "{'version':1,'magic':'ue_py','type':'command','source':'local','dest':'n1','data':{'command':'print(1)','unattended':true,'exec_mode':'ExecuteFile'}}"] |}
  /\ RemoteExecution._broadcast_connection (Extension.remote_exec this')
     = RemoteExecution._broadcast_connection (Extension.remote_exec Sample.sending)
  /\ Extension.information_messages this' = ["Sending code to Unreal Engine"]
  /\ Extension.node_searches this' = 0%nat.
Proof.
  intros this'. split; [reflexivity |]. split; [reflexivity |].
  exact (@send2ue_writes_the_text Reference.runtime 3 Sample.sending
           Sample.selecting Sample.connected Channel.mock_socket eq_refl eq_refl).
Defined.

Lemma connect2ue_closes_then_searches_witness :
  let this' := @Extension.connect2ue Reference.runtime Sample.sending in
  (RemoteExecution._broadcast_connection (Extension.remote_exec Sample.sending)
     ≫= _RemoteExecutionBroadcastConnection._broadcast_socket) = Some Sample.udp
  /\ RemoteExecution.has_command_connection (Extension.remote_exec this') = false
  /\ Extension.node_searches this' = 1%nat
  /\ Extension.information_messages this' = []
  /\ (_RemoteExecutionBroadcastConnection.sent
        <$> (RemoteExecution._broadcast_connection (Extension.remote_exec this')
               ≫= _RemoteExecutionBroadcastConnection._broadcast_socket))
     = Some
         [{| _RemoteExecutionBroadcastConnection.dgram_data :=
               Reference.wire
                 "{'version':1,'magic':'ue_py','type':'close_connection','source':'local','dest':'n1'}";
             _RemoteExecutionBroadcastConnection.dgram_port := 6766;
             _RemoteExecutionBroadcastConnection.dgram_address := "239.0.0.1" |}].
Proof.
  intros this'. split; [reflexivity |].
  exact (@connect2ue_closes_then_searches Reference.runtime Sample.sending
           Sample.udp eq_refl).
Defined.
